(** * Five-in-a-Row game server: board engine, session state machine,
      heuristic opponent and socket handlers

    Shallow embedding of [server.js] (the variant with the AI player, of which
    the plain variant is the special case [isAIGame = false]) and the
    properties of its specification. *)

From stdpp Require Import base tactics option list numbers strings gmap.

Local Open Scope Z_scope.

(** ** Data model *)

(** A player colour: the strings ['black'] and ['white']. *)
Inductive Color := black | white.

#[global] Instance Color_eq_dec : EqDecision Color.
Proof. solve_decision. Defined.

Definition colorName (c : Color) : string :=
  match c with black => "black" | white => "white" end.

(** [this.currentPlayer === 'black' ? 'white' : 'black'] *)
Definition otherColor (c : Color) : Color :=
  match c with black => white | white => black end.

(** A board cell is [null] ([None]) or a colour; a board is an array of rows.
    A coordinate pair [{row, col}] is a pair of integers. *)
Abbreviation Cell := (option Color).
Abbreviation Board := (list (list (option Color))).
Abbreviation Pos := (Z * Z)%type.

(** [Array.from({ length: 19 }, () => Array(19).fill(null))] *)
Definition initializeBoard : Board := replicate 19 (replicate 19 None).

(** The shape every board of the program has: 19 rows of 19 cells. *)
Definition wfBoard (b : Board) : Prop :=
  length b = 19%nat ∧ Forall (λ r, length r = 19%nat) b.

(** [row >= 0 && row < 19 && col >= 0 && col < 19] *)
Definition inBounds (row col : Z) : bool :=
  (0 <=? row) && (row <? 19) && (0 <=? col) && (col <? 19).

(** [board[row][col]]; [None] stands for an access outside the arrays
    ([undefined], or a TypeError when the row itself is missing).  The source
    only reads cells behind a bounds check. *)
Definition cellAt (b : Board) (row col : Z) : option Cell :=
  if (row <? 0) || (col <? 0) then None
  else b !! Z.to_nat row ≫= λ r, r !! Z.to_nat col.

(** [board[row][col] === player] *)
Definition cellIs (b : Board) (row col : Z) (player : Color) : bool :=
  bool_decide (cellAt b row col = Some (Some player)).

(** [board[row][col] === null] *)
Definition cellEmpty (b : Board) (row col : Z) : bool :=
  bool_decide (cellAt b row col = Some None).

(** [board[row][col] = v].  Every write of the source is behind a bounds
    check (or at a position produced by the scan of the 19x19 grid), so the
    write is modelled inside the bounds only. *)
Definition setCell (b : Board) (row col : Z) (v : Cell) : Board :=
  if inBounds row col
  then alter (λ r, <[Z.to_nat col := v]> r) (Z.to_nat row) b
  else b.

(** ** Board engine: win detection *)

Definition directions : list (Z * Z) := [(0, 1); (1, 0); (1, 1); (1, -1)].

(** The guard of both scanning loops:
    [newRow >= 0 && newRow < 19 && newCol >= 0 && newCol < 19 &&
     board[newRow][newCol] === player]. *)
Definition holds (b : Board) (player : Color) (p : Pos) : bool :=
  inBounds p.1 p.2 && cellIs b p.1 p.2 player.

(** One loop [for (let i = 1; i < N; i++) { if (guard) { count++;
    winningStones.push/unshift(...) } else break }] of [checkWin]: [idxs] are
    the values of [i], [cellOf i] is [(newRow, newCol)], [add] is [push] or
    [unshift], the state is [(count, winningStones)]. *)
Fixpoint scanLoop (b : Board) (player : Color) (cellOf : Z → Pos)
    (add : Pos → list Pos → list Pos) (idxs : list Z)
    (st : Z * list Pos) : Z * list Pos :=
  match idxs with
  | [] => st
  | i :: rest =>
      if holds b player (cellOf i)
      then scanLoop b player cellOf add rest (st.1 + 1, add (cellOf i) st.2)
      else st
  end.

Definition push (p : Pos) (l : list Pos) : list Pos := l ++ [p].
Definition unshift (p : Pos) (l : list Pos) : list Pos := p :: l.

(** The body of [for (let [dx, dy] of directions)] up to the test
    [count >= 5]: the pair [(count, winningStones)] after both loops. *)
Definition checkWinDir (b : Board) (row col : Z) (player : Color)
    (d : Z * Z) : Z * list Pos :=
  let '(dx, dy) := d in
  let st0 := (1, [(row, col)]) in
  let st1 := scanLoop b player (λ i, (row + i * dx, col + i * dy)) push
               [1; 2; 3; 4] st0 in
  scanLoop b player (λ i, (row - i * dx, col - i * dy)) unshift
    [1; 2; 3; 4] st1.

(** [{ won: true, winningStones }] or [{ won: false }] *)
Inductive WinResult :=
  | Won (winningStones : list Pos)
  | NotWon.

Definition won (r : WinResult) : bool :=
  match r with Won _ => true | NotWon => false end.

Fixpoint checkWinFrom (b : Board) (row col : Z) (player : Color)
    (dirs : list (Z * Z)) : WinResult :=
  match dirs with
  | [] => NotWon
  | d :: rest =>
      let st := checkWinDir b row col player d in
      if 5 <=? st.1 then Won st.2 else checkWinFrom b row col player rest
  end.

(** [Game.checkWin(row, col, player)] on the board [b] of the game. *)
Definition checkWin (b : Board) (row col : Z) (player : Color) : WinResult :=
  checkWinFrom b row col player directions.

(** The brute-force reference of the specification: all 4 x 19 x 19 lines of
    5 cells (an axis and a start cell), of which those containing the cell
    are tested for holding five stones of the colour inside the board. *)
Definition lineFrom (d : Z * Z) (r0 c0 : Z) : list Pos :=
  (λ j, (r0 + j * d.1, c0 + j * d.2)) <$> seqZ 0 5.

Definition allLines : list (list Pos) :=
  d ← directions; r0 ← seqZ 0 19; c0 ← seqZ 0 19; [lineFrom d r0 c0].

Definition bruteForceWin (b : Board) (row col : Z) (player : Color) : bool :=
  existsb (λ line, bool_decide ((row, col) ∈ line) && forallb (holds b player) line)
    allLines.

(** ** The Game class *)

(** An entry of [moveHistory]. *)
Record MoveRecord := mkMoveRecord {
  mvRow : Z;
  mvCol : Z;
  mvPlayer : Color;
  mvTimestamp : Z;
  mvNumber : Z
}.

(** The fields of a [Game] object.  A socket reference is modelled by the
    socket's id ([None] for [null], the second seat of a game against the AI
    player); times are numbers read from the clock; [disconnectTimeout]
    holds the handle of the pending grace timer. *)
Record Game := mkGame {
  id : string;
  player1 : option string;
  player2 : option string;
  player1Name : string;
  player2Name : string;
  isAIGame : bool;
  board : Board;
  currentPlayer : Color;
  winner : option string;
  gameOver : bool;
  moveCount : Z;
  moveHistory : list MoveRecord;
  createdAt : Z;
  lastMoveAt : Z;
  disconnectTimeout : option Z
}.

(** [new Game(player1, player2, player1Name, player2Name, isAIGame)]; the
    generated id and the clock are inputs. *)
Definition newGame (gid : string) (now : Z) (p1 p2 : option string)
    (p1Name p2Name : string) (ai : bool) : Game :=
  {| id := gid; player1 := p1; player2 := p2;
     player1Name := p1Name; player2Name := p2Name; isAIGame := ai;
     board := initializeBoard; currentPlayer := black; winner := None;
     gameOver := false; moveCount := 0; moveHistory := [];
     createdAt := now; lastMoveAt := now; disconnectTimeout := None |}.

(** Field assignments [game.f = v]. *)
Definition setBoard (v : Board) (g : Game) : Game :=
  {| id := id g; player1 := player1 g; player2 := player2 g;
     player1Name := player1Name g; player2Name := player2Name g;
     isAIGame := isAIGame g; board := v; currentPlayer := currentPlayer g;
     winner := winner g; gameOver := gameOver g; moveCount := moveCount g;
     moveHistory := moveHistory g; createdAt := createdAt g;
     lastMoveAt := lastMoveAt g; disconnectTimeout := disconnectTimeout g |}.

Definition setCurrentPlayer (v : Color) (g : Game) : Game :=
  {| id := id g; player1 := player1 g; player2 := player2 g;
     player1Name := player1Name g; player2Name := player2Name g;
     isAIGame := isAIGame g; board := board g; currentPlayer := v;
     winner := winner g; gameOver := gameOver g; moveCount := moveCount g;
     moveHistory := moveHistory g; createdAt := createdAt g;
     lastMoveAt := lastMoveAt g; disconnectTimeout := disconnectTimeout g |}.

Definition setWinner (v : option string) (g : Game) : Game :=
  {| id := id g; player1 := player1 g; player2 := player2 g;
     player1Name := player1Name g; player2Name := player2Name g;
     isAIGame := isAIGame g; board := board g; currentPlayer := currentPlayer g;
     winner := v; gameOver := gameOver g; moveCount := moveCount g;
     moveHistory := moveHistory g; createdAt := createdAt g;
     lastMoveAt := lastMoveAt g; disconnectTimeout := disconnectTimeout g |}.

Definition setGameOver (v : bool) (g : Game) : Game :=
  {| id := id g; player1 := player1 g; player2 := player2 g;
     player1Name := player1Name g; player2Name := player2Name g;
     isAIGame := isAIGame g; board := board g; currentPlayer := currentPlayer g;
     winner := winner g; gameOver := v; moveCount := moveCount g;
     moveHistory := moveHistory g; createdAt := createdAt g;
     lastMoveAt := lastMoveAt g; disconnectTimeout := disconnectTimeout g |}.

Definition setMoveCount (v : Z) (g : Game) : Game :=
  {| id := id g; player1 := player1 g; player2 := player2 g;
     player1Name := player1Name g; player2Name := player2Name g;
     isAIGame := isAIGame g; board := board g; currentPlayer := currentPlayer g;
     winner := winner g; gameOver := gameOver g; moveCount := v;
     moveHistory := moveHistory g; createdAt := createdAt g;
     lastMoveAt := lastMoveAt g; disconnectTimeout := disconnectTimeout g |}.

Definition setMoveHistory (v : list MoveRecord) (g : Game) : Game :=
  {| id := id g; player1 := player1 g; player2 := player2 g;
     player1Name := player1Name g; player2Name := player2Name g;
     isAIGame := isAIGame g; board := board g; currentPlayer := currentPlayer g;
     winner := winner g; gameOver := gameOver g; moveCount := moveCount g;
     moveHistory := v; createdAt := createdAt g;
     lastMoveAt := lastMoveAt g; disconnectTimeout := disconnectTimeout g |}.

Definition setLastMoveAt (v : Z) (g : Game) : Game :=
  {| id := id g; player1 := player1 g; player2 := player2 g;
     player1Name := player1Name g; player2Name := player2Name g;
     isAIGame := isAIGame g; board := board g; currentPlayer := currentPlayer g;
     winner := winner g; gameOver := gameOver g; moveCount := moveCount g;
     moveHistory := moveHistory g; createdAt := createdAt g;
     lastMoveAt := v; disconnectTimeout := disconnectTimeout g |}.

Definition setPlayer1 (v : option string) (g : Game) : Game :=
  {| id := id g; player1 := v; player2 := player2 g;
     player1Name := player1Name g; player2Name := player2Name g;
     isAIGame := isAIGame g; board := board g; currentPlayer := currentPlayer g;
     winner := winner g; gameOver := gameOver g; moveCount := moveCount g;
     moveHistory := moveHistory g; createdAt := createdAt g;
     lastMoveAt := lastMoveAt g; disconnectTimeout := disconnectTimeout g |}.

Definition setPlayer2 (v : option string) (g : Game) : Game :=
  {| id := id g; player1 := player1 g; player2 := v;
     player1Name := player1Name g; player2Name := player2Name g;
     isAIGame := isAIGame g; board := board g; currentPlayer := currentPlayer g;
     winner := winner g; gameOver := gameOver g; moveCount := moveCount g;
     moveHistory := moveHistory g; createdAt := createdAt g;
     lastMoveAt := lastMoveAt g; disconnectTimeout := disconnectTimeout g |}.

Definition setDisconnectTimeout (v : option Z) (g : Game) : Game :=
  {| id := id g; player1 := player1 g; player2 := player2 g;
     player1Name := player1Name g; player2Name := player2Name g;
     isAIGame := isAIGame g; board := board g; currentPlayer := currentPlayer g;
     winner := winner g; gameOver := gameOver g; moveCount := moveCount g;
     moveHistory := moveHistory g; createdAt := createdAt g;
     lastMoveAt := lastMoveAt g; disconnectTimeout := v |}.

(** [{ valid: true }] or [{ valid: false, reason }] *)
Inductive Validation :=
  | Valid
  | Invalid (reason : string).

(** [Game.isValidMove(row, col, player)] *)
Definition isValidMove (g : Game) (row col : Z) (player : Color) : Validation :=
  if (row <? 0) || (row >=? 19) || (col <? 0) || (col >=? 19)
  then Invalid "Move out of bounds"
  else if negb (cellEmpty (board g) row col)
  then Invalid "Position already occupied"
  else if negb (bool_decide (currentPlayer g = player))
  then Invalid "Not your turn"
  else if gameOver g
  then Invalid "Game is over"
  else Valid.

(** [{ success: true, gameOver, winner, currentPlayer }] or
    [{ success: false, reason }] *)
Inductive MoveResult :=
  | MoveOk (over : bool) (win : option string) (turn : Color)
  | MoveFailed (reason : string).

Definition success (r : MoveResult) : bool :=
  match r with MoveOk _ _ _ => true | MoveFailed _ => false end.

(** [Game.makeMove(row, col, player)]: the game after the call and the
    returned object.  [now] is the clock of [new Date()]. *)
Definition makeMove (now : Z) (g : Game) (row col : Z) (player : Color)
    : Game * MoveResult :=
  match isValidMove g row col player with
  | Invalid reason => (g, MoveFailed reason)
  | Valid =>
      let g1 := setBoard (setCell (board g) row col (Some player)) g in
      let g2 := setMoveCount (moveCount g1 + 1) g1 in
      let g3 := setLastMoveAt now g2 in
      let g4 := setMoveHistory
                  (moveHistory g3 ++ [mkMoveRecord row col player now (moveCount g3)])
                  g3 in
      let winResult := checkWin (board g4) row col player in
      let g5 :=
        if won winResult
        then setWinner (Some (colorName player)) (setGameOver true g4)
        else if moveCount g4 >=? 19 * 19
        then setWinner (Some "draw") (setGameOver true g4)
        else setCurrentPlayer (otherColor (currentPlayer g4)) g4 in
      (g5, MoveOk (gameOver g5) (winner g5) (currentPlayer g5))
  end.

(** The seven assignments that the handlers [requestStartOver],
    [respondToNewGame] and [resetAIGame] each perform to reset a game. *)
Definition resetGame (now : Z) (g : Game) : Game :=
  setLastMoveAt now
    (setMoveHistory []
       (setMoveCount 0
          (setGameOver false
             (setWinner None
                (setCurrentPlayer black
                   (setBoard initializeBoard g)))))).

(** The assignments of the disconnect-timeout callback:
    [game.gameOver = true; game.winner = 'disconnect']. *)
Definition markDisconnected (g : Game) : Game :=
  setWinner (Some "disconnect") (setGameOver true g).

(** ** The AIPlayer class *)

(** [AIPlayer.getEmptyPositions(board)]: row-major scan. *)
Definition getEmptyPositions (b : Board) : list Pos :=
  r ← seqZ 0 19; c ← seqZ 0 19; if cellEmpty b r c then [(r, c)] else [].

(** One counting loop [for (let i = 1; i < N; i++) { if (guard) count++;
    else break }] of [checkWinAtPosition] and [findThreatMove]. *)
Fixpoint countLoop (b : Board) (player : Color) (cellOf : Z → Pos)
    (idxs : list Z) (count : Z) : Z :=
  match idxs with
  | [] => count
  | i :: rest =>
      if holds b player (cellOf i)
      then countLoop b player cellOf rest (count + 1)
      else count
  end.

(** [count] after the two loops of one direction, [idxs] being the values
    of [i]. *)
Definition countDir (b : Board) (row col : Z) (player : Color)
    (idxs : list Z) (d : Z * Z) : Z :=
  let '(dx, dy) := d in
  let c1 := countLoop b player (λ i, (row + i * dx, col + i * dy)) idxs 1 in
  countLoop b player (λ i, (row - i * dx, col - i * dy)) idxs c1.

(** [AIPlayer.checkWinAtPosition(board, row, col, player)] *)
Definition checkWinAtPosition (b : Board) (row col : Z) (player : Color) : bool :=
  existsb (λ d, 5 <=? countDir b row col player [1; 2; 3; 4] d) directions.

(** [AIPlayer.findWinningMove(board, player, emptyPositions)].  The function
    writes the stone into the shared board and writes [null] back, so the
    board is threaded through. *)
Fixpoint findWinningMove (b : Board) (player : Color)
    (emptyPositions : list Pos) : Board * option Pos :=
  match emptyPositions with
  | [] => (b, None)
  | pos :: rest =>
      let b1 := setCell b pos.1 pos.2 (Some player) in
      if checkWinAtPosition b1 pos.1 pos.2 player
      then (setCell b1 pos.1 pos.2 None, Some pos)
      else findWinningMove (setCell b1 pos.1 pos.2 None) player rest
  end.

(** [AIPlayer.findThreatMove(board, player, emptyPositions)] *)
Definition findThreatMove (b : Board) (player : Color)
    (emptyPositions : list Pos) : option Pos :=
  find (λ pos, existsb (λ d, 4 <=? countDir b pos.1 pos.2 player [1; 2; 3] d)
                 directions)
    emptyPositions.

(** The score of [findStrategicMove] for one empty position, doubled: the
    source adds [(18 - centerDistance) * 0.5] to an integer, so twice the
    score is the integer below and the order of the scores is the same. *)
Definition strategicScore2 (b : Board) (aiPlayer : Color) (pos : Pos) : Z :=
  let near :=
    r ← seqZ 0 19; c ← seqZ 0 19;
    match cellAt b r c with
    | Some (Some stone) =>
        let distance := Z.abs (pos.1 - r) + Z.abs (pos.2 - c) in
        if distance <=? 3
        then [(4 - distance) * (if bool_decide (stone = aiPlayer) then 2 else 1)]
        else []
    | _ => []
    end in
  let centerDistance := Z.abs (pos.1 - 9) + Z.abs (pos.2 - 9) in
  2 * foldr Z.add 0 near + (18 - centerDistance).

(** [scoredMoves.sort((a, b) => b.score - a.score)]: a stable sort into
    descending order of the score. *)
Fixpoint insertByScore (x : Pos * Z) (l : list (Pos * Z)) : list (Pos * Z) :=
  match l with
  | [] => [x]
  | y :: rest => if y.2 <=? x.2 then x :: y :: rest else y :: insertByScore x rest
  end.

Definition sortByScore (l : list (Pos * Z)) : list (Pos * Z) :=
  foldr insertByScore [] l.

(** [AIPlayer.findStrategicMove(board, aiPlayer, humanPlayer, emptyPositions)] *)
Definition findStrategicMove (b : Board) (aiPlayer humanPlayer : Color)
    (emptyPositions : list Pos) : option Pos :=
  let scoredMoves := (λ pos, (pos, strategicScore2 b aiPlayer pos)) <$> emptyPositions in
  match sortByScore scoredMoves with
  | best :: _ => Some best.1
  | [] => None
  end.

(** [AIPlayer.getRandomMove(emptyPositions)], the random index being an
    input. *)
Definition getRandomMove (randomIndex : nat) (emptyPositions : list Pos) : option Pos :=
  emptyPositions !! randomIndex.

(** [AIPlayer.getBestMove(board, aiPlayer, humanPlayer)]: the board after the
    call and the returned move ([None] for [null]). *)
Definition getBestMove (randomIndex : nat) (b : Board) (aiPlayer humanPlayer : Color)
    : Board * option Pos :=
  let emptyPositions := getEmptyPositions b in
  if bool_decide (length emptyPositions = 0%nat) then (b, None) else
  let r1 := findWinningMove b aiPlayer emptyPositions in
  match r1.2 with
  | Some winningMove => (r1.1, Some winningMove)
  | None =>
  let r2 := findWinningMove r1.1 humanPlayer emptyPositions in
  match r2.2 with
  | Some blockingMove => (r2.1, Some blockingMove)
  | None =>
  match findThreatMove r2.1 humanPlayer emptyPositions with
  | Some threatMove => (r2.1, Some threatMove)
  | None =>
  match findThreatMove r2.1 aiPlayer emptyPositions with
  | Some opportunityMove => (r2.1, Some opportunityMove)
  | None =>
  match findStrategicMove r2.1 aiPlayer humanPlayer emptyPositions with
  | Some strategicMove => (r2.1, Some strategicMove)
  | None => (r2.1, getRandomMove randomIndex emptyPositions)
  end end end end end.

(** An open-ended four: four stones of [player] in a row from [(row, col)]
    along [d], and both extension cells on the board and empty. *)
Definition openFour (b : Board) (player : Color) (row col : Z) (d : Z * Z) : Prop :=
  d ∈ directions ∧
  (∀ i, 0 ≤ i < 4 → holds b player (row + i * d.1, col + i * d.2) = true) ∧
  inBounds (row - d.1) (col - d.2) = true ∧
  cellEmpty b (row - d.1) (col - d.2) = true ∧
  inBounds (row + 4 * d.1) (col + 4 * d.2) = true ∧
  cellEmpty b (row + 4 * d.1) (col + 4 * d.2) = true.

(** A cell at which [player] wins in one move: it is empty and placing the
    stone there makes [checkWinAtPosition] true. *)
Definition winningCell (b : Board) (player : Color) (pos : Pos) : Prop :=
  inBounds pos.1 pos.2 = true ∧
  cellEmpty b pos.1 pos.2 = true ∧
  checkWinAtPosition (setCell b pos.1 pos.2 (Some player)) pos.1 pos.2 player = true.

(** ** Session state machine *)

(** The ways the program changes a [Game] object after its construction:
    [makeMove] (from the [makeMove] handler and from [handleAIMove]), the
    reset of [requestStartOver], [respondToNewGame] and [resetAIGame], the
    disconnect-timeout callback, and the socket and timer bookkeeping of
    [reconnectToGame] and [disconnect]. *)
Inductive sessionStep : Game → Game → Prop :=
  | step_makeMove now g row col player :
      sessionStep g (makeMove now g row col player).1
  | step_reset now g :
      sessionStep g (resetGame now g)
  | step_timeout g :
      sessionStep g (markDisconnected g)
  | step_reconnect1 g socket :
      sessionStep g (setDisconnectTimeout None (setPlayer1 (Some socket) g))
  | step_reconnect2 g socket :
      sessionStep g (setDisconnectTimeout None (setPlayer2 (Some socket) g))
  | step_disconnect g timer :
      sessionStep g (setDisconnectTimeout timer g).

Inductive reachable : Game → Prop :=
  | reach_new gid now p1 p2 n1 n2 ai :
      reachable (newGame gid now p1 p2 n1 n2 ai)
  | reach_step g g' :
      reachable g → sessionStep g g' → reachable g'.

(** The five outcomes of the specification and the value of [winner] that
    stands for each. *)
Inductive Outcome := NoOutcome | BlackWon | WhiteWon | Draw | Abandoned.

Definition outcomeOf (w : option string) : option Outcome :=
  match w with
  | None => Some NoOutcome
  | Some s =>
      if bool_decide (s = "black") then Some BlackWon
      else if bool_decide (s = "white") then Some WhiteWon
      else if bool_decide (s = "draw") then Some Draw
      else if bool_decide (s = "disconnect") then Some Abandoned
      else None
  end.

(** ** Server state and socket handlers *)

(** An entry of [gameHistory]. *)
Record HistoryMove := mkHistoryMove {
  hmRow : Z;
  hmCol : Z;
  hmPlayer : Color;
  hmPlayerName : string;
  hmTimestamp : Z;
  hmNumber : Z
}.

Record History := mkHistory {
  hGameId : string;
  hPlayers : list string;
  hCreatedAt : Z;
  hMoves : list HistoryMove;
  hEndedAt : option Z;
  hReason : option string
}.

(** The module-level state of the server.  Sockets are named by their id;
    [rooms] is the room membership kept by [socket.join], [liveSockets] the
    sockets whose [connected] flag is true. *)
Record Server := mkServer {
  games : gmap string Game;
  waitingPlayers : list string;
  startOverRequests : gmap string (gset string);
  gameHistory : gmap string History;
  connectedPlayers : gmap string string;
  playerNames : gset string;
  playerGameMap : gmap string string;
  rooms : gmap string (gset string);
  liveSockets : gset string
}.

Definition setGames (v : gmap string Game) (s : Server) : Server :=
  {| games := v; waitingPlayers := waitingPlayers s;
     startOverRequests := startOverRequests s; gameHistory := gameHistory s;
     connectedPlayers := connectedPlayers s; playerNames := playerNames s;
     playerGameMap := playerGameMap s; rooms := rooms s;
     liveSockets := liveSockets s |}.

Definition setWaitingPlayers (v : list string) (s : Server) : Server :=
  {| games := games s; waitingPlayers := v;
     startOverRequests := startOverRequests s; gameHistory := gameHistory s;
     connectedPlayers := connectedPlayers s; playerNames := playerNames s;
     playerGameMap := playerGameMap s; rooms := rooms s;
     liveSockets := liveSockets s |}.

Definition setStartOverRequests (v : gmap string (gset string)) (s : Server) : Server :=
  {| games := games s; waitingPlayers := waitingPlayers s;
     startOverRequests := v; gameHistory := gameHistory s;
     connectedPlayers := connectedPlayers s; playerNames := playerNames s;
     playerGameMap := playerGameMap s; rooms := rooms s;
     liveSockets := liveSockets s |}.

Definition setGameHistory (v : gmap string History) (s : Server) : Server :=
  {| games := games s; waitingPlayers := waitingPlayers s;
     startOverRequests := startOverRequests s; gameHistory := v;
     connectedPlayers := connectedPlayers s; playerNames := playerNames s;
     playerGameMap := playerGameMap s; rooms := rooms s;
     liveSockets := liveSockets s |}.

Definition setPlayerGameMap (v : gmap string string) (s : Server) : Server :=
  {| games := games s; waitingPlayers := waitingPlayers s;
     startOverRequests := startOverRequests s; gameHistory := gameHistory s;
     connectedPlayers := connectedPlayers s; playerNames := playerNames s;
     playerGameMap := v; rooms := rooms s;
     liveSockets := liveSockets s |}.

Definition setRooms (v : gmap string (gset string)) (s : Server) : Server :=
  {| games := games s; waitingPlayers := waitingPlayers s;
     startOverRequests := startOverRequests s; gameHistory := gameHistory s;
     connectedPlayers := connectedPlayers s; playerNames := playerNames s;
     playerGameMap := playerGameMap s; rooms := v;
     liveSockets := liveSockets s |}.

(** What a handler sends: [socket.emit(event, { message })] to one socket,
    [io.to(room).emit(event, ...)] to a room, and the timer it arms. *)
Inductive Event :=
  | Emit (socket event message : string)
  | Broadcast (room event : string)
  | SetTimeout (callback gameId : string) (delay : Z).

(** [connectedPlayers.has(socket.id)] *)
Definition hasUsername (s : Server) (socket : string) : bool :=
  bool_decide (is_Some (connectedPlayers s !! socket)).

(** [!gameId] for a string. *)
Definition falsy (x : string) : bool := bool_decide (x = "").

(** [isPlayer1 ? game.player2 : game.player1] *)
Definition otherPlayerOf (isPlayer1 : bool) (game : Game) : option string :=
  if isPlayer1 then player2 game else player1 game.

Definition usernameRequired (socket : string) : Event :=
  Emit socket "usernameRequired" "Please set your username first".

(** The [makeMove] handler: [socket.on('makeMove', (data) => ...)] with
    [data = { gameId, row, col }], [row] and [col] numbers. *)
Definition onMakeMove (now : Z) (s : Server) (socket gameId : string)
    (row col : Z) : Server * list Event :=
  if negb (hasUsername s socket) then (s, [usernameRequired socket])
  else if falsy gameId then (s, [Emit socket "moveError" "Invalid move data"])
  else if (row <? 0) || (row >=? 19) || (col <? 0) || (col >=? 19)
  then (s, [Emit socket "moveError" "Move out of bounds"])
  else match games s !! gameId with
  | None => (s, [Emit socket "moveError" "Game not found"])
  | Some game =>
      let isPlayer1 := bool_decide (player1 game = Some socket) in
      let isPlayer2 := bool_decide (player2 game = Some socket) in
      if negb isPlayer1 && negb isPlayer2
      then (s, [Emit socket "moveError" "You are not part of this game"])
      else
        let player := if isPlayer1 then black else white in
        let playerName := default "" (connectedPlayers s !! socket) in
        let r := makeMove now game row col player in
        let s1 := setGames (<[gameId := r.1]> (games s)) s in
        match r.2 with
        | MoveOk over win turn =>
            let s2 :=
              match gameHistory s1 !! gameId with
              | Some h =>
                  setGameHistory
                    (<[gameId :=
                        mkHistory (hGameId h) (hPlayers h) (hCreatedAt h)
                          (hMoves h ++ [mkHistoryMove row col player playerName
                                          now (moveCount r.1)])
                          (hEndedAt h) (hReason h)]> (gameHistory s1)) s1
              | None => s1
              end in
            let update :=
              if isAIGame r.1 then Emit socket "gameUpdate" ""
              else Broadcast gameId "gameUpdate" in
            let ended :=
              if over
              then [if isAIGame r.1
                    then Emit socket "gameEnded" (default "" win)
                    else Broadcast gameId "gameEnded"]
              else if isAIGame r.1
              then [SetTimeout "handleAIMove" gameId 500]
              else [] in
            (s2, [update; Emit socket "moveConfirmed" ""] ++ ended)
        | MoveFailed reason => (s1, [Emit socket "moveError" reason])
        end
  end.

(** The [requestStartOver] handler.  [otherPlayer.emit] on a [null] seat
    throws inside the [try], after the vote was recorded; the [catch]
    reports the error. *)
Definition onRequestStartOver (now : Z) (s : Server) (socket gameId : string)
    : Server * list Event :=
  if negb (hasUsername s socket) then (s, [usernameRequired socket])
  else if falsy gameId then (s, [Emit socket "startOverError" "Invalid game ID"])
  else match games s !! gameId with
  | None => (s, [Emit socket "startOverError" "Game not found"])
  | Some game =>
      let isPlayer1 := bool_decide (player1 game = Some socket) in
      let isPlayer2 := bool_decide (player2 game = Some socket) in
      if negb isPlayer1 && negb isPlayer2
      then (s, [Emit socket "startOverError" "You are not part of this game"])
      else
        let requests := default ∅ (startOverRequests s !! gameId) ∪ {[socket]} in
        let s1 := setStartOverRequests (<[gameId := requests]> (startOverRequests s)) s in
        let notified :=
          if isAIGame game then Some []
          else match otherPlayerOf isPlayer1 game with
               | Some other => Some [Emit other "startOverRequested" ""]
               | None => None
               end in
        match notified with
        | None =>
            (s1, [Emit socket "startOverError" "Error processing start over request"])
        | Some evs =>
            if bool_decide (size requests = 2%nat) || isAIGame game
            then
              let s2 := setGames (<[gameId := resetGame now game]> (games s1)) s1 in
              let s3 := setStartOverRequests (delete gameId (startOverRequests s2)) s2 in
              let restarted :=
                if isAIGame game
                then (λ p, Emit p "gameRestarted" "") <$> player1 game
                else Some (Broadcast gameId "gameRestarted") in
              match restarted with
              | Some ev => (s3, evs ++ [ev])
              | None =>
                  (s3, evs ++ [Emit socket "startOverError"
                                 "Error processing start over request"])
              end
            else (s1, evs)
        end
  end.

(** The [requestNewGame] handler. *)
Definition onRequestNewGame (s : Server) (socket gameId : string)
    : Server * list Event :=
  if negb (hasUsername s socket) then (s, [usernameRequired socket])
  else if falsy gameId then (s, [Emit socket "newGameError" "Invalid game ID"])
  else match games s !! gameId with
  | None => (s, [Emit socket "newGameError" "Game not found"])
  | Some game =>
      let isPlayer1 := bool_decide (player1 game = Some socket) in
      let isPlayer2 := bool_decide (player2 game = Some socket) in
      if negb isPlayer1 && negb isPlayer2
      then (s, [Emit socket "newGameError" "You are not part of this game"])
      else match otherPlayerOf isPlayer1 game with
           | Some other =>
               (s, [Emit other "newGameRequested" "";
                    Emit socket "newGameRequestSent" ""])
           | None =>
               (s, [Emit socket "newGameError" "Error processing new game request"])
           end
  end.

(** The [respondToNewGame] handler, [data = { gameId, accept }]. *)
Definition onRespondToNewGame (now : Z) (s : Server) (socket gameId : string)
    (accept : bool) : Server * list Event :=
  if negb (hasUsername s socket) then (s, [usernameRequired socket])
  else if falsy gameId then (s, [Emit socket "newGameError" "Invalid game ID"])
  else match games s !! gameId with
  | None => (s, [Emit socket "newGameError" "Game not found"])
  | Some game =>
      let isPlayer1 := bool_decide (player1 game = Some socket) in
      let isPlayer2 := bool_decide (player2 game = Some socket) in
      if negb isPlayer1 && negb isPlayer2
      then (s, [Emit socket "newGameError" "You are not part of this game"])
      else if accept
      then (setGames (<[gameId := resetGame now game]> (games s)) s,
            [Broadcast gameId "newGameStarted"])
      else match otherPlayerOf isPlayer1 game with
           | Some other =>
               (s, [Emit other "newGameRejected" "";
                    Emit socket "newGameResponseSent" ""])
           | None =>
               (s, [Emit socket "newGameError" "Error processing new game response"])
           end
  end.

(** The [resetAIGame] handler (AI variant only). *)
Definition onResetAIGame (now : Z) (s : Server) (socket gameId : string)
    : Server * list Event :=
  if negb (hasUsername s socket) then (s, [usernameRequired socket])
  else if falsy gameId then (s, [Emit socket "resetError" "Invalid game ID"])
  else match games s !! gameId with
  | None => (s, [Emit socket "resetError" "Game not found"])
  | Some game =>
      if negb (isAIGame game) then (s, [Emit socket "resetError" "Not an AI game"])
      else if negb (bool_decide (player1 game = Some socket))
      then (s, [Emit socket "resetError" "You are not part of this game"])
      else (setGames (<[gameId := resetGame now game]> (games s)) s,
            [Emit socket "aiGameReset" ""])
  end.

(** [waitingPlayers.indexOf(socket)] followed by [splice(index, 1)]: the
    first occurrence is removed. *)
Fixpoint removeFirst (x : string) (l : list string) : list string :=
  match l with
  | [] => []
  | y :: rest => if bool_decide (y = x) then rest else y :: removeFirst x rest
  end.

(** The [leaveGame] handler. *)
Definition onLeaveGame (s : Server) (socket : string) : Server * list Event :=
  match connectedPlayers s !! socket with
  | None => (s, [])
  | Some playerName =>
      let r :=
        match playerGameMap s !! playerName with
        | Some gameId =>
            if falsy gameId then (s, [])
            else match games s !! gameId with
            | Some game =>
                let other :=
                  if bool_decide (player1 game = Some socket)
                  then player2 game else player1 game in
                let evs :=
                  match other with
                  | Some o => [Emit o "opponentLeft" playerName]
                  | None => []
                  end in
                let s1 := setPlayerGameMap
                            (delete (player2Name game)
                               (delete (player1Name game) (playerGameMap s))) s in
                (setGames (delete gameId (games s1)) s1, evs)
            | None => (s, [])
            end
        | None => (s, [])
        end in
      (setWaitingPlayers (removeFirst socket (waitingPlayers r.1)) r.1, r.2)
  end.

(** The [reconnectToGame] handler. *)
Definition onReconnectToGame (s : Server) (socket : string) : Server * list Event :=
  match connectedPlayers s !! socket with
  | None => (s, [usernameRequired socket])
  | Some playerName =>
      match playerGameMap s !! playerName with
      | Some gameId =>
          if falsy gameId
          then (setPlayerGameMap (delete playerName (playerGameMap s)) s,
                [Emit socket "reconnectError" "No active game found for this player"])
          else match games s !! gameId with
          | None =>
              (setPlayerGameMap (delete playerName (playerGameMap s)) s,
               [Emit socket "reconnectError" "Game no longer exists"])
          | Some game =>
              let isPlayer1 := bool_decide (player1Name game = playerName) in
              let isPlayer2 := bool_decide (player2Name game = playerName) in
              if negb isPlayer1 && negb isPlayer2
              then (s, [Emit socket "reconnectError" "You are not part of this game"])
              else
                let s1 := setRooms
                            (<[gameId := default ∅ (rooms s !! gameId) ∪ {[socket]}]>
                               (rooms s)) s in
                let game1 := if isPlayer1 then setPlayer1 (Some socket) game
                             else setPlayer2 (Some socket) game in
                let game2 := setDisconnectTimeout None game1 in
                (setGames (<[gameId := game2]> (games s1)) s1,
                 [Emit socket "reconnectedToGame" ""])
          end
      | None =>
          (setPlayerGameMap (delete playerName (playerGameMap s)) s,
           [Emit socket "reconnectError" "No active game found for this player"])
      end
  end.

(** The [playerDisconnect] handler, [data = { gameId, playerName,
    isDisconnect }]: the explicit quit. *)
Definition onPlayerDisconnect (now : Z) (s : Server) (socket gameId playerName : string)
    : Server * list Event :=
  if falsy gameId || falsy playerName then (s, [])
  else match games s !! gameId with
  | None => (s, [])
  | Some game =>
      let isPlayer1 := bool_decide (player1Name game = playerName) in
      let isPlayer2 := bool_decide (player2Name game = playerName) in
      if negb isPlayer1 && negb isPlayer2 then (s, [])
      else
        let evs :=
          match otherPlayerOf isPlayer1 game with
          | Some other =>
              if bool_decide (other ∈ liveSockets s)
              then [Emit other "opponentDisconnected" playerName]
              else []
          | None => []
          end in
        let s1 :=
          match gameHistory s !! gameId with
          | Some h =>
              setGameHistory
                (<[gameId :=
                    mkHistory (hGameId h) (hPlayers h) (hCreatedAt h) (hMoves h)
                      (Some now) (Some "Player explicitly disconnected")]>
                   (gameHistory s)) s
          | None => s
          end in
        let s2 := setPlayerGameMap
                    (delete (player2Name game)
                       (delete (player1Name game) (playerGameMap s1))) s1 in
        (setGames (delete gameId (games s2)) s2, evs)
  end.

(** The inbound session operations of a channel. *)
Inductive Request :=
  | ReqMakeMove (gameId : string) (row col : Z)
  | ReqStartOver (gameId : string)
  | ReqNewGame (gameId : string)
  | ReqRespondToNewGame (gameId : string) (accept : bool)
  | ReqResetAIGame (gameId : string)
  | ReqReconnect
  | ReqLeave
  | ReqPlayerDisconnect (gameId playerName : string).

(** Dispatch of an inbound message of [socket] to its handler. *)
Definition handle (now : Z) (s : Server) (socket : string) (req : Request)
    : Server * list Event :=
  match req with
  | ReqMakeMove gameId row col => onMakeMove now s socket gameId row col
  | ReqStartOver gameId => onRequestStartOver now s socket gameId
  | ReqNewGame gameId => onRequestNewGame s socket gameId
  | ReqRespondToNewGame gameId accept => onRespondToNewGame now s socket gameId accept
  | ReqResetAIGame gameId => onResetAIGame now s socket gameId
  | ReqReconnect => onReconnectToGame s socket
  | ReqLeave => onLeaveGame s socket
  | ReqPlayerDisconnect gameId playerName =>
      onPlayerDisconnect now s socket gameId playerName
  end.

(** ** Auxiliary notions for the proofs *)

(** The number of leading indices of [idxs] that pass the guard [ok]: how far
    a scanning loop gets before its [break]. *)
Fixpoint runLength (ok : Z → bool) (idxs : list Z) : nat :=
  match idxs with
  | [] => 0%nat
  | i :: rest => if ok i then S (runLength ok rest) else 0%nat
  end.

(** Along an axis through the pivot some window of five cells, the pivot at
    its place [k], passes the guard [h] everywhere ([h] is given on the
    signed offsets from the pivot). *)
Definition window5 (h : Z → bool) : bool :=
  existsb (λ k, forallb (λ j, h (j - k)) [0; 1; 2; 3; 4]) [0; 1; 2; 3; 4].

(** The guard at the signed offset [i] from the pivot along [d]. *)
Definition along (b : Board) (player : Color) (row col : Z) (d : Z * Z) (i : Z) : bool :=
  holds b player (row + i * d.1, col + i * d.2).

(** Moves applied to a game one after the other, each with its colour. *)
Definition playAll (now : Z) (g : Game) (moves : list (Z * Z * Color)) : Game :=
  foldl (λ g m, (makeMove now g m.1.1 m.1.2 m.2).1) g moves.

(** A fresh game between two sockets. *)
Definition freshGame : Game :=
  newGame "g1" 0 (Some "s1") (Some "s2") "alice" "bob" false.

(** The values that the program assigns to [winner]. *)
Definition winnerValues : list (option string) :=
  [None; Some "black"; Some "white"; Some "draw"; Some "disconnect"].

(** A server on which alice (socket s1) and bob (socket s2) have set their
    names and play the fresh game g1; socket s3 is connected and has claimed
    no name. *)
Definition demoServer : Server :=
  {| games := {[ "g1" := freshGame ]};
     waitingPlayers := [];
     startOverRequests := ∅;
     gameHistory := {[ "g1" := mkHistory "g1" ["alice"; "bob"] 0 [] None None ]};
     connectedPlayers := {[ "s1" := "alice"; "s2" := "bob" ]};
     playerNames := {[ "alice"; "bob" ]};
     playerGameMap := {[ "alice" := "g1"; "bob" := "g1" ]};
     rooms := {[ "g1" := {[ "s1"; "s2" ]} ]};
     liveSockets := {[ "s1"; "s2"; "s3" ]} |}.

(** The board of the specification's example: white stones at (9,5), (9,6),
    (9,7), (9,8) and nothing else. *)
Definition whiteFourBoard : Board :=
  foldl (λ b c, setCell b 9 c (Some white)) initializeBoard [5; 6; 7; 8].

(** A board on which black has the open four (9,5)..(9,8) and white has the
    four (0,0)..(0,3) with (0,4) empty. *)
Definition bothFoursBoard : Board :=
  foldl (λ b c, setCell b 0 c (Some white))
    (setCell (foldl (λ b c, setCell b 9 c (Some black)) initializeBoard [5; 6; 7; 8])
       18 18 (Some black))
    [0; 1; 2; 3].

(** ** Further parts of the program *)

(** The number of stones on a board. *)
Definition stoneCount (b : Board) : nat :=
  sum_list ((λ r : list Cell, length (filter (λ c : Cell, is_Some c) r)) <$> b).

(** The board obtained by replaying a move log on the empty board. *)
Definition replay (h : list MoveRecord) : Board :=
  foldl (λ b m, setCell b (mvRow m) (mvCol m) (Some (mvPlayer m))) initializeBoard h.

(** Some line of five cells of the board holds five stones of the colour. *)
Definition fiveOn (b : Board) (player : Color) : bool :=
  existsb (λ line, forallb (holds b player) line) allLines.

(** The colour that moves at the [n]-th move of a game, counted from 0. *)
Definition colorAt (n : nat) : Color := if Nat.even n then black else white.

(** *** The local game of [client.js] *)

(** The module-level variables [board], [currentPlayer], [gameOver] and
    [winner] of the client. *)
Record LocalGame := mkLocalGame {
  lBoard : Board;
  lCurrentPlayer : Color;
  lGameOver : bool;
  lWinner : option Color
}.

(** [initializeBoard()] of the client: the two nested loops. *)
Definition localInitializeBoard : Board :=
  (λ _, (λ _, None) <$> seqZ 0 19) <$> seqZ 0 19.

(** [isValidPosition(row, col)] *)
Definition isValidPosition (row col : Z) : bool :=
  (0 <=? row) && (row <? 19) && (0 <=? col) && (col <? 19).

(** [isValidMove(row, col)] of the client. *)
Definition localIsValidMove (l : LocalGame) (row col : Z) : bool :=
  if (row <? 0) || (row >=? 19) || (col <? 0) || (col >=? 19) then false
  else if negb (cellEmpty (lBoard l) row col) then false
  else if lGameOver l then false
  else true.

(** One counting loop of the client's [checkWin], with the guard
    [isValidPosition(newRow, newCol) && board[newRow][newCol] === currentPlayer]. *)
Fixpoint localCountLoop (l : LocalGame) (cellOf : Z → Pos) (idxs : list Z)
    (count : Z) : Z :=
  match idxs with
  | [] => count
  | i :: rest =>
      if isValidPosition (cellOf i).1 (cellOf i).2
         && cellIs (lBoard l) (cellOf i).1 (cellOf i).2 (lCurrentPlayer l)
      then localCountLoop l cellOf rest (count + 1)
      else count
  end.

(** [checkWin(row, col)] of the client. *)
Definition localCheckWin (l : LocalGame) (row col : Z) : bool :=
  existsb
    (λ d : Z * Z,
       let c1 := localCountLoop l (λ i, (row + i * d.1, col + i * d.2)) [1; 2; 3; 4] 1 in
       let c2 := localCountLoop l (λ i, (row - i * d.1, col - i * d.2)) [1; 2; 3; 4] c1 in
       5 <=? c2)
    directions.

(** [makeMove(row, col)] of the client: the variables after the call and
    the returned boolean. *)
Definition localMakeMove (l : LocalGame) (row col : Z) : LocalGame * bool :=
  if negb (localIsValidMove l row col) then (l, false)
  else
    let l1 := mkLocalGame (setCell (lBoard l) row col (Some (lCurrentPlayer l)))
                (lCurrentPlayer l) (lGameOver l) (lWinner l) in
    if localCheckWin l1 row col
    then (mkLocalGame (lBoard l1) (lCurrentPlayer l1) true (Some (lCurrentPlayer l1)), true)
    else (mkLocalGame (lBoard l1) (otherColor (lCurrentPlayer l1)) (lGameOver l1)
            (lWinner l1), true).

(** [resetGame()] of the client, the drawing apart. *)
Definition localResetGame (l : LocalGame) : LocalGame :=
  mkLocalGame localInitializeBoard black false None.

(** The local game and a server game show the same position. *)
Definition sameGame (l : LocalGame) (g : Game) : Prop :=
  lBoard l = board g ∧ lCurrentPlayer l = currentPlayer g ∧
  lGameOver l = gameOver g ∧ winner g = colorName <$> lWinner l.

(** *** Joining a game *)

Definition setConnectedPlayers (v : gmap string string) (s : Server) : Server :=
  {| games := games s; waitingPlayers := waitingPlayers s;
     startOverRequests := startOverRequests s; gameHistory := gameHistory s;
     connectedPlayers := v; playerNames := playerNames s;
     playerGameMap := playerGameMap s; rooms := rooms s;
     liveSockets := liveSockets s |}.

Definition setPlayerNames (v : gset string) (s : Server) : Server :=
  {| games := games s; waitingPlayers := waitingPlayers s;
     startOverRequests := startOverRequests s; gameHistory := gameHistory s;
     connectedPlayers := connectedPlayers s; playerNames := v;
     playerGameMap := playerGameMap s; rooms := rooms s;
     liveSockets := liveSockets s |}.

Definition setLiveSockets (v : gset string) (s : Server) : Server :=
  {| games := games s; waitingPlayers := waitingPlayers s;
     startOverRequests := startOverRequests s; gameHistory := gameHistory s;
     connectedPlayers := connectedPlayers s; playerNames := playerNames s;
     playerGameMap := playerGameMap s; rooms := rooms s;
     liveSockets := v |}.

(** [existingGameId && games.has(existingGameId)] for
    [existingGameId = playerGameMap.get(playerName)]. *)
Definition inLiveGame (s : Server) (playerName : string) : bool :=
  match playerGameMap s !! playerName with
  | Some gameId => negb (falsy gameId) && bool_decide (is_Some (games s !! gameId))
  | None => false
  end.

(** [socket.join(room)] *)
Definition joinRoom (room socket : string) (s : Server) : Server :=
  setRooms (<[room := default ∅ (rooms s !! room) ∪ {[socket]}]> (rooms s)) s.

(** The [joinAIGame] handler.  [gid] is the id that the [Game] constructor
    generates and [now] the clock. *)
Definition onJoinAIGame (gid : string) (now : Z) (s : Server) (socket : string)
    : Server * list Event :=
  match connectedPlayers s !! socket with
  | None => (s, [usernameRequired socket])
  | Some playerName =>
      if inLiveGame s playerName then (s, [])
      else
        let game := newGame gid now (Some socket) None playerName "AI Player" true in
        let s1 := setGames (<[gid := game]> (games s)) s in
        let s2 := setGameHistory
                    (<[gid := mkHistory gid [playerName; "AI Player"] now [] None None]>
                       (gameHistory s1)) s1 in
        let s3 := joinRoom gid socket s2 in
        let s4 := setPlayerGameMap (<[playerName := gid]> (playerGameMap s3)) s3 in
        (s4, [Emit socket "gameStarted" "black"; Emit socket "gameUpdate" ""])
  end.

(** The [joinGame] handler.  The name of the waiting socket is read with
    [connectedPlayers.get(player1.id)]; the result is [None] where that
    lookup is [undefined], a name that the [Game] record cannot hold (the
    program only puts named sockets on the waiting list). *)
Definition onJoinGame (gid : string) (now : Z) (s : Server) (socket : string)
    : option (Server * list Event) :=
  match connectedPlayers s !! socket with
  | None => Some (s, [usernameRequired socket])
  | Some playerName =>
      if inLiveGame s playerName then Some (s, [])
      else match waitingPlayers s with
      | [] =>
          Some (setWaitingPlayers (waitingPlayers s ++ [socket]) s,
                [Emit socket "waitingForOpponent" ""])
      | player1 :: rest =>
          match connectedPlayers s !! player1 with
          | None => None
          | Some player1Name =>
              let player2Name := playerName in
              let s0 := setWaitingPlayers rest s in
              let game := newGame gid now (Some player1) (Some socket)
                            player1Name player2Name false in
              let s1 := setGames (<[gid := game]> (games s0)) s0 in
              let s2 := setGameHistory
                          (<[gid := mkHistory gid [player1Name; player2Name] now [] None None]>
                             (gameHistory s1)) s1 in
              let s3 := joinRoom gid socket (joinRoom gid player1 s2) in
              let s4 := setPlayerGameMap
                          (<[player2Name := gid]>
                             (<[player1Name := gid]> (playerGameMap s3))) s3 in
              Some (s4, [Emit player1 "gameStarted" "black";
                         Emit socket "gameStarted" "white";
                         Broadcast gid "gameUpdate"])
          end
      end
  end.

(** The [getGameState] handler. *)
Definition onGetGameState (s : Server) (socket gameId : string)
    : Server * list Event :=
  if negb (hasUsername s socket) then (s, [usernameRequired socket])
  else match games s !! gameId with
  | None => (s, [Emit socket "gameStateError" "Game not found"])
  | Some game => (s, [Emit socket "gameState" (id game)])
  end.

(** The log invariant: the move count is the length of the log, an
    unfinished game is at the turn of the colour that the length gives, and
    the [k]-th entry (from 0) has number [k + 1], the colour of its turn and
    coordinates on the board. *)
Definition logInvariant (g : Game) : Prop :=
  moveCount g = Z.of_nat (length (moveHistory g)) ∧
  (gameOver g = false → currentPlayer g = colorAt (length (moveHistory g))) ∧
  ∀ k m, moveHistory g !! k = Some m →
    mvNumber m = Z.of_nat k + 1 ∧ mvPlayer m = colorAt k ∧
    inBounds (mvRow m) (mvCol m) = true.

(** Along some axis a window of four cells around the offset 0 passes the
    guard [h] at its three other cells. *)
Definition window4 (h : Z → bool) : bool :=
  existsb (λ k, forallb (λ j, (j =? k) || h (j - k)) [0; 1; 2; 3]) [0; 1; 2; 3].

(** A cell that completes four in a row: some line of four cells through it
    holds the player's stones at its three other cells. *)
Definition threatCell (b : Board) (player : Color) (pos : Pos) : Prop :=
  ∃ d k, d ∈ directions ∧ 0 ≤ k < 4 ∧
    ∀ j, 0 ≤ j < 4 → j ≠ k →
      holds b player (pos.1 + (j - k) * d.1, pos.2 + (j - k) * d.2) = true.

(** The game id that a request carries, for the requests that name a game
    and act for the sender's seat. *)
Definition requestGameId (req : Request) : option string :=
  match req with
  | ReqMakeMove gameId _ _ => Some gameId
  | ReqStartOver gameId => Some gameId
  | ReqNewGame gameId => Some gameId
  | ReqRespondToNewGame gameId _ => Some gameId
  | ReqResetAIGame gameId => Some gameId
  | _ => None
  end.

(** *** The AI's reply *)

(** [handleAIMove(gameId)] up to [await aiPlayer.think()]: whether the
    function goes on to think. *)
Definition handleAIMoveStart (s : Server) (gameId : string) : bool :=
  match games s !! gameId with
  | None => false
  | Some game => isAIGame game && negb (gameOver game)
  end.

(** The colours that [handleAIMove] computes. *)
Definition aiPlayerColor (game : Game) : Color :=
  if bool_decide (player2Name game = "AI Player") then white else black.

Definition humanPlayerColor (game : Game) : Color :=
  if bool_decide (aiPlayerColor game = black) then white else black.

(** [handleAIMove(gameId)] after the thinking time, on the server state of
    that moment.  The function goes on with the [game] object that it read
    before thinking; the result is [None] where that object is no longer in
    [games] (its state is then not part of the server state) and where
    [game.player1] is [null] (the [emit] then throws outside any [try]). *)
Definition handleAIMoveResume (now : Z) (randomIndex : nat) (s : Server)
    (gameId : string) : option (Server * list Event) :=
  match games s !! gameId with
  | None => None
  | Some game =>
      let r := getBestMove randomIndex (board game) (aiPlayerColor game)
                 (humanPlayerColor game) in
      let game1 := setBoard r.1 game in
      match r.2 with
      | None => Some (setGames (<[gameId := game1]> (games s)) s, [])
      | Some aiMove =>
          let m := makeMove now game1 aiMove.1 aiMove.2 (aiPlayerColor game) in
          let s1 := setGames (<[gameId := m.1]> (games s)) s in
          match m.2 with
          | MoveFailed _ => Some (s1, [])
          | MoveOk over win turn =>
              let s2 :=
                match gameHistory s1 !! gameId with
                | Some h =>
                    setGameHistory
                      (<[gameId :=
                          mkHistory (hGameId h) (hPlayers h) (hCreatedAt h)
                            (hMoves h ++ [mkHistoryMove aiMove.1 aiMove.2
                                            (aiPlayerColor game) "AI Player"
                                            now (moveCount m.1)])
                            (hEndedAt h) (hReason h)]> (gameHistory s1)) s1
                | None => s1
                end in
              match player1 m.1 with
              | None => None
              | Some human =>
                  Some (s2, [Emit human "gameUpdate" ""; Emit human "moveConfirmed" ""]
                            ++ (if over then [Emit human "gameEnded" (default "" win)]
                                else []))
              end
          end
      end
  end.

(** *** Transport disconnects and the grace timer *)

(** What the callback that the [disconnect] handler hands to [setTimeout] has
    captured: [socket], [gameId], [otherPlayer], [playerName], and of the
    captured [game] the two names, which nothing assigns after the
    construction. *)
Record GraceTimer := mkGraceTimer {
  gtSocket : string;
  gtGameId : string;
  gtOtherPlayer : option string;
  gtPlayerName : string;
  gtPlayer1Name : string;
  gtPlayer2Name : string
}.

(** The server state and the pending grace timers, by the handle that
    [setTimeout] returned. *)
Record World := mkWorld {
  server : Server;
  timers : gmap Z GraceTimer
}.

(** [game.player1 === socket || game.player2 === socket] *)
Definition seatedIn (socket : string) (game : Game) : bool :=
  bool_decide (player1 game = Some socket) || bool_decide (player2 game = Some socket).

(** The game that [reconnectToGame] updates, when it succeeds. *)
Definition reconnectedGame (s : Server) (socket : string) : option Game :=
  match connectedPlayers s !! socket with
  | None => None
  | Some playerName =>
      match playerGameMap s !! playerName with
      | None => None
      | Some gameId =>
          if falsy gameId then None
          else match games s !! gameId with
          | None => None
          | Some game =>
              if negb (bool_decide (player1Name game = playerName))
                 && negb (bool_decide (player2Name game = playerName))
              then None else Some game
          end
      end
  end.

(** [reconnectToGame] with its [clearTimeout(game.disconnectTimeout)]. *)
Definition onReconnectToGameW (w : World) (socket : string) : World * list Event :=
  let r := onReconnectToGame (server w) socket in
  let pending :=
    match reconnectedGame (server w) socket ≫= disconnectTimeout with
    | Some handle => delete handle (timers w)
    | None => timers w
    end in
  (mkWorld r.1 pending, r.2).

(** The callback of the grace timer with handle [handle], when the timer
    expires; a handle that is not pending (cleared, or already run) runs
    nothing.  The callback marks the captured game as ended by disconnect
    ([markDisconnected]) before it deletes it from [games], which leaves no
    trace in the server state. *)
Definition graceTimerExpires (now : Z) (w : World) (handle : Z) : World * list Event :=
  match timers w !! handle with
  | None => (w, [])
  | Some t =>
      let s := server w in
      let s1 :=
        match connectedPlayers s !! gtSocket t with
        | Some username =>
            let others := delete (gtSocket t) (connectedPlayers s) in
            let usernameStillInUse :=
              bool_decide (username ∈ (map_to_list others).*2) in
            let s' := setConnectedPlayers others s in
            if usernameStillInUse then s'
            else setPlayerNames (playerNames s' ∖ {[username]}) s'
        | None => s
        end in
      let evs :=
        match gtOtherPlayer t with
        | Some other =>
            if bool_decide (other ∈ liveSockets s1)
            then [Emit other "opponentDisconnected" (gtPlayerName t)]
            else []
        | None => []
        end in
      let s2 :=
        match gameHistory s1 !! gtGameId t with
        | Some h =>
            setGameHistory
              (<[gtGameId t :=
                  mkHistory (hGameId h) (hPlayers h) (hCreatedAt h) (hMoves h)
                    (Some now) (Some "Player disconnected (timeout)")]>
                 (gameHistory s1)) s1
        | None => s1
        end in
      let s3 := setPlayerGameMap
                  (delete (gtPlayer2Name t)
                     (delete (gtPlayer1Name t) (playerGameMap s2))) s2 in
      let s4 := setGames (delete (gtGameId t) (games s3)) s3 in
      (mkWorld s4 (delete handle (timers w)), evs)
  end.

Section Disconnect.
(** The handle that [setTimeout] returns for the timer of each game;
    handles are distinct objects. *)
Context (handleOf : string → Z) `{!Inj (=) (=) handleOf}.

(** The [disconnect] handler of [socket], whose [connected] flag the
    transport has cleared. *)
Definition onDisconnect (w : World) (socket : string) : World :=
  let s := server w in
  let playerName :=
    match connectedPlayers s !! socket with
    | Some name => if falsy name then "Unknown" else name
    | None => "Unknown"
    end in
  let votes : gmap string (gset string) :=
    filter (λ kv, kv.2 ≠ ∅) ((λ requests, requests ∖ {[socket]}) <$> startOverRequests s) in
  let mine : gmap string Game :=
    filter (λ kv, seatedIn socket kv.2 = true) (games s) in
  let cleared : gset Z :=
    list_to_set (omap disconnectTimeout (map_to_list mine).*2) in
  let kept : gmap Z GraceTimer := filter (λ kv, kv.1 ∉ cleared) (timers w) in
  let armed : gmap Z GraceTimer :=
    kmap handleOf
      (map_imap
         (λ gameId game,
            Some (mkGraceTimer socket gameId
                    (otherPlayerOf (bool_decide (player1 game = Some socket)) game)
                    playerName (player1Name game) (player2Name game)))
         mine) in
  let games' : gmap string Game :=
    map_imap
      (λ gameId game,
         Some (if seatedIn socket game
               then setDisconnectTimeout (Some (handleOf gameId)) game
               else game))
      (games s) in
  mkWorld
    (setWaitingPlayers (removeFirst socket (waitingPlayers s))
       (setGames games'
          (setStartOverRequests votes
             (setLiveSockets (liveSockets s ∖ {[socket]}) s))))
    (armed ∪ kept).
End Disconnect.

(** A choice of handles for the examples: one handle per game id. *)
Definition demoHandle (gameId : string) : Z := Z.pos (encode gameId).

(** The games that the server holds have all come about from a constructor
    call by the transitions of [sessionStep]. *)
Definition gamesReachable (s : Server) : Prop :=
  ∀ gameId game, games s !! gameId = Some game → reachable game.

(** * Properties *)

(** ** Boards *)

Lemma inBounds_spec row col :
  inBounds row col = true ↔ 0 ≤ row < 19 ∧ 0 ≤ col < 19.
Proof. unfold inBounds. rewrite !andb_true_iff. lia. Qed.

Lemma wfBoard_initializeBoard : wfBoard initializeBoard.
Proof.
  split; [reflexivity|].
  unfold initializeBoard. apply Forall_replicate. reflexivity.
Qed.

Lemma wfBoard_setCell b row col v : wfBoard b → wfBoard (setCell b row col v).
Proof.
  intros [Hlen Hrows]. unfold setCell. destruct (inBounds row col); [|done].
  split; [by rewrite length_alter|].
  apply Forall_alter; [done|]. intros r _ Hr. by rewrite length_insert.
Qed.

(** Inside the bounds a well-formed board has a cell. *)
Lemma cellAt_is_Some b row col :
  wfBoard b → inBounds row col = true → is_Some (cellAt b row col).
Proof.
  intros [Hlen Hrows] [Hr Hc]%inBounds_spec. unfold cellAt.
  replace ((row <? 0) || (col <? 0)) with false by (symmetry; apply orb_false_iff; lia).
  destruct (lookup_lt_is_Some_2 b (Z.to_nat row)) as [r Hrow]; [lia|].
  rewrite Hrow. simpl.
  apply lookup_lt_is_Some_2.
  rewrite Forall_forall in Hrows. rewrite (Hrows r); [lia|].
  by eapply list_elem_of_lookup_2.
Qed.

(** Reading back a cell after a write. *)
Lemma cellAt_setCell b row col v r c :
  wfBoard b → inBounds row col = true →
  cellAt (setCell b row col v) r c =
    if bool_decide ((r, c) = (row, col)) then Some v else cellAt b r c.
Proof.
  intros Hwf Hin. pose proof Hin as [Hr Hc]%inBounds_spec.
  destruct Hwf as [Hlen Hrows].
  unfold setCell. rewrite Hin. unfold cellAt.
  case_bool_decide as Heq.
  - injection Heq as -> ->.
    replace ((row <? 0) || (col <? 0)) with false
      by (symmetry; apply orb_false_iff; lia).
    destruct (lookup_lt_is_Some_2 b (Z.to_nat row)) as [x Hx]; [lia|].
    rewrite list_lookup_alter_eq, Hx. simpl.
    apply list_lookup_insert_eq.
    rewrite Forall_forall in Hrows. rewrite (Hrows x); [lia|].
    by eapply list_elem_of_lookup_2.
  - destruct ((r <? 0) || (c <? 0)) eqn:Hneg; [done|].
    apply orb_false_iff in Hneg as [Hr0 Hc0].
    destruct (decide (Z.to_nat r = Z.to_nat row)) as [Hrr|Hrr].
    + rewrite Hrr, list_lookup_alter_eq.
      destruct (b !! Z.to_nat row) as [x|]; [simpl|done].
      apply list_lookup_insert_ne. intros Hcc. apply Heq. f_equal; lia.
    + by rewrite list_lookup_alter_ne.
Qed.

Lemma holds_spec b player p :
  holds b player p = true ↔
  inBounds p.1 p.2 = true ∧ cellAt b p.1 p.2 = Some (Some player).
Proof.
  unfold holds, cellIs. rewrite andb_true_iff, bool_decide_eq_true. done.
Qed.

(** Writing back what a cell holds leaves the board as it is. *)
Lemma setCell_same b row col v :
  cellAt b row col = Some v → setCell b row col v = b.
Proof.
  unfold setCell, cellAt. destruct (inBounds row col) eqn:Hin; [|done].
  apply inBounds_spec in Hin as [Hr Hc].
  replace ((row <? 0) || (col <? 0)) with false
    by (symmetry; apply orb_false_iff; lia).
  intros H. apply list_eq. intros i.
  destruct (decide (i = Z.to_nat row)) as [->|Hi].
  - rewrite list_lookup_alter_eq.
    destruct (b !! Z.to_nat row) as [x|]; [simpl in *|done].
    f_equal. by apply list_insert_id.
  - by rewrite list_lookup_alter_ne.
Qed.

(** A stone written and taken away again. *)
Lemma setCell_setCell b row col v w :
  setCell (setCell b row col v) row col w = setCell b row col w.
Proof.
  unfold setCell. destruct (inBounds row col); [|done].
  apply list_eq. intros i.
  destruct (decide (i = Z.to_nat row)) as [->|Hi].
  - rewrite !list_lookup_alter_eq. destruct (b !! Z.to_nat row) as [x|]; [simpl|done].
    f_equal. apply list_insert_insert_eq.
  - by rewrite !list_lookup_alter_ne.
Qed.

(** ** The scanning loops *)

Lemma runLength_ext f g idxs :
  (∀ i, f i = g i) → runLength f idxs = runLength g idxs.
Proof. intros Hfg. induction idxs as [|i rest IH]; simpl; [done|]. by rewrite Hfg, IH. Qed.

Lemma runLength_le ok idxs : (runLength ok idxs ≤ length idxs)%nat.
Proof. induction idxs as [|i rest IH]; simpl; [lia|]. destruct (ok i); lia. Qed.

Lemma runLength_take ok idxs i :
  i ∈ take (runLength ok idxs) idxs → ok i = true.
Proof.
  induction idxs as [|j rest IH]; simpl; [by intros ?%elem_of_nil|].
  destruct (ok j) eqn:Hj; simpl; [|by intros ?%elem_of_nil].
  intros [->|Hin]%elem_of_cons; auto.
Qed.

(** The index at which a run stops short of the end fails the guard. *)
Lemma runLength_stop ok idxs i :
  idxs !! runLength ok idxs = Some i → ok i = false.
Proof.
  induction idxs as [|j rest IH]; simpl; [done|].
  destruct (ok j) eqn:Hj; simpl; [done|]. by intros [= <-].
Qed.

(** A scanning loop adds the length of the run to the count and the cells of
    the run, in the order met, to the stones. *)
Lemma scanLoop_spec b player cellOf add idxs st :
  let n := runLength (λ i, holds b player (cellOf i)) idxs in
  scanLoop b player cellOf add idxs st =
    (st.1 + Z.of_nat n, foldl (λ l i, add (cellOf i) l) st.2 (take n idxs)).
Proof.
  revert st. induction idxs as [|i rest IH]; intros [c l]; simpl.
  - f_equal. lia.
  - destruct (holds b player (cellOf i)); simpl.
    + rewrite IH. simpl. f_equal. lia.
    + f_equal. lia.
Qed.

Lemma countLoop_spec b player cellOf idxs count :
  countLoop b player cellOf idxs count =
    count + Z.of_nat (runLength (λ i, holds b player (cellOf i)) idxs).
Proof.
  revert count. induction idxs as [|i rest IH]; intros c; simpl; [lia|].
  destruct (holds b player (cellOf i)); [rewrite IH|]; lia.
Qed.

Lemma checkWinDir_count b row col player d :
  (checkWinDir b row col player d).1 =
    1 + Z.of_nat (runLength (along b player row col d) [1; 2; 3; 4])
      + Z.of_nat (runLength (λ i, along b player row col d (- i)) [1; 2; 3; 4]).
Proof.
  destruct d as [dx dy]. unfold checkWinDir. rewrite !scanLoop_spec. cbn [fst].
  f_equal. f_equal. apply runLength_ext. intros i. unfold along. cbn [fst snd].
  f_equal. f_equal; lia.
Qed.

Lemma countDir_count b row col player idxs d :
  countDir b row col player idxs d =
    1 + Z.of_nat (runLength (along b player row col d) idxs)
      + Z.of_nat (runLength (λ i, along b player row col d (- i)) idxs).
Proof.
  destruct d as [dx dy]. unfold countDir. rewrite !countLoop_spec.
  f_equal. f_equal. apply runLength_ext. intros i. unfold along. cbn [fst snd].
  f_equal. f_equal; lia.
Qed.

(** The AI player's win test computes the same count as [checkWin]. *)
Lemma countDir_checkWinDir b row col player d :
  countDir b row col player [1; 2; 3; 4] d = (checkWinDir b row col player d).1.
Proof. by rewrite countDir_count, checkWinDir_count. Qed.

Lemma won_checkWinFrom b row col player dirs :
  won (checkWinFrom b row col player dirs) =
    existsb (λ d, 5 <=? (checkWinDir b row col player d).1) dirs.
Proof.
  induction dirs as [|d rest IH]; simpl; [done|].
  destruct (5 <=? (checkWinDir b row col player d).1); simpl; [done|apply IH].
Qed.

Lemma checkWinAtPosition_checkWin b row col player :
  checkWinAtPosition b row col player = won (checkWin b row col player).
Proof.
  unfold checkWinAtPosition, checkWin. rewrite won_checkWinFrom.
  unfold directions. cbn [existsb]. by rewrite !countDir_checkWinDir.
Qed.

(** The count of an axis reaches five exactly when a window of five cells
    around the pivot passes the guard: 256 cases of the eight neighbours. *)
Lemma count_window5 (h : Z → bool) :
  h 0 = true →
  (5 <=? 1 + Z.of_nat (runLength h [1; 2; 3; 4])
           + Z.of_nat (runLength (λ i, h (- i)) [1; 2; 3; 4]))
  = window5 h.
Proof.
  intros H0. unfold window5. cbn [existsb forallb runLength].
  repeat match goal with
         | |- context [h ?e] =>
             progress (let v := eval vm_compute in e in change e with v)
         end.
  rewrite H0.
  destruct (h 1), (h 2), (h 3), (h 4), (h (-1)), (h (-2)), (h (-3)), (h (-4));
    reflexivity.
Qed.

Lemma elem_of_0_to_4 (k : Z) : k ∈ [0; 1; 2; 3; 4] ↔ 0 ≤ k < 5.
Proof. rewrite !elem_of_cons, elem_of_nil. lia. Qed.

Lemma window5_spec (h : Z → bool) :
  window5 h = true ↔ ∃ k, 0 ≤ k < 5 ∧ ∀ j, 0 ≤ j < 5 → h (j - k) = true.
Proof.
  unfold window5. rewrite existsb_exists. split.
  - intros (k & Hk & Hall). exists k.
    apply list_elem_of_In, elem_of_0_to_4 in Hk. split; [done|].
    intros j Hj. rewrite forallb_forall in Hall. apply Hall.
    by apply list_elem_of_In, elem_of_0_to_4.
  - intros (k & Hk & Hall). exists k. split.
    + by apply list_elem_of_In, elem_of_0_to_4.
    + apply forallb_forall. intros j Hj%list_elem_of_In%elem_of_0_to_4. auto.
Qed.

Lemma along_0 b player row col d :
  along b player row col d 0 = holds b player (row, col).
Proof. unfold along. f_equal. f_equal; lia. Qed.

(** [checkWin] in terms of windows, for a pivot that holds the colour. *)
Lemma checkWin_window b row col player :
  holds b player (row, col) = true →
  won (checkWin b row col player) =
    existsb (λ d, window5 (along b player row col d)) directions.
Proof.
  intros Hp. unfold checkWin. rewrite won_checkWinFrom.
  unfold directions. cbn [existsb].
  rewrite !checkWinDir_count, !count_window5; auto using along_0.
  all: by rewrite along_0.
Qed.

(** ** The brute-force scan *)

Lemma elem_of_lineFrom p d r0 c0 :
  p ∈ lineFrom d r0 c0 ↔ ∃ j, 0 ≤ j < 5 ∧ p = (r0 + j * d.1, c0 + j * d.2).
Proof.
  unfold lineFrom. rewrite list_elem_of_fmap. split.
  - intros (j & -> & Hj%elem_of_seqZ). exists j. split; [lia|done].
  - intros (j & Hj & ->). exists j. split; [done|]. apply elem_of_seqZ. lia.
Qed.

Lemma elem_of_allLines line :
  line ∈ allLines ↔
  ∃ d r0 c0, d ∈ directions ∧ 0 ≤ r0 < 19 ∧ 0 ≤ c0 < 19 ∧ line = lineFrom d r0 c0.
Proof.
  unfold allLines. rewrite list_elem_of_bind. split.
  - intros (d & (r0 & (c0 & ->%list_elem_of_singleton & Hc%elem_of_seqZ)%list_elem_of_bind
                    & Hr%elem_of_seqZ)%list_elem_of_bind & Hd).
    exists d, r0, c0. repeat split; try done; lia.
  - intros (d & r0 & c0 & Hd & Hr & Hc & ->). exists d. split; [|done].
    apply list_elem_of_bind. exists r0. split; [|apply elem_of_seqZ; lia].
    apply list_elem_of_bind. exists c0. split; [|apply elem_of_seqZ; lia].
    by apply list_elem_of_singleton.
Qed.

Lemma forallb_lineFrom b player d r0 c0 :
  forallb (holds b player) (lineFrom d r0 c0) = true ↔
  ∀ j, 0 ≤ j < 5 → holds b player (r0 + j * d.1, c0 + j * d.2) = true.
Proof.
  rewrite forallb_forall. split.
  - intros H j Hj. apply H, list_elem_of_In, elem_of_lineFrom. eauto.
  - intros H p (j & Hj & ->)%list_elem_of_In%elem_of_lineFrom. auto.
Qed.

(** The brute-force scan finds a line exactly when some axis has a window of
    five around the cell. *)
Lemma bruteForceWin_window b row col player :
  bruteForceWin b row col player =
    existsb (λ d, window5 (along b player row col d)) directions.
Proof.
  apply eq_true_iff_eq. unfold bruteForceWin.
  rewrite !existsb_exists. split.
  - intros (line & Hline%list_elem_of_In%elem_of_allLines & Hl%andb_true_iff).
    destruct Hline as (d & r0 & c0 & Hd & Hr & Hc & ->).
    destruct Hl as [Hpivot%bool_decide_eq_true%elem_of_lineFrom Hall].
    destruct Hpivot as (k & Hk & Heq). injection Heq as -> ->.
    exists d. split; [by apply list_elem_of_In|].
    apply window5_spec. exists k. split; [done|]. intros j Hj.
    rewrite forallb_lineFrom in Hall. specialize (Hall j Hj).
    unfold along. rewrite <- Hall. f_equal. f_equal; lia.
  - intros (d & Hd%list_elem_of_In & (k & Hk & Hall)%window5_spec).
    exists (lineFrom d (row - k * d.1) (col - k * d.2)). split.
    + apply list_elem_of_In, elem_of_allLines.
      exists d, (row - k * d.1), (col - k * d.2).
      assert (H0 : 0 ≤ 0 < 5) by lia. apply Hall in H0.
      unfold along in H0. apply holds_spec in H0 as [[Hr Hc]%inBounds_spec _].
      cbn [fst snd] in Hr, Hc. repeat split; try done; lia.
    + apply andb_true_iff. split.
      * apply bool_decide_eq_true, elem_of_lineFrom. exists k.
        split; [done|]. f_equal; lia.
      * apply forallb_lineFrom. intros j Hj. rewrite <- (Hall j Hj).
        unfold along. f_equal. f_equal; lia.
Qed.

(** ** C1: win detection agrees with the brute-force scan *)

Lemma holds_setCell_pivot b row col player :
  wfBoard b → inBounds row col = true →
  holds (setCell b row col (Some player)) player (row, col) = true.
Proof.
  intros Hwf Hin. apply holds_spec. split; [done|]. cbn [fst snd].
  rewrite cellAt_setCell by done. by rewrite bool_decide_eq_true_2.
Qed.

(** A run of stones through the pivot, from offset [lo] to offset [hi] and at
    least five long, contains a window of five around the pivot. *)
Lemma long_run_window5 (h : Z → bool) lo hi :
  lo ≤ 0 ≤ hi → 5 ≤ hi - lo + 1 →
  (∀ i, lo ≤ i ≤ hi → h i = true) → window5 h = true.
Proof.
  intros Hlohi Hlen Hrun. apply window5_spec.
  exists (Z.min (- lo) 4). split; [lia|]. intros j Hj. apply Hrun. lia.
Qed.

(** C1.  For every well-formed board, every cell of the board and every
    colour, [checkWin] called after the colour's stone was placed at the cell
    reports a win exactly when the brute-force scan of all 4 x 19 x 19 lines
    of five cells finds one that contains the cell and holds five stones of
    the colour inside the board.  In particular a run through the placed
    stone of any length of at least five, inside the board, is a win. *)
Theorem checkWin_agrees_with_brute_force b row col player :
  wfBoard b → inBounds row col = true →
  let b' := setCell b row col (Some player) in
  won (checkWin b' row col player) = bruteForceWin b' row col player ∧
  (∀ d lo hi, d ∈ directions → lo ≤ 0 ≤ hi → 5 ≤ hi - lo + 1 →
     (∀ i, lo ≤ i ≤ hi → holds b' player (row + i * d.1, col + i * d.2) = true) →
     won (checkWin b' row col player) = true).
Proof.
  intros Hwf Hin b'.
  assert (Hp : holds b' player (row, col) = true) by by apply holds_setCell_pivot.
  split.
  - by rewrite checkWin_window, bruteForceWin_window.
  - intros d lo hi Hd Hlohi Hlen Hrun. rewrite checkWin_window by done.
    apply existsb_exists. exists d. split; [by apply list_elem_of_In|].
    by apply (long_run_window5 _ lo hi).
Qed.

Lemma checkWin_agrees_with_brute_force_witness :
  let b' := setCell initializeBoard 0 18 (Some black) in
  won (checkWin b' 0 18 black) = bruteForceWin b' 0 18 black ∧
  (∀ d lo hi, d ∈ directions → lo ≤ 0 ≤ hi → 5 ≤ hi - lo + 1 →
     (∀ i, lo ≤ i ≤ hi → holds b' black (0 + i * d.1, 18 + i * d.2) = true) →
     won (checkWin b' 0 18 black) = true).
Proof.
  apply (checkWin_agrees_with_brute_force initializeBoard 0 18 black).
  - apply wfBoard_initializeBoard.
  - reflexivity.
Defined.

(** Runs at the right edge and a row of nine.  Four stones ending at column
    18 do not win; the fifth at (9,14) wins with the five cells up to the
    edge; a stone in the middle of two fours returns all nine. *)
Example checkWin_edge_and_long_runs :
  let row9 cols := foldl (λ b c, setCell b 9 c (Some black)) initializeBoard cols in
  won (checkWin (row9 [15; 16; 17; 18]) 9 18 black) = false ∧
  checkWin (row9 [15; 16; 17; 18; 14]) 9 14 black
    = Won [(9, 14); (9, 15); (9, 16); (9, 17); (9, 18)] ∧
  checkWin (row9 [0; 1; 2; 3; 4]) 9 0 black
    = Won [(9, 0); (9, 1); (9, 2); (9, 3); (9, 4)] ∧
  checkWin (row9 [1; 2; 3; 4; 6; 7; 8; 9; 5]) 9 5 black
    = Won [(9, 1); (9, 2); (9, 3); (9, 4); (9, 5); (9, 6); (9, 7); (9, 8); (9, 9)] ∧
  bruteForceWin (row9 [15; 16; 17; 18]) 9 18 black = false ∧
  bruteForceWin (row9 [1; 2; 3; 4; 6; 7; 8; 9; 5]) 9 5 black = true.
Proof. vm_compute. repeat split. Qed.

(** ** C2: the winning stones *)

Lemma foldl_push (cellOf : Z → Pos) idxs l :
  foldl (λ l i, push (cellOf i) l) l idxs = l ++ (cellOf <$> idxs).
Proof.
  revert l. induction idxs as [|i rest IH]; intros l; simpl.
  - by rewrite app_nil_r.
  - rewrite IH. unfold push. by rewrite <- app_assoc.
Qed.

Lemma foldl_unshift (cellOf : Z → Pos) idxs l :
  foldl (λ l i, unshift (cellOf i) l) l idxs = reverse (cellOf <$> idxs) ++ l.
Proof.
  revert l. induction idxs as [|i rest IH]; intros l; simpl; [done|].
  rewrite IH. unfold unshift. rewrite reverse_cons, <- app_assoc. done.
Qed.

(** The offsets of a run of [m] cells before the pivot and [n] after it are
    consecutive. *)
Lemma run_offsets (m n : nat) :
  (m ≤ 4)%nat → (n ≤ 4)%nat →
  reverse (Z.opp <$> take m [1; 2; 3; 4]) ++ [0] ++ take n [1; 2; 3; 4] =
    seqZ (- Z.of_nat m) (Z.of_nat m + 1 + Z.of_nat n).
Proof.
  intros Hm Hn.
  destruct m as [|[|[|[|[|m]]]]]; [..|lia];
    (destruct n as [|[|[|[|[|n]]]]]; [..|lia]); reflexivity.
Qed.

(** The stones collected along one axis, as a function of the two runs. *)
Lemma checkWinDir_stones b row col player d :
  let m := runLength (λ i, along b player row col d (- i)) [1; 2; 3; 4] in
  let n := runLength (along b player row col d) [1; 2; 3; 4] in
  (checkWinDir b row col player d).2 =
    (λ i, (row + i * d.1, col + i * d.2)) <$>
      seqZ (- Z.of_nat m) (Z.of_nat m + 1 + Z.of_nat n).
Proof.
  intros m n. rewrite <- run_offsets by apply (runLength_le _ [1; 2; 3; 4]).
  destruct d as [dx dy]. unfold checkWinDir. rewrite !scanLoop_spec. cbn [fst snd].
  rewrite foldl_unshift, foldl_push.
  rewrite !fmap_app, fmap_reverse, <- list_fmap_compose. cbn [fmap list_fmap].
  assert (Hm : runLength (λ i, holds b player (row - i * dx, col - i * dy)) [1; 2; 3; 4] = m).
  { apply runLength_ext. intros i. unfold along. cbn [fst snd]. f_equal. f_equal; lia. }
  rewrite Hm. f_equal.
  - f_equal. apply list_fmap_ext. intros _ i _. simpl. f_equal; lia.
  - cbn [app]. f_equal. f_equal; lia.
Qed.

Lemma checkWinFrom_Won b row col player dirs stones :
  checkWinFrom b row col player dirs = Won stones →
  ∃ d, d ∈ dirs ∧ 5 ≤ (checkWinDir b row col player d).1 ∧
       stones = (checkWinDir b row col player d).2.
Proof.
  induction dirs as [|d rest IH]; simpl; [done|].
  destruct (5 <=? (checkWinDir b row col player d).1) eqn:H5.
  - intros [= <-]. exists d. split; [by left|]. split; [lia|done].
  - intros (d' & Hd' & H)%IH. exists d'. split; [by right|done].
Qed.

(** C2, as the code has it.  The stones returned with a win are between five
    and nine cells, listed in board order along the winning axis: consecutive
    cells in the direction of the axis; they contain the placed cell and each
    holds the colour.  They are the whole run through the placed stone within
    four steps of it: on either side the list stops at the fourth cell, or
    the next cell of the axis does not hold the colour. *)
Theorem winningStones_board_order b row col player stones :
  wfBoard b → inBounds row col = true →
  let b' := setCell b row col (Some player) in
  checkWin b' row col player = Won stones →
  ∃ d m n, d ∈ directions ∧ 0 ≤ m ≤ 4 ∧ 0 ≤ n ≤ 4 ∧
    stones = (λ i, (row + i * d.1, col + i * d.2)) <$> seqZ (- m) (m + 1 + n) ∧
    (5 ≤ length stones ≤ 9)%nat ∧
    (row, col) ∈ stones ∧
    (∀ p, p ∈ stones → holds b' player p = true) ∧
    (m < 4 → holds b' player (row - (m + 1) * d.1, col - (m + 1) * d.2) = false) ∧
    (n < 4 → holds b' player (row + (n + 1) * d.1, col + (n + 1) * d.2) = false).
Proof.
  intros Hwf Hin b' (d & Hd & H5 & ->)%checkWinFrom_Won.
  pose proof (holds_setCell_pivot b row col player Hwf Hin) as Hp. fold b' in Hp.
  rewrite checkWinDir_count in H5. rewrite checkWinDir_stones.
  set (m := runLength (λ i, along b' player row col d (- i)) [1; 2; 3; 4]) in *.
  set (n := runLength (along b' player row col d) [1; 2; 3; 4]) in *.
  assert (Hm : (m ≤ 4)%nat) by apply (runLength_le _ [1; 2; 3; 4]).
  assert (Hn : (n ≤ 4)%nat) by apply (runLength_le _ [1; 2; 3; 4]).
  exists d, (Z.of_nat m), (Z.of_nat n).
  split; [done|]. split; [lia|]. split; [lia|]. split; [done|].
  split; [rewrite length_fmap, length_seqZ; lia|].
  assert (Hnext : ∀ k : nat, (k < 4)%nat → [1; 2; 3; 4] !! k = Some (Z.of_nat k + 1)).
  { intros k Hk. destruct k as [|[|[|[|k]]]]; [done..|lia]. }
  split; [|split; [|split]].
  - apply list_elem_of_fmap. exists 0. split; [f_equal; lia|].
    apply elem_of_seqZ. lia.
  - intros p (i & -> & Hi)%list_elem_of_fmap.
    rewrite <- run_offsets in Hi by done.
    apply elem_of_app in Hi as [Hi|Hi]; [|apply elem_of_app in Hi as [Hi|Hi]].
    + apply elem_of_reverse, list_elem_of_fmap in Hi as (j & -> & Hj).
      by apply (runLength_take (λ i, along b' player row col d (- i))) in Hj.
    + apply list_elem_of_singleton in Hi as ->.
      by rewrite <- (along_0 _ _ _ _ d) in Hp.
    + by apply (runLength_take (along b' player row col d)) in Hi.
  - intros Hlt.
    pose proof (runLength_stop (λ i, along b' player row col d (- i)) [1; 2; 3; 4]
                  (Z.of_nat m + 1)) as Hstop.
    fold m in Hstop. unfold along in Hstop. cbn [fst snd] in Hstop.
    rewrite <- Hstop by (apply Hnext; lia). do 2 f_equal; lia.
  - intros Hlt.
    pose proof (runLength_stop (along b' player row col d) [1; 2; 3; 4]
                  (Z.of_nat n + 1)) as Hstop.
    fold n in Hstop. unfold along in Hstop. cbn [fst snd] in Hstop.
    by rewrite <- Hstop by (apply Hnext; lia).
Qed.

Lemma winningStones_board_order_witness :
  ∃ d m n, d ∈ directions ∧ 0 ≤ m ≤ 4 ∧ 0 ≤ n ≤ 4 ∧
    [(9, 5); (9, 6); (9, 7); (9, 8); (9, 9); (9, 10)] =
      (λ i, (9 + i * d.1, 8 + i * d.2)) <$> seqZ (- m) (m + 1 + n) ∧
    (5 ≤ length [(9, 5); (9, 6); (9, 7); (9, 8); (9, 9); (9, 10)] ≤ 9)%nat ∧
    (9, 8) ∈ [(9, 5); (9, 6); (9, 7); (9, 8); (9, 9); (9, 10)] ∧
    (∀ p, p ∈ [(9, 5); (9, 6); (9, 7); (9, 8); (9, 9); (9, 10)] →
      holds (setCell
               (board (playAll 0 freshGame
                         [(9, 5, black); (0, 0, white); (9, 6, black); (0, 2, white);
                          (9, 7, black); (0, 4, white); (9, 9, black); (0, 6, white);
                          (9, 10, black); (0, 8, white)]))
               9 8 (Some black)) black p = true) ∧
    (m < 4 →
      holds (setCell
               (board (playAll 0 freshGame
                         [(9, 5, black); (0, 0, white); (9, 6, black); (0, 2, white);
                          (9, 7, black); (0, 4, white); (9, 9, black); (0, 6, white);
                          (9, 10, black); (0, 8, white)]))
               9 8 (Some black)) black (9 - (m + 1) * d.1, 8 - (m + 1) * d.2) = false) ∧
    (n < 4 →
      holds (setCell
               (board (playAll 0 freshGame
                         [(9, 5, black); (0, 0, white); (9, 6, black); (0, 2, white);
                          (9, 7, black); (0, 4, white); (9, 9, black); (0, 6, white);
                          (9, 10, black); (0, 8, white)]))
               9 8 (Some black)) black (9 + (n + 1) * d.1, 8 + (n + 1) * d.2) = false).
Proof.
  apply (winningStones_board_order
           (board (playAll 0 freshGame
                     [(9, 5, black); (0, 0, white); (9, 6, black); (0, 2, white);
                      (9, 7, black); (0, 4, white); (9, 9, black); (0, 6, white);
                      (9, 10, black); (0, 8, white)]))
           9 8 black).
  - split; [reflexivity|]. vm_compute. repeat constructor.
  - reflexivity.
  - vm_compute. reflexivity.
Defined.

(** C2 as stated fails: in a game played from the start, black holds
    (9,5) (9,6) (9,7) (9,9) (9,10) and completes the row at (9,8); the move
    wins and the stones returned are six. *)
Lemma winningStones_not_five :
  let g := playAll 0 freshGame
             [(9, 5, black); (0, 0, white); (9, 6, black); (0, 2, white);
              (9, 7, black); (0, 4, white); (9, 9, black); (0, 6, white);
              (9, 10, black); (0, 8, white)] in
  gameOver g = false ∧ moveCount g = 10 ∧
  (makeMove 0 g 9 8 black).2 = MoveOk true (Some "black") black ∧
  checkWin (board (makeMove 0 g 9 8 black).1) 9 8 black
    = Won [(9, 5); (9, 6); (9, 7); (9, 8); (9, 9); (9, 10)] ∧
  length [(9, 5); (9, 6); (9, 7); (9, 8); (9, 9); (9, 10)] ≠ 5%nat.
Proof. vm_compute. repeat split; discriminate. Qed.

(** ** C3: move legality *)

(** C3.  On a game with a well-formed board, [isValidMove] accepts a move
    exactly when the coordinates are in [0, 19), the cell is empty, the
    colour is the one to move and the game is not over; otherwise the reason
    is that of the first of these conditions that fails, in this order. *)
Theorem isValidMove_spec g row col player :
  wfBoard (board g) →
  (isValidMove g row col player = Valid ↔
     (0 ≤ row < 19 ∧ 0 ≤ col < 19) ∧
     cellAt (board g) row col = Some None ∧
     player = currentPlayer g ∧
     gameOver g = false) ∧
  (¬ (0 ≤ row < 19 ∧ 0 ≤ col < 19) →
     isValidMove g row col player = Invalid "Move out of bounds") ∧
  (0 ≤ row < 19 ∧ 0 ≤ col < 19 →
     cellAt (board g) row col ≠ Some None →
     isValidMove g row col player = Invalid "Position already occupied") ∧
  (0 ≤ row < 19 ∧ 0 ≤ col < 19 →
     cellAt (board g) row col = Some None →
     player ≠ currentPlayer g →
     isValidMove g row col player = Invalid "Not your turn") ∧
  (0 ≤ row < 19 ∧ 0 ≤ col < 19 →
     cellAt (board g) row col = Some None →
     player = currentPlayer g →
     gameOver g = true →
     isValidMove g row col player = Invalid "Game is over").
Proof.
  intros _. unfold isValidMove, cellEmpty.
  destruct ((row <? 0) || (row >=? 19) || (col <? 0) || (col >=? 19)) eqn:Hb.
  - assert (¬ (0 ≤ row < 19 ∧ 0 ≤ col < 19)).
    { rewrite !orb_true_iff in Hb. lia. }
    repeat split; intros; intuition congruence.
  - assert (0 ≤ row < 19 ∧ 0 ≤ col < 19).
    { rewrite !orb_false_iff in Hb. lia. }
    case_bool_decide as Hcell; simpl;
      [|repeat split; intros; intuition congruence].
    case_bool_decide as Hturn; simpl;
      [|repeat split; intros; intuition congruence].
    destruct (gameOver g) eqn:Hover; repeat split; intros; intuition congruence.
Qed.

Lemma isValidMove_spec_witness :
  (isValidMove freshGame 9 9 black = Valid ↔
     (0 ≤ 9 < 19 ∧ 0 ≤ 9 < 19) ∧
     cellAt (board freshGame) 9 9 = Some None ∧
     black = currentPlayer freshGame ∧
     gameOver freshGame = false) ∧
  (¬ (0 ≤ 9 < 19 ∧ 0 ≤ 9 < 19) →
     isValidMove freshGame 9 9 black = Invalid "Move out of bounds") ∧
  (0 ≤ 9 < 19 ∧ 0 ≤ 9 < 19 →
     cellAt (board freshGame) 9 9 ≠ Some None →
     isValidMove freshGame 9 9 black = Invalid "Position already occupied") ∧
  (0 ≤ 9 < 19 ∧ 0 ≤ 9 < 19 →
     cellAt (board freshGame) 9 9 = Some None →
     black ≠ currentPlayer freshGame →
     isValidMove freshGame 9 9 black = Invalid "Not your turn") ∧
  (0 ≤ 9 < 19 ∧ 0 ≤ 9 < 19 →
     cellAt (board freshGame) 9 9 = Some None →
     black = currentPlayer freshGame →
     gameOver freshGame = true →
     isValidMove freshGame 9 9 black = Invalid "Game is over").
Proof.
  apply (isValidMove_spec freshGame 9 9 black).
  apply wfBoard_initializeBoard.
Defined.

(** The four rejections on concrete games. *)
Example isValidMove_reasons :
  let g1 := (makeMove 0 freshGame 9 9 black).1 in
  isValidMove freshGame 19 0 black = Invalid "Move out of bounds" ∧
  isValidMove freshGame 0 (-1) black = Invalid "Move out of bounds" ∧
  isValidMove g1 9 9 white = Invalid "Position already occupied" ∧
  isValidMove g1 9 10 black = Invalid "Not your turn" ∧
  isValidMove (setGameOver true g1) 9 10 white = Invalid "Game is over" ∧
  isValidMove g1 9 10 white = Valid.
Proof. vm_compute. repeat split. Qed.

(** ** C4: a rejected move changes nothing *)

Lemma makeMove_failed now g row col player reason :
  (makeMove now g row col player).2 = MoveFailed reason →
  isValidMove g row col player = Invalid reason ∧
  (makeMove now g row col player).1 = g.
Proof.
  unfold makeMove. destruct (isValidMove g row col player); simpl; [done|].
  by intros [= ->].
Qed.

(** A socket in one of the two seats passes the participant test of the
    handlers. *)
Lemma participant_guard game socket :
  player1 game = Some socket ∨ player2 game = Some socket →
  negb (bool_decide (player1 game = Some socket))
  && negb (bool_decide (player2 game = Some socket)) = false.
Proof.
  intros [H1|H2].
  - by rewrite (bool_decide_eq_true_2 _ H1).
  - rewrite (bool_decide_eq_true_2 _ H2). apply andb_false_r.
Qed.

Lemma setGames_same s gameId game :
  games s !! gameId = Some game → setGames (<[gameId := game]> (games s)) s = s.
Proof. intros H. rewrite insert_id by done. by destruct s. Qed.

(** C4.  When [makeMove] returns a failure the game object is what it was:
    board, move count, turn, move log, [gameOver] and [winner] (and every
    other field).  The [makeMove] handler then leaves the whole server state
    as it was and answers with the reason. *)
Theorem makeMove_failure_unchanged now g row col player reason :
  (makeMove now g row col player).2 = MoveFailed reason →
  (makeMove now g row col player).1 = g ∧
  ∀ s socket gameId,
    hasUsername s socket = true → falsy gameId = false →
    games s !! gameId = Some g →
    (player = black ∧ player1 g = Some socket ∨
     player = white ∧ player1 g ≠ Some socket ∧ player2 g = Some socket) →
    onMakeMove now s socket gameId row col = (s, [Emit socket "moveError" reason]).
Proof.
  intros Hfail. pose proof Hfail as [Hinv Hsame]%makeMove_failed.
  split; [done|]. intros s socket gameId Hname Hgid Hgame Hseat.
  unfold onMakeMove. rewrite Hname, Hgid. simpl.
  destruct ((row <? 0) || (row >=? 19) || (col <? 0) || (col >=? 19)) eqn:Hb.
  { unfold isValidMove in Hinv. rewrite Hb in Hinv. by injection Hinv as <-. }
  rewrite Hgame.
  assert (Hpl : (if bool_decide (player1 g = Some socket) then black else white) = player).
  { destruct Hseat as [[-> H1]|(-> & H1 & H2)].
    - by rewrite bool_decide_eq_true_2.
    - by rewrite bool_decide_eq_false_2. }
  assert (Hpart : negb (bool_decide (player1 g = Some socket))
                  && negb (bool_decide (player2 g = Some socket)) = false).
  { apply participant_guard. tauto. }
  rewrite Hpart, Hpl, Hfail, Hsame. by rewrite setGames_same.
Qed.

Lemma makeMove_failure_unchanged_witness :
  (makeMove 5 freshGame 9 9 white).1 = freshGame ∧
  ∀ s socket gameId,
    hasUsername s socket = true → falsy gameId = false →
    games s !! gameId = Some freshGame →
    (white = black ∧ player1 freshGame = Some socket ∨
     white = white ∧ player1 freshGame ≠ Some socket ∧ player2 freshGame = Some socket) →
    onMakeMove 5 s socket gameId 9 9 = (s, [Emit socket "moveError" "Not your turn"]).
Proof.
  apply (makeMove_failure_unchanged 5 freshGame 9 9 white "Not your turn").
  reflexivity.
Defined.

(** ** C5: no double move *)

Lemma isValidMove_over g row col player :
  gameOver g = true → isValidMove g row col player ≠ Valid.
Proof.
  intros Hover. unfold isValidMove. rewrite Hover.
  repeat case_match; done.
Qed.

Lemma isValidMove_turn g row col player :
  isValidMove g row col player = Valid →
  currentPlayer g = player ∧ gameOver g = false.
Proof.
  unfold isValidMove. repeat case_match; try done.
  intros _. split; [|done].
  match goal with H : negb (bool_decide (currentPlayer g = player)) = false |- _ =>
    apply negb_false_iff, bool_decide_eq_true in H end. done.
Qed.

Lemma makeMove_not_valid now g row col player :
  isValidMove g row col player ≠ Valid →
  success (makeMove now g row col player).2 = false.
Proof. unfold makeMove. by destruct (isValidMove g row col player). Qed.

(** C5.  After a successful move that does not end the game the turn is the
    other colour's, and a second move by the same colour is rejected; after a
    successful move that ends the game every move is rejected. *)
Theorem no_double_move now g row col player over win turn :
  (makeMove now g row col player).2 = MoveOk over win turn →
  let g' := (makeMove now g row col player).1 in
  (gameOver g' = false →
     currentPlayer g' = otherColor player ∧
     ∀ now' row' col', success (makeMove now' g' row' col' player).2 = false) ∧
  (gameOver g' = true →
     ∀ now' row' col' player', success (makeMove now' g' row' col' player').2 = false).
Proof.
  intros Hok g'. split.
  - intros Hnot.
    assert (Hturn : currentPlayer g' = otherColor player).
    { subst g'. revert Hok Hnot. unfold makeMove.
      destruct (isValidMove g row col player) eqn:Hv; [|done].
      apply isValidMove_turn in Hv as [Hcur _]. simpl.
      repeat case_match; simpl; try done. by rewrite Hcur. }
    split; [done|]. intros now' row' col'. apply makeMove_not_valid.
    intros [Hcur _]%isValidMove_turn. rewrite Hturn in Hcur. by destruct player.
  - intros Hover now' row' col' player'.
    by apply makeMove_not_valid, isValidMove_over.
Qed.

Lemma no_double_move_witness :
  let g' := (makeMove 1 freshGame 9 9 black).1 in
  (gameOver g' = false →
     currentPlayer g' = otherColor black ∧
     ∀ now' row' col', success (makeMove now' g' row' col' black).2 = false) ∧
  (gameOver g' = true →
     ∀ now' row' col' player', success (makeMove now' g' row' col' player').2 = false).
Proof.
  apply (no_double_move 1 freshGame 9 9 black false None white).
  reflexivity.
Defined.

(** ** C7: the values of the outcome *)

Lemma winner_makeMove now g row col player :
  winner (makeMove now g row col player).1 = winner g ∨
  winner (makeMove now g row col player).1 = Some (colorName player) ∨
  winner (makeMove now g row col player).1 = Some "draw".
Proof.
  unfold makeMove. destruct (isValidMove g row col player); simpl; [|by left].
  repeat case_match; simpl; auto.
Qed.

Lemma winner_step g g' :
  sessionStep g g' → winner g ∈ winnerValues → winner g' ∈ winnerValues.
Proof.
  unfold winnerValues. intros Hstep Hin. destruct Hstep; simpl; try done.
  - destruct (winner_makeMove now g row col player) as [->|[->| ->]]; [done|..].
    + destruct player; simpl; rewrite !elem_of_cons; auto.
    + rewrite !elem_of_cons; auto 10.
  - rewrite !elem_of_cons; auto.
  - rewrite !elem_of_cons; auto 10.
Qed.

Lemma outcomeOf_winnerValues w : w ∈ winnerValues → is_Some (outcomeOf w).
Proof.
  unfold winnerValues. rewrite !elem_of_cons, elem_of_nil.
  intros [->|[->|[->|[->|[->|[]]]]]]; vm_compute; eauto.
Qed.

(** Every board that a session reaches has 19 rows of 19 cells. *)
Lemma wfBoard_makeMove now g row col player :
  wfBoard (board g) → wfBoard (board (makeMove now g row col player).1).
Proof.
  intros Hwf. unfold makeMove. destruct (isValidMove g row col player); [|done].
  cbn zeta. repeat case_match; simpl; by apply wfBoard_setCell.
Qed.

Lemma reachable_wfBoard g : reachable g → wfBoard (board g).
Proof.
  induction 1 as [|g g' _ IH Hstep]; [apply wfBoard_initializeBoard|].
  destruct Hstep; simpl; try done.
  - by apply wfBoard_makeMove.
  - apply wfBoard_initializeBoard.
Qed.

(** C7.  In every state that a session reaches, [winner] is one of the five
    values [null], ['black'], ['white'], ['draw'], ['disconnect'], which stand
    for the outcomes none, black-won, white-won, draw and abandoned. *)
Theorem winner_five_values g :
  reachable g →
  winner g ∈ winnerValues ∧
  ∃ o, outcomeOf (winner g) = Some o.
Proof.
  intros Hreach.
  assert (Hin : winner g ∈ winnerValues).
  { induction Hreach as [|g g' _ IH Hstep].
    - simpl. unfold winnerValues. rewrite !elem_of_cons; auto.
    - by eapply winner_step. }
  split; [done|]. by apply outcomeOf_winnerValues.
Qed.

Lemma winner_five_values_witness :
  winner (markDisconnected (makeMove 3 freshGame 9 9 black).1) ∈ winnerValues ∧
  ∃ o, outcomeOf (winner (markDisconnected (makeMove 3 freshGame 9 9 black).1)) = Some o.
Proof.
  apply (winner_five_values (markDisconnected (makeMove 3 freshGame 9 9 black).1)).
  eapply reach_step; [|apply step_timeout].
  eapply reach_step; [|apply step_makeMove].
  apply reach_new.
Defined.

(** ** C6: restart by consent *)

(** What the reset writes and what it keeps. *)
Lemma resetGame_fields now g :
  board (resetGame now g) = initializeBoard ∧
  currentPlayer (resetGame now g) = black ∧
  winner (resetGame now g) = None ∧
  gameOver (resetGame now g) = false ∧
  moveCount (resetGame now g) = 0 ∧
  moveHistory (resetGame now g) = [] ∧
  id (resetGame now g) = id g ∧
  player1 (resetGame now g) = player1 g ∧
  player2 (resetGame now g) = player2 g ∧
  player1Name (resetGame now g) = player1Name g ∧
  player2Name (resetGame now g) = player2Name g ∧
  isAIGame (resetGame now g) = isAIGame g.
Proof. repeat split. Qed.

Lemma initializeBoard_empty row col :
  inBounds row col = true → cellAt initializeBoard row col = Some None.
Proof.
  intros [Hr Hc]%inBounds_spec. unfold cellAt, initializeBoard.
  replace ((row <? 0) || (col <? 0)) with false
    by (symmetry; apply orb_false_iff; lia).
  rewrite lookup_replicate_2 by lia. cbn [mbind option_bind].
  apply lookup_replicate_2. lia.
Qed.

(** The handler resets the game as soon as the vote set has two members. *)
Lemma onRequestStartOver_two_votes now s socket gameId game other :
  hasUsername s socket = true → falsy gameId = false →
  games s !! gameId = Some game → isAIGame game = false →
  (player1 game = Some socket ∧ player2 game = Some other ∨
   player2 game = Some socket ∧ player1 game = Some other) →
  size (default ∅ (startOverRequests s !! gameId) ∪ {[socket]}) = 2%nat →
  let s' := (onRequestStartOver now s socket gameId).1 in
  games s' = <[gameId := resetGame now game]> (games s) ∧
  startOverRequests s' !! gameId = None.
Proof.
  intros Hname Hgid Hgame Hai Hseat Hsize s'. subst s'.
  unfold onRequestStartOver. rewrite Hname, Hgid, Hgame, Hai. simpl.
  rewrite participant_guard by tauto.
  assert (Hother : is_Some (otherPlayerOf (bool_decide (player1 game = Some socket)) game)).
  { unfold otherPlayerOf. destruct Hseat as [[H1 H2]|[H2 H1]].
    - rewrite (bool_decide_eq_true_2 _ H1). by rewrite H2.
    - case_bool_decide; [by rewrite H2|by rewrite H1]. }
  destruct Hother as [o ->].
  rewrite (bool_decide_eq_true_2 _ Hsize). simpl.
  split; [done|]. apply lookup_delete_eq.
Qed.

(** C6.  When the other participant of a two-player game has voted to restart
    and a participant's own vote arrives, the handler resets the board to
    all-empty, the turn to black, the move count to 0, the move log to empty
    and the outcome to none ([winner] null, [gameOver] false); the game id,
    the two names and the two seats (hence the colours) are kept, and the
    vote set of the game is cleared. *)
Theorem restart_resets_and_preserves now s socket gameId game other :
  hasUsername s socket = true → falsy gameId = false →
  games s !! gameId = Some game → isAIGame game = false →
  (player1 game = Some socket ∧ player2 game = Some other ∨
   player2 game = Some socket ∧ player1 game = Some other) →
  socket ≠ other →
  startOverRequests s !! gameId = Some {[other]} →
  let s' := (onRequestStartOver now s socket gameId).1 in
  startOverRequests s' !! gameId = None ∧
  ∃ game', games s' !! gameId = Some game' ∧
    board game' = initializeBoard ∧
    (∀ row col, inBounds row col = true → cellAt (board game') row col = Some None) ∧
    currentPlayer game' = black ∧
    moveCount game' = 0 ∧
    moveHistory game' = [] ∧
    winner game' = None ∧ gameOver game' = false ∧
    id game' = id game ∧
    player1Name game' = player1Name game ∧ player2Name game' = player2Name game ∧
    player1 game' = player1 game ∧ player2 game' = player2 game.
Proof.
  intros Hname Hgid Hgame Hai Hseat Hne Hvotes s'.
  destruct (onRequestStartOver_two_votes now s socket gameId game other)
    as [Hgames Hreq]; try done.
  { rewrite Hvotes. cbn [from_option]. unfold Datatypes.id. rewrite size_union.
    - by rewrite !size_singleton.
    - apply disjoint_singleton_l. by intros ?%elem_of_singleton. }
  split; [done|]. exists (resetGame now game). fold s' in Hgames.
  rewrite Hgames, lookup_insert_eq.
  repeat split. intros row col Hin. by apply initializeBoard_empty.
Qed.

Lemma restart_resets_and_preserves_witness :
  let g := (makeMove 1 freshGame 9 9 black).1 in
  let s := setStartOverRequests {[ "g1" := {[ "s2" ]} ]}
             (setGames {[ "g1" := g ]} demoServer) in
  let s' := (onRequestStartOver 7 s "s1" "g1").1 in
  startOverRequests s' !! "g1" = None ∧
  ∃ game', games s' !! "g1" = Some game' ∧
    board game' = initializeBoard ∧
    (∀ row col, inBounds row col = true → cellAt (board game') row col = Some None) ∧
    currentPlayer game' = black ∧
    moveCount game' = 0 ∧
    moveHistory game' = [] ∧
    winner game' = None ∧ gameOver game' = false ∧
    id game' = id g ∧
    player1Name game' = player1Name g ∧ player2Name game' = player2Name g ∧
    player1 game' = player1 g ∧ player2 game' = player2 g.
Proof.
  intros g s.
  apply (restart_resets_and_preserves 7 s "s1" "g1" g "s2").
  - reflexivity.
  - reflexivity.
  - reflexivity.
  - reflexivity.
  - left. split; reflexivity.
  - discriminate.
  - reflexivity.
Defined.

(** ** C10: the answer to a new-game proposal *)




(** ** C9: operations before a name is claimed *)

(** Every handler but [playerDisconnect] starts with the test
    [connectedPlayers.has(socket.id)] and leaves the state as it is when the
    test fails. *)
Lemma unauthenticated_refused now s socket req :
  hasUsername s socket = false →
  (∀ gameId playerName, req ≠ ReqPlayerDisconnect gameId playerName) →
  (handle now s socket req).1 = s ∧
  (req ≠ ReqLeave → (handle now s socket req).2 = [usernameRequired socket]).
Proof.
  intros Hno Hreq.
  assert (Hnone : connectedPlayers s !! socket = None).
  { apply bool_decide_eq_false in Hno. by apply eq_None_not_Some. }
  destruct req; simpl;
    unfold onMakeMove, onRequestStartOver, onRequestNewGame, onRespondToNewGame,
      onResetAIGame, onReconnectToGame, onLeaveGame;
    rewrite ?Hno, ?Hnone; simpl; try done.
  by destruct (Hreq gameId playerName).
Qed.

(** C9 fails on the code for the quit notification: socket s3, which has
    claimed no name, sends [playerDisconnect] for the game of alice and bob;
    the game and both entries of [playerGameMap] are deleted and bob is told
    that alice left. *)
Theorem playerDisconnect_unauthenticated :
  hasUsername demoServer "s3" = false ∧
  let r := handle 9 demoServer "s3" (ReqPlayerDisconnect "g1" "alice") in
  games demoServer !! "g1" = Some freshGame ∧
  games r.1 !! "g1" = None ∧
  playerGameMap r.1 !! "alice" = None ∧
  playerGameMap r.1 !! "bob" = None ∧
  r.1 ≠ demoServer ∧
  r.2 = [Emit "s2" "opponentDisconnected" "alice"].
Proof.
  split; [reflexivity|]. intros r.
  assert (Hg : games r.1 !! "g1" = None) by reflexivity.
  repeat split; try reflexivity.
  intros Heq. rewrite Heq in Hg. discriminate Hg.
Qed.

(** ** C8: the heuristic opponent and open fours *)

Lemma cellEmpty_spec b row col :
  cellEmpty b row col = true ↔ cellAt b row col = Some None.
Proof. unfold cellEmpty. apply bool_decide_eq_true. Qed.

Lemma elem_of_getEmptyPositions b pos :
  pos ∈ getEmptyPositions b ↔
  inBounds pos.1 pos.2 = true ∧ cellEmpty b pos.1 pos.2 = true.
Proof.
  unfold getEmptyPositions. rewrite list_elem_of_bind. split.
  - intros (r & (c & Hpos & Hc%elem_of_seqZ)%list_elem_of_bind & Hr%elem_of_seqZ).
    destruct (cellEmpty b r c) eqn:He; [|by apply elem_of_nil in Hpos].
    apply list_elem_of_singleton in Hpos as ->. simpl.
    split; [apply inBounds_spec; lia|done].
  - destruct pos as [r c]. cbn [fst snd]. intros [[Hr Hc]%inBounds_spec He].
    exists r. split; [|apply elem_of_seqZ; lia].
    apply list_elem_of_bind. exists c. split; [|apply elem_of_seqZ; lia].
    rewrite He. by apply list_elem_of_singleton.
Qed.

(** The scan for a winning move gives the board back as it was, and returns
    the first position of the list at which the stone would win. *)
Lemma findWinningMove_spec b player emptyPositions :
  (∀ pos, pos ∈ emptyPositions → cellEmpty b pos.1 pos.2 = true) →
  findWinningMove b player emptyPositions =
    (b, find (λ pos, checkWinAtPosition (setCell b pos.1 pos.2 (Some player))
                       pos.1 pos.2 player) emptyPositions).
Proof.
  induction emptyPositions as [|pos rest IH]; intros Hempty; simpl; [done|].
  assert (Hback : setCell (setCell b pos.1 pos.2 (Some player)) pos.1 pos.2 None = b).
  { rewrite setCell_setCell. apply setCell_same, cellEmpty_spec, Hempty. by left. }
  rewrite Hback.
  destruct (checkWinAtPosition _ _ _ _); [done|].
  apply IH. intros p Hp. apply Hempty. by right.
Qed.

Lemma holds_setCell_other b row col v player p :
  wfBoard b → inBounds row col = true → p ≠ (row, col) →
  holds (setCell b row col v) player p = holds b player p.
Proof.
  intros Hwf Hin Hne. unfold holds, cellIs. destruct p as [r c]. cbn [fst snd].
  rewrite cellAt_setCell by done.
  by rewrite (bool_decide_eq_false_2 ((r, c) = (row, col))).
Qed.

Lemma directions_step d i :
  d ∈ directions → i ≠ 0 → (i * d.1, i * d.2) ≠ (0, 0).
Proof.
  unfold directions. rewrite !elem_of_cons, elem_of_nil.
  intros [->|[->|[->|[->|[]]]]] Hi; simpl; intros [=]; lia.
Qed.

(** A stone in front of four stones in a row wins. *)
Lemma four_then_win b player row col d :
  wfBoard b → d ∈ directions → inBounds row col = true →
  (∀ i, 1 ≤ i ≤ 4 → holds b player (row + i * d.1, col + i * d.2) = true) →
  checkWinAtPosition (setCell b row col (Some player)) row col player = true.
Proof.
  intros Hwf Hd Hin Hfour.
  rewrite checkWinAtPosition_checkWin, checkWin_window
    by by apply holds_setCell_pivot.
  apply existsb_exists. exists d. split; [by apply list_elem_of_In|].
  apply window5_spec. exists 0. split; [lia|]. intros j Hj. unfold along.
  destruct (decide (j = 0)) as [->|Hj0].
  - rewrite <- (holds_setCell_pivot b row col player Hwf Hin). f_equal. f_equal; lia.
  - rewrite holds_setCell_other; try done.
    + replace (j - 0) with j by lia. apply Hfour. lia.
    + intros [= H1 H2]. apply (directions_step d (j - 0) Hd); [lia|].
      f_equal; lia.
Qed.

(** The cell before an open four is a winning cell. *)
Lemma openFour_winningCell b player row col d :
  wfBoard b → openFour b player row col d →
  winningCell b player (row - d.1, col - d.2).
Proof.
  intros Hwf (Hd & Hfour & Hin & Hempty & _ & _).
  split; [done|]. split; [done|]. cbn [fst snd].
  apply (four_then_win _ _ _ _ d); try done.
  intros i Hi. rewrite <- (Hfour (i - 1)) by lia. f_equal. f_equal; lia.
Qed.

Lemma find_winningCell b player pos :
  find (λ pos, checkWinAtPosition (setCell b pos.1 pos.2 (Some player))
                 pos.1 pos.2 player) (getEmptyPositions b) = Some pos →
  winningCell b player pos.
Proof.
  intros [Hin%list_elem_of_In%elem_of_getEmptyPositions Hwin]%find_some.
  destruct Hin. by split.
Qed.

Lemma winningCell_find b player pos :
  winningCell b player pos →
  is_Some (find (λ pos, checkWinAtPosition (setCell b pos.1 pos.2 (Some player))
                          pos.1 pos.2 player) (getEmptyPositions b)).
Proof.
  intros (Hin & Hempty & Hwin).
  destruct (find _ _) eqn:Hfind; [done|].
  eapply find_none in Hfind; [|apply list_elem_of_In, elem_of_getEmptyPositions; done].
  simpl in Hfind. congruence.
Qed.

(** C8, as the code has it.  On a well-formed board with an open-ended four
    of either colour, [getBestMove] leaves the board as it was and returns a
    cell at which one of the colours wins in one move: a winning cell of the
    AI's colour when the four is its own (priority 1), and a winning cell of
    the opponent, which is thereby blocked, when the four is the opponent's
    and the AI has no winning cell of its own (priority 2). *)
Theorem getBestMove_open_four randomIndex b aiPlayer humanPlayer player row col d :
  wfBoard b → openFour b player row col d →
  player = aiPlayer ∨ player = humanPlayer →
  let r := getBestMove randomIndex b aiPlayer humanPlayer in
  r.1 = b ∧
  ∃ pos, r.2 = Some pos ∧
    (winningCell b aiPlayer pos ∨ winningCell b humanPlayer pos) ∧
    (player = aiPlayer → winningCell b aiPlayer pos) ∧
    (player = humanPlayer → (∀ p, ¬ winningCell b aiPlayer p) →
       winningCell b humanPlayer pos).
Proof.
  intros Hwf Hopen Hplayer r. subst r.
  pose proof (openFour_winningCell b player row col d Hwf Hopen) as Hcell.
  assert (Hempty : ∀ pos, pos ∈ getEmptyPositions b → cellEmpty b pos.1 pos.2 = true).
  { by intros pos [_ ?]%elem_of_getEmptyPositions. }
  unfold getBestMove.
  rewrite bool_decide_eq_false_2.
  2: { destruct Hcell as (Hin & He & _).
       assert (Hq : (row - d.1, col - d.2) ∈ getEmptyPositions b)
         by by apply elem_of_getEmptyPositions.
       intros Hlen%nil_length_inv. rewrite Hlen in Hq. by apply elem_of_nil in Hq. }
  rewrite (findWinningMove_spec b aiPlayer) by done. cbn [fst snd].
  destruct (find _ _) as [m|] eqn:Hai.
  - apply find_winningCell in Hai. split; [done|]. exists m.
    split; [done|]. split; [by left|]. split; [done|].
    intros _ Hnone. by destruct (Hnone m).
  - rewrite (findWinningMove_spec b humanPlayer) by done. cbn [fst snd].
    destruct Hplayer as [->| ->].
    + apply winningCell_find in Hcell as [m Hm]. congruence.
    + apply winningCell_find in Hcell as [m Hm]. rewrite Hm.
      apply find_winningCell in Hm. split; [done|]. exists m.
      split; [done|]. split; [by right|]. split; [|done].
      intros ->. apply winningCell_find in Hm as [m' Hm']. congruence.
Qed.

Lemma wfBoard_bothFoursBoard : wfBoard bothFoursBoard.
Proof. unfold bothFoursBoard. simpl. auto 10 using wfBoard_setCell, wfBoard_initializeBoard. Qed.

(** The example of the specification: white to move with white stones at
    (9,5), (9,6), (9,7), (9,8) plays (9,4), whatever the random source. *)
Example getBestMove_white_four randomIndex :
  getBestMove randomIndex whiteFourBoard white black = (whiteFourBoard, Some (9, 4)).
Proof. vm_compute. reflexivity. Qed.

(** The same board with black to move as the AI: the block is at (9,4). *)
Example getBestMove_blocks_white_four randomIndex :
  getBestMove randomIndex whiteFourBoard black white = (whiteFourBoard, Some (9, 4)).
Proof. vm_compute. reflexivity. Qed.

Lemma getBestMove_open_four_witness :
  let r := getBestMove 0 whiteFourBoard white black in
  r.1 = whiteFourBoard ∧
  ∃ pos, r.2 = Some pos ∧
    (winningCell whiteFourBoard white pos ∨ winningCell whiteFourBoard black pos) ∧
    (white = white → winningCell whiteFourBoard white pos) ∧
    (white = black → (∀ p, ¬ winningCell whiteFourBoard white p) →
       winningCell whiteFourBoard black pos).
Proof.
  apply (getBestMove_open_four 0 whiteFourBoard white black white 9 5 (0, 1)).
  - split; [reflexivity|]. vm_compute. repeat constructor.
  - split; [unfold directions; by left|]. split; [|by repeat split].
    intros i Hi.
    assert (i = 0 ∨ i = 1 ∨ i = 2 ∨ i = 3) as [->|[->|[->| ->]]] by lia;
      reflexivity.
  - by left.
Defined.

(** C8 as stated fails: black has the open four (9,5)..(9,8), with (9,4) and
    (9,9) empty, and white, the AI, to move has the four (0,0)..(0,3).  The
    AI plays its own winning cell (0,4), which is not a cell at which black
    wins, so black's four is not blocked. *)
Lemma getBestMove_wins_instead_of_blocking :
  wfBoard bothFoursBoard ∧
  openFour bothFoursBoard black 9 5 (0, 1) ∧
  (getBestMove 0 bothFoursBoard white black).2 = Some (0, 4) ∧
  ¬ winningCell bothFoursBoard black (0, 4) ∧
  (0, 4) ≠ (9, 4) ∧ (0, 4) ≠ (9, 9).
Proof.
  split; [apply wfBoard_bothFoursBoard|]. split; [|split; [|split]].
  - split; [unfold directions; by left|]. split; [|by repeat split].
    intros i Hi.
    assert (i = 0 ∨ i = 1 ∨ i = 2 ∨ i = 3) as [->|[->|[->| ->]]] by lia;
      reflexivity.
  - vm_compute. reflexivity.
  - intros (_ & _ & Hwin). vm_compute in Hwin. discriminate Hwin.
  - split; discriminate.
Qed.

(** * Further properties of the code *)

(** ** What a successful move does *)

Lemma isValidMove_Valid g row col player :
  isValidMove g row col player = Valid →
  inBounds row col = true ∧ cellAt (board g) row col = Some None ∧
  currentPlayer g = player ∧ gameOver g = false.
Proof.
  intros Hv. pose proof (isValidMove_turn _ _ _ _ Hv) as [Hturn Hover].
  revert Hv. unfold isValidMove.
  destruct ((row <? 0) || (row >=? 19) || (col <? 0) || (col >=? 19)) eqn:Hb; [done|].
  destruct (cellEmpty (board g) row col) eqn:He; [|done]. intros _.
  split; [|by apply cellEmpty_spec in He].
  apply inBounds_spec. rewrite !orb_false_iff in Hb. lia.
Qed.

(** The fields of the game after a successful [makeMove]. *)
Lemma makeMove_ok now g row col player :
  success (makeMove now g row col player).2 = true →
  let g' := (makeMove now g row col player).1 in
  isValidMove g row col player = Valid ∧
  board g' = setCell (board g) row col (Some player) ∧
  moveCount g' = moveCount g + 1 ∧
  moveHistory g' =
    moveHistory g ++ [mkMoveRecord row col player now (moveCount g + 1)] ∧
  (if won (checkWin (board g') row col player)
   then gameOver g' = true ∧ winner g' = Some (colorName player) ∧
        currentPlayer g' = currentPlayer g
   else if moveCount g + 1 >=? 19 * 19
   then gameOver g' = true ∧ winner g' = Some "draw" ∧
        currentPlayer g' = currentPlayer g
   else gameOver g' = gameOver g ∧ winner g' = winner g ∧
        currentPlayer g' = otherColor (currentPlayer g)).
Proof.
  unfold makeMove. destruct (isValidMove g row col player) eqn:Hv; [|done].
  intros _. cbn zeta. split; [done|].
  destruct (won (checkWin _ row col player)) eqn:Hwon; simpl in Hwon |- *.
  - rewrite Hwon. by repeat split.
  - destruct (moveCount g + 1 >=? 19 * 19) eqn:Hfull; simpl; rewrite Hwon;
      by repeat split.
Qed.

(** An induction principle for the reachable games: the rejected moves
    change nothing, so only the successful ones need a case. *)
Lemma reachable_invariant (P : Game → Prop) :
  (∀ gid now p1 p2 n1 n2 ai, P (newGame gid now p1 p2 n1 n2 ai)) →
  (∀ now g row col player,
     reachable g → P g → success (makeMove now g row col player).2 = true →
     P (makeMove now g row col player).1) →
  (∀ now g, reachable g → P g → P (resetGame now g)) →
  (∀ g, reachable g → P g → P (markDisconnected g)) →
  (∀ g v, P g → P (setPlayer1 v g)) →
  (∀ g v, P g → P (setPlayer2 v g)) →
  (∀ g v, P g → P (setDisconnectTimeout v g)) →
  ∀ g, reachable g → P g.
Proof.
  intros Hnew Hmove Hreset Hmark Hp1 Hp2 Htimer g Hreach.
  induction Hreach as [|g g' Hg IH Hstep]; [apply Hnew|].
  destruct Hstep; auto.
  destruct (success (makeMove now g row col player).2) eqn:Hs; [by apply Hmove|].
  destruct (makeMove now g row col player).2 as [| reason] eqn:Hr; [done|].
  apply makeMove_failed in Hr as [_ ->]. done.
Qed.

(** ** The move log *)

Lemma lookup_snoc_Some {A} (l : list A) x k y :
  (l ++ [x]) !! k = Some y →
  l !! k = Some y ∨ k = length l ∧ y = x.
Proof.
  intros H. destruct (decide (k < length l)%nat) as [Hlt|Hge].
  - left. by rewrite lookup_app_l in H.
  - right. rewrite lookup_app_r in H by lia.
    destruct (k - length l)%nat as [|n] eqn:Hk; simpl in H; [|done].
    split; [lia|congruence].
Qed.

Lemma colorAt_S n : colorAt (S n) = otherColor (colorAt n).
Proof. unfold colorAt. rewrite Nat.even_succ, <- Nat.negb_even. by destruct (Nat.even n). Qed.

Lemma even_of_nat n : Z.even (Z.of_nat n) = Nat.even n.
Proof.
  induction n as [|n IH]; [done|].
  by rewrite Nat2Z.inj_succ, Z.even_succ, Nat.even_succ, <- Z.negb_even,
    <- Nat.negb_even, IH.
Qed.

Lemma logInvariant_reachable g : reachable g → logInvariant g.
Proof.
  apply reachable_invariant; clear g.
  - intros. split; [done|]. split; [done|]. intros k m Hk. simpl in Hk. by rewrite lookup_nil in Hk.
  - intros now g row col player _ (Hcount & Hturn & Hlog) Hs.
    pose proof (makeMove_ok _ _ _ _ _ Hs) as (Hv & _ & Hc & Hh & Hend).
    apply isValidMove_Valid in Hv as (Hin & _ & Hcur & Hover).
    specialize (Hturn Hover). unfold logInvariant. rewrite Hc, Hh, length_app. simpl.
    split; [lia|]. split.
    + intros Hover'. rewrite Nat.add_1_r, colorAt_S, <- Hturn.
      destruct (won _); [destruct Hend; congruence|].
      destruct (_ >=? _); [destruct Hend; congruence|]. by destruct Hend as (_ & _ & ->).
    + intros k m [Hk|[-> ->]]%lookup_snoc_Some; [by apply Hlog|]. simpl.
      split; [lia|]. split; [congruence|done].
  - intros now g _ _. split; [done|]. split; [done|]. intros k m Hk. simpl in Hk. by rewrite lookup_nil in Hk.
  - intros g _ (Hcount & Hturn & Hlog). by split.
  - done.
  - done.
  - done.
Qed.

(** X1.  In every reachable game the move count is the length of the move
    log; its entries are numbered 1, 2, ... in order; black and white
    alternate in it, black first; all its coordinates are on the board; and
    while the game is not over the turn is black's exactly when the number of
    moves is even. *)
Theorem moveHistory_numbered_and_alternating g :
  reachable g →
  moveCount g = Z.of_nat (length (moveHistory g)) ∧
  (gameOver g = false →
     currentPlayer g = if Z.even (moveCount g) then black else white) ∧
  ∀ k m, moveHistory g !! k = Some m →
    mvNumber m = Z.of_nat k + 1 ∧
    mvPlayer m = (if Nat.even k then black else white) ∧
    0 ≤ mvRow m < 19 ∧ 0 ≤ mvCol m < 19.
Proof.
  intros (Hcount & Hturn & Hlog)%logInvariant_reachable.
  split; [done|]. split.
  - intros Hover. rewrite (Hturn Hover), Hcount, even_of_nat. done.
  - intros k m (Hn & Hp & Hin%inBounds_spec)%Hlog. done.
Qed.

Lemma moveHistory_numbered_and_alternating_witness :
  let g := (makeMove 1 freshGame 9 9 black).1 in
  moveCount g = Z.of_nat (length (moveHistory g)) ∧
  (gameOver g = false →
     currentPlayer g = if Z.even (moveCount g) then black else white) ∧
  ∀ k m, moveHistory g !! k = Some m →
    mvNumber m = Z.of_nat k + 1 ∧
    mvPlayer m = (if Nat.even k then black else white) ∧
    0 ≤ mvRow m < 19 ∧ 0 ≤ mvCol m < 19.
Proof.
  apply (moveHistory_numbered_and_alternating (makeMove 1 freshGame 9 9 black).1).
  eapply reach_step; [|apply step_makeMove]. apply reach_new.
Defined.

(** X2.  The board of every reachable game is the replay of its move log on
    the empty board. *)
Theorem board_is_replay_of_moveHistory g :
  reachable g → board g = replay (moveHistory g).
Proof.
  revert g. apply reachable_invariant; try done.
  intros now g row col player _ IH Hs.
  pose proof (makeMove_ok _ _ _ _ _ Hs) as (_ & Hb & _ & Hh & _).
  rewrite Hb, Hh, IH. unfold replay. by rewrite foldl_app.
Qed.

Lemma board_is_replay_of_moveHistory_witness :
  board (makeMove 1 freshGame 9 9 black).1
  = replay (moveHistory (makeMove 1 freshGame 9 9 black).1).
Proof.
  apply (board_is_replay_of_moveHistory (makeMove 1 freshGame 9 9 black).1).
  eapply reach_step; [|apply step_makeMove]. apply reach_new.
Defined.

(** ** Counting the stones *)

Lemma rowCount_insert (r : list Cell) i p :
  r !! i = Some None →
  length (filter (λ c : Cell, is_Some c) (<[i := Some p]> r))
  = S (length (filter (λ c : Cell, is_Some c) r)).
Proof.
  revert i. induction r as [|c r IH]; intros [|i] Hi; simpl in *; try done.
  - injection Hi as ->.
    rewrite (filter_cons_False _ None) by (by intros [? ?]). done.
  - destruct (decide (is_Some c)).
    + rewrite !filter_cons_True by done. simpl. by rewrite IH.
    + rewrite !filter_cons_False by done. by rewrite IH.
Qed.

Lemma sum_list_alter (f : list Cell → nat) (g : list Cell → list Cell) b n r :
  b !! n = Some r → f (g r) = S (f r) →
  sum_list (f <$> alter g n b) = S (sum_list (f <$> b)).
Proof.
  revert n. induction b as [|x b IH]; intros [|n] Hn Hf; try done.
  - injection Hn as ->. cbn. lia.
  - specialize (IH n Hn Hf). cbn in IH |- *. lia.
Qed.

Lemma stoneCount_setCell b row col p :
  inBounds row col = true → cellAt b row col = Some None →
  stoneCount (setCell b row col (Some p)) = S (stoneCount b).
Proof.
  intros Hin Hcell. pose proof Hin as [Hr Hc]%inBounds_spec.
  unfold stoneCount, setCell. rewrite Hin. unfold cellAt in Hcell.
  replace ((row <? 0) || (col <? 0)) with false in Hcell
    by (symmetry; apply orb_false_iff; lia).
  destruct (b !! Z.to_nat row) as [r|] eqn:Hrow; [simpl in Hcell|done].
  apply (sum_list_alter _ _ _ _ r); [done|]. by apply rowCount_insert.
Qed.

Lemma stoneCount_bound b : wfBoard b → (stoneCount b ≤ 361)%nat.
Proof.
  intros [Hlen Hrows]. unfold stoneCount.
  assert (H : ∀ l : list (list Cell), Forall (λ r, length r = 19%nat) l →
              (sum_list ((λ r, length (filter (λ c : Cell, is_Some c) r)) <$> l)
               ≤ 19 * length l)%nat).
  { induction 1 as [|r l Hr _ IH]; [simpl; lia|].
    rewrite fmap_cons, length_cons. change (sum_list (?x :: ?t)) with (x + sum_list t)%nat.
    pose proof (length_filter (λ c : Cell, is_Some c) r). lia. }
  specialize (H b Hrows). lia.
Qed.

Lemma stoneCount_initializeBoard : stoneCount initializeBoard = 0%nat.
Proof. reflexivity. Qed.

Lemma stoneCount_reachable g :
  reachable g → Z.of_nat (stoneCount (board g)) = moveCount g.
Proof.
  revert g. apply reachable_invariant; try done.
  intros now g row col player _ IH Hs.
  pose proof (makeMove_ok _ _ _ _ _ Hs) as (Hv & Hb & Hc & _).
  apply isValidMove_Valid in Hv as (Hin & Hcell & _).
  rewrite Hb, Hc, stoneCount_setCell by done. lia.
Qed.

Lemma moveCount_bound g : reachable g → 0 ≤ moveCount g ≤ 361.
Proof.
  intros Hreach. rewrite <- (stoneCount_reachable g Hreach).
  pose proof (stoneCount_bound _ (reachable_wfBoard _ Hreach)). lia.
Qed.

(** X3.  In every reachable game the number of stones on the board is the
    move count, which is therefore at most 361. *)
Theorem stones_equal_moveCount g :
  reachable g →
  Z.of_nat (stoneCount (board g)) = moveCount g ∧ 0 ≤ moveCount g ≤ 361.
Proof.
  intros Hreach. split; [by apply stoneCount_reachable|by apply moveCount_bound].
Qed.

Lemma stones_equal_moveCount_witness :
  let g := (makeMove 1 freshGame 9 9 black).1 in
  Z.of_nat (stoneCount (board g)) = moveCount g ∧ 0 ≤ moveCount g ≤ 361.
Proof.
  apply (stones_equal_moveCount (makeMove 1 freshGame 9 9 black).1).
  eapply reach_step; [|apply step_makeMove]. apply reach_new.
Defined.

(** ** The end of a game *)

Lemma draw_after_361 g :
  reachable g → winner g = Some "draw" → 361 ≤ moveCount g.
Proof.
  revert g.
  apply (reachable_invariant (λ g, winner g = Some "draw" → 361 ≤ moveCount g));
    try done.
  intros now g row col player _ IH Hs.
  pose proof (makeMove_ok _ _ _ _ _ Hs) as (_ & _ & Hc & _ & Hend).
  destruct (won _); [destruct Hend as (_ & -> & _); by destruct player|].
  destruct (_ >=? _) eqn:Hfull.
  - apply Z.geb_le in Hfull. lia.
  - destruct Hend as (_ & -> & _). intros Hw%IH. lia.
Qed.

Lemma over_iff_winner g : reachable g → gameOver g = true ↔ winner g ≠ None.
Proof.
  revert g. apply reachable_invariant; try done.
  intros now g row col player _ IH Hs.
  pose proof (makeMove_ok _ _ _ _ _ Hs) as (_ & _ & _ & _ & Hend).
  destruct (won _); [by destruct Hend as (-> & -> & _)|].
  destruct (_ >=? _); [by destruct Hend as (-> & -> & _)|].
  by destruct Hend as (-> & -> & _).
Qed.

(** X4.  In every reachable game [gameOver] is true exactly when [winner] is
    set, and a draw is declared only on a full board of 361 stones. *)
Theorem gameOver_iff_winner g :
  reachable g →
  (gameOver g = true ↔ winner g ≠ None) ∧
  (winner g = Some "draw" →
     moveCount g = 361 ∧ stoneCount (board g) = 361%nat).
Proof.
  intros Hreach. split; [by apply over_iff_winner|].
  intros Hdraw%draw_after_361; [|done].
  pose proof (moveCount_bound g Hreach).
  pose proof (stoneCount_reachable g Hreach). lia.
Qed.

Lemma gameOver_iff_winner_witness :
  let g := markDisconnected (makeMove 1 freshGame 9 9 black).1 in
  (gameOver g = true ↔ winner g ≠ None) ∧
  (winner g = Some "draw" →
     moveCount g = 361 ∧ stoneCount (board g) = 361%nat).
Proof.
  apply (gameOver_iff_winner (markDisconnected (makeMove 1 freshGame 9 9 black).1)).
  eapply reach_step; [|apply step_timeout].
  eapply reach_step; [|apply step_makeMove]. apply reach_new.
Defined.

(** ** Five in a row and the end of the game *)

Lemma fiveOn_spec b player :
  fiveOn b player = true ↔
  ∃ line, line ∈ allLines ∧ ∀ p, p ∈ line → holds b player p = true.
Proof.
  unfold fiveOn. rewrite existsb_exists. split.
  - intros (line & Hl%list_elem_of_In & Hall). exists line. split; [done|].
    intros p Hp%list_elem_of_In. rewrite forallb_forall in Hall. auto.
  - intros (line & Hl & Hall). exists line. split; [by apply list_elem_of_In|].
    apply forallb_forall. intros p Hp%list_elem_of_In. auto.
Qed.

Lemma bruteForceWin_spec b row col player :
  bruteForceWin b row col player = true ↔
  ∃ line, line ∈ allLines ∧ (row, col) ∈ line ∧
          ∀ p, p ∈ line → holds b player p = true.
Proof.
  unfold bruteForceWin. rewrite existsb_exists. split.
  - intros (line & Hl%list_elem_of_In & [Hp%bool_decide_eq_true Hall]%andb_true_iff).
    exists line. split; [done|]. split; [done|].
    intros p Hin%list_elem_of_In. rewrite forallb_forall in Hall. auto.
  - intros (line & Hl & Hp & Hall). exists line. split; [by apply list_elem_of_In|].
    apply andb_true_iff. split; [by apply bool_decide_eq_true|].
    apply forallb_forall. intros p Hin%list_elem_of_In. auto.
Qed.

Lemma fiveOn_initializeBoard player : fiveOn initializeBoard player = false.
Proof. destruct player; vm_compute; reflexivity. Qed.

Lemma colorName_inj c1 c2 : colorName c1 = colorName c2 → c1 = c2.
Proof. by destruct c1, c2. Qed.

(** After a stone is placed on an empty cell, a line of five on the new board
    either goes through the stone, and then [checkWin] at the stone reports
    it, or was on the board before. *)
Lemma fiveOn_setCell b row col player c :
  wfBoard b → inBounds row col = true → cellAt b row col = Some None →
  fiveOn (setCell b row col (Some player)) c = true →
  (c = player ∧ won (checkWin (setCell b row col (Some player)) row col player) = true)
  ∨ fiveOn b c = true.
Proof.
  intros Hwf Hin Hcell (line & Hl & Hall)%fiveOn_spec.
  destruct (decide ((row, col) ∈ line)) as [Hp|Hp].
  - left. pose proof (Hall _ Hp) as [_ Hc]%holds_spec. cbn [fst snd] in Hc.
    rewrite cellAt_setCell, bool_decide_eq_true_2 in Hc by done.
    injection Hc as ->. split; [done|].
    rewrite checkWin_window, <- bruteForceWin_window by by apply holds_setCell_pivot.
    apply bruteForceWin_spec. eauto.
  - right. apply fiveOn_spec. exists line. split; [done|]. intros p Hin'.
    rewrite <- (Hall p Hin'). symmetry. apply holds_setCell_other; try done.
    by intros ->.
Qed.

(** X5.  The outcome of a reachable game matches its board: while the game is
    not over no line of five stones of one colour is on the board, and when
    the winner is a colour a line of five stones of that colour is on the
    board. *)
Theorem outcome_matches_board g :
  reachable g →
  (gameOver g = false → ∀ c, fiveOn (board g) c = false) ∧
  (∀ c, winner g = Some (colorName c) → fiveOn (board g) c = true).
Proof.
  revert g.
  apply (reachable_invariant
           (λ g, (gameOver g = false → ∀ c, fiveOn (board g) c = false) ∧
                 (∀ c, winner g = Some (colorName c) → fiveOn (board g) c = true))).
  - intros. simpl. split; [|done]. intros _ c. apply fiveOn_initializeBoard.
  - intros now g row col player Hreach [IH1 IH2] Hs.
    pose proof (reachable_wfBoard _ Hreach) as Hwf.
    pose proof (makeMove_ok _ _ _ _ _ Hs) as (Hv & Hb & _ & _ & Hend).
    apply isValidMove_Valid in Hv as (Hin & Hcell & _ & Hover).
    rewrite Hb in *.
    destruct (won (checkWin _ row col player)) eqn:Hwon.
    + destruct Hend as (Ho & Hw & _). split; [congruence|].
      intros c Hc. rewrite Hw in Hc. injection Hc as <-%colorName_inj.
      rewrite checkWin_window, <- bruteForceWin_window in Hwon
        by by apply holds_setCell_pivot.
      apply bruteForceWin_spec in Hwon as (line & Hl & _ & Hall).
      apply fiveOn_spec. eauto.
    + destruct (_ >=? _).
      * destruct Hend as (Ho & Hw & _). split; [congruence|].
        intros c Hc. rewrite Hw in Hc. by destruct c.
      * destruct Hend as (Ho & Hw & _). split.
        -- intros _ c. destruct (fiveOn _ c) eqn:Hfive; [|done].
           apply fiveOn_setCell in Hfive as [[_ Hw']|Hold]; try done; [congruence|].
           by rewrite IH1 in Hold.
        -- intros c Hc. rewrite Hw in Hc.
           apply over_iff_winner in Hreach as [_ Hreach].
           rewrite Hreach in Hover by congruence. done.
  - intros now g _ _. simpl. split; [|done]. intros _ c. apply fiveOn_initializeBoard.
  - intros g _ [IH1 IH2]. simpl. split; [done|]. intros c Hc. by destruct c.
  - done.
  - done.
  - done.
Qed.

Lemma outcome_matches_board_witness :
  let g := (makeMove 1 freshGame 9 9 black).1 in
  (gameOver g = false → ∀ c, fiveOn (board g) c = false) ∧
  (∀ c, winner g = Some (colorName c) → fiveOn (board g) c = true).
Proof.
  apply (outcome_matches_board (makeMove 1 freshGame 9 9 black).1).
  eapply reach_step; [|apply step_makeMove]. apply reach_new.
Defined.

(** X6.  A successful move writes the mover's colour at the cell and changes
    no other cell of the board, and from then on a move at that cell is
    rejected as occupied, whoever makes it. *)
Theorem move_places_one_stone now g row col player :
  wfBoard (board g) →
  success (makeMove now g row col player).2 = true →
  let g' := (makeMove now g row col player).1 in
  cellAt (board g') row col = Some (Some player) ∧
  (∀ r c, (r, c) ≠ (row, col) → cellAt (board g') r c = cellAt (board g) r c) ∧
  (∀ now' player',
     makeMove now' g' row col player' = (g', MoveFailed "Position already occupied")).
Proof.
  intros Hwf Hs g'.
  pose proof (makeMove_ok _ _ _ _ _ Hs) as (Hv & Hb & _).
  apply isValidMove_Valid in Hv as (Hin & _). fold g' in Hb.
  assert (Hcell : cellAt (board g') row col = Some (Some player)).
  { rewrite Hb, cellAt_setCell by done. by rewrite bool_decide_eq_true_2. }
  split; [done|]. split.
  - intros r c Hne. rewrite Hb, cellAt_setCell by done.
    by rewrite bool_decide_eq_false_2.
  - intros now' player'. unfold makeMove, isValidMove, cellEmpty.
    apply inBounds_spec in Hin.
    replace ((row <? 0) || (row >=? 19) || (col <? 0) || (col >=? 19)) with false
      by (symmetry; rewrite !orb_false_iff; lia).
    rewrite Hcell. by rewrite bool_decide_eq_false_2.
Qed.

Lemma move_places_one_stone_witness :
  let g' := (makeMove 1 freshGame 9 9 black).1 in
  cellAt (board g') 9 9 = Some (Some black) ∧
  (∀ r c, (r, c) ≠ (9, 9) → cellAt (board g') r c = cellAt (board freshGame) r c) ∧
  (∀ now' player',
     makeMove now' g' 9 9 player' = (g', MoveFailed "Position already occupied")).
Proof.
  apply (move_places_one_stone 1 freshGame 9 9 black).
  - split; [reflexivity|]. vm_compute. repeat constructor.
  - reflexivity.
Defined.

(** ** The AI player's choice *)

Lemma elem_of_insertByScore x y l :
  y ∈ insertByScore x l ↔ y = x ∨ y ∈ l.
Proof.
  induction l as [|z l IH]; simpl.
  - rewrite list_elem_of_singleton, elem_of_nil. tauto.
  - destruct (z.2 <=? x.2); rewrite !elem_of_cons; [tauto|]. rewrite IH. tauto.
Qed.

(** The head of the sorted list is the first element of the input with the
    largest score. *)
Lemma sortByScore_head l best rest :
  sortByScore l = best :: rest →
  ∃ l1 l2, l = l1 ++ best :: l2 ∧
    (∀ y, y ∈ l1 → y.2 < best.2) ∧ (∀ y, y ∈ l2 → y.2 ≤ best.2).
Proof.
  revert best rest. induction l as [|x l IH]; intros best rest; simpl; [done|].
  destruct (sortByScore l) as [|h s] eqn:Hs; simpl.
  - intros [= <- <-]. destruct l as [|z l].
    + exists [], []. split; [done|]. split; by intros y ?%elem_of_nil.
    + simpl in Hs. by destruct (sortByScore l) as [|? ?];
        simpl in Hs; [|destruct (_ <=? _)].
  - destruct (IH h s eq_refl) as (l1 & l2 & -> & Hl1 & Hl2).
    destruct (h.2 <=? x.2) eqn:Hle.
    + intros [= <- <-]. apply Z.leb_le in Hle.
      exists [], (l1 ++ h :: l2). split; [done|]. split; [by intros y ?%elem_of_nil|].
      intros y [Hy|[->|Hy]%elem_of_cons]%elem_of_app.
      * specialize (Hl1 y Hy). lia.
      * done.
      * specialize (Hl2 y Hy). lia.
    + intros [= <- <-]. apply Z.leb_gt in Hle.
      exists (x :: l1), l2. split; [done|]. split; [|done].
      intros y [->|Hy]%elem_of_cons; auto.
Qed.

Lemma sortByScore_nil l : sortByScore l = [] → l = [].
Proof.
  destruct l as [|x l]; [done|]. simpl.
  destruct (sortByScore l) as [|h s]; simpl; [done|]. by destruct (_ <=? _).
Qed.

Lemma findStrategicMove_spec b aiPlayer humanPlayer emptyPositions :
  match findStrategicMove b aiPlayer humanPlayer emptyPositions with
  | None => emptyPositions = []
  | Some best =>
      ∃ l1 l2, emptyPositions = l1 ++ best :: l2 ∧
        (∀ pos, pos ∈ l1 →
           strategicScore2 b aiPlayer pos < strategicScore2 b aiPlayer best) ∧
        (∀ pos, pos ∈ l2 →
           strategicScore2 b aiPlayer pos ≤ strategicScore2 b aiPlayer best)
  end.
Proof.
  unfold findStrategicMove.
  destruct (sortByScore _) as [|best rest] eqn:Hs.
  - apply sortByScore_nil in Hs. by apply fmap_nil_inv in Hs.
  - apply sortByScore_head in Hs as (l1 & l2 & Heq & Hl1 & Hl2).
    apply fmap_app_inv in Heq as (k1 & k2' & -> & Hk2 & ->).
    symmetry in Hk2. apply fmap_cons_inv in Hk2 as (p & k2 & -> & -> & ->).
    exists k1, k2. split; [done|]. simpl in *. split.
    + intros pos Hpos. apply (Hl1 (pos, strategicScore2 b aiPlayer pos)).
      apply list_elem_of_fmap. eauto.
    + intros pos Hpos. apply (Hl2 (pos, strategicScore2 b aiPlayer pos)).
      apply list_elem_of_fmap. eauto.
Qed.

(** X7.  [findStrategicMove] returns [null] only for an empty list of
    positions; otherwise it returns the first position of the list whose
    score is the largest. *)
Theorem findStrategicMove_first_maximum b aiPlayer humanPlayer emptyPositions :
  (findStrategicMove b aiPlayer humanPlayer emptyPositions = None ↔
     emptyPositions = []) ∧
  ∀ best, findStrategicMove b aiPlayer humanPlayer emptyPositions = Some best →
    ∃ l1 l2, emptyPositions = l1 ++ best :: l2 ∧
      (∀ pos, pos ∈ l1 →
         strategicScore2 b aiPlayer pos < strategicScore2 b aiPlayer best) ∧
      (∀ pos, pos ∈ l2 →
         strategicScore2 b aiPlayer pos ≤ strategicScore2 b aiPlayer best).
Proof.
  pose proof (findStrategicMove_spec b aiPlayer humanPlayer emptyPositions) as H.
  destruct (findStrategicMove _ _ _ _) as [best|].
  - split.
    + split; [done|]. intros ->. destruct H as (l1 & l2 & Heq & _).
      by destruct l1.
    + by intros ? [= <-].
  - split; [done|]. by intros.
Qed.

(** The winning-move scan on the empty cells of a board. *)
Lemma findWinningMove_empty b player :
  findWinningMove b player (getEmptyPositions b) =
    (b, find (λ pos, checkWinAtPosition (setCell b pos.1 pos.2 (Some player))
                       pos.1 pos.2 player) (getEmptyPositions b)).
Proof.
  apply findWinningMove_spec. by intros pos [_ ?]%elem_of_getEmptyPositions.
Qed.

(** X8.  [findWinningMove] on the empty cells of a board takes every trial
    stone back: the board after the call is the board before it.  It returns
    a cell at which the player wins in one move, and [null] exactly when
    there is no such cell. *)
Theorem findWinningMove_restores_board b player :
  wfBoard b →
  let r := findWinningMove b player (getEmptyPositions b) in
  r.1 = b ∧
  (r.2 = None ↔ ∀ pos, ¬ winningCell b player pos) ∧
  (∀ pos, r.2 = Some pos → winningCell b player pos).
Proof.
  intros _. cbn zeta. rewrite findWinningMove_empty. cbn [fst snd].
  split; [done|]. split.
  - split.
    + intros Hnone pos [m Hm]%winningCell_find. congruence.
    + intros Hno. destruct (find _ _) as [m|] eqn:Hm; [|done].
      apply find_winningCell in Hm. by destruct (Hno m).
  - intros pos. apply find_winningCell.
Qed.

Lemma findWinningMove_restores_board_witness :
  let r := findWinningMove whiteFourBoard white (getEmptyPositions whiteFourBoard) in
  r.1 = whiteFourBoard ∧
  (r.2 = None ↔ ∀ pos, ¬ winningCell whiteFourBoard white pos) ∧
  (∀ pos, r.2 = Some pos → winningCell whiteFourBoard white pos).
Proof.
  apply (findWinningMove_restores_board whiteFourBoard white).
  split; [reflexivity|]. vm_compute. repeat constructor.
Defined.

Lemma findThreatMove_elem b player emptyPositions pos :
  findThreatMove b player emptyPositions = Some pos → pos ∈ emptyPositions.
Proof. unfold findThreatMove. by intros [?%list_elem_of_In _]%find_some. Qed.

(** What [getBestMove] returns, in terms of the empty cells. *)
Lemma getBestMove_spec randomIndex b aiPlayer humanPlayer :
  (getBestMove randomIndex b aiPlayer humanPlayer).1 = b ∧
  match (getBestMove randomIndex b aiPlayer humanPlayer).2 with
  | None => getEmptyPositions b = []
  | Some pos => pos ∈ getEmptyPositions b
  end ∧
  ∀ j, getBestMove j b aiPlayer humanPlayer
       = getBestMove randomIndex b aiPlayer humanPlayer.
Proof.
  unfold getBestMove.
  destruct (getEmptyPositions b) as [|e E] eqn:HE; [done|]. rewrite <- HE.
  rewrite bool_decide_eq_false_2 by (rewrite HE; done).
  cbv zeta. rewrite findWinningMove_empty. cbn [fst snd].
  match goal with
  | |- context [match find ?f ?l with _ => _ end] =>
      destruct (find f l) as [m|] eqn:H1
  end.
  { split; [done|]. split; [|done]. by apply find_some in H1 as [?%list_elem_of_In _]. }
  rewrite findWinningMove_empty. cbn [fst snd].
  match goal with
  | |- context [match find ?f ?l with _ => _ end] =>
      destruct (find f l) as [m|] eqn:H2
  end.
  { split; [done|]. split; [|done]. by apply find_some in H2 as [?%list_elem_of_In _]. }
  destruct (findThreatMove b humanPlayer _) as [m|] eqn:H3.
  { split; [done|]. split; [|done]. by apply findThreatMove_elem in H3. }
  destruct (findThreatMove b aiPlayer _) as [m|] eqn:H4.
  { split; [done|]. split; [|done]. by apply findThreatMove_elem in H4. }
  pose proof (findStrategicMove_spec b aiPlayer humanPlayer (getEmptyPositions b)) as H5.
  destruct (findStrategicMove _ _ _ _) as [m|].
  - split; [done|]. split; [|done]. destruct H5 as (l1 & l2 & -> & _).
    apply elem_of_app. right. by left.
  - rewrite HE in H5. done.
Qed.

(** X9.  [getBestMove] leaves the board as it was; it returns [null] exactly
    when the board has no empty cell, and otherwise an empty cell of the
    board; the random fallback is never reached, so the result does not
    depend on the random source. *)
Theorem getBestMove_returns_empty_cell randomIndex b aiPlayer humanPlayer :
  wfBoard b →
  let r := getBestMove randomIndex b aiPlayer humanPlayer in
  r.1 = b ∧
  (r.2 = None ↔ ∀ row col, inBounds row col = true → cellEmpty b row col = false) ∧
  (∀ pos, r.2 = Some pos →
     inBounds pos.1 pos.2 = true ∧ cellAt b pos.1 pos.2 = Some None) ∧
  (∀ j, getBestMove j b aiPlayer humanPlayer = r).
Proof.
  intros _. cbn zeta.
  destruct (getBestMove_spec randomIndex b aiPlayer humanPlayer) as (Hb & Hr & Hj).
  split; [done|]. split; [|split; [|done]].
  - destruct (getBestMove _ _ _ _).2 as [pos|].
    + split; [done|]. intros Hfull.
      apply elem_of_getEmptyPositions in Hr as [Hin He]. by rewrite Hfull in He.
    + split; [|done]. intros _ row col Hin.
      destruct (cellEmpty b row col) eqn:He; [|done].
      assert (Hrc : (row, col) ∈ getEmptyPositions b)
        by by apply elem_of_getEmptyPositions.
      rewrite Hr in Hrc. by apply elem_of_nil in Hrc.
  - intros pos Hpos. rewrite Hpos in Hr.
    apply elem_of_getEmptyPositions in Hr as [Hin He]. by apply cellEmpty_spec in He.
Qed.

Lemma getBestMove_returns_empty_cell_witness :
  let r := getBestMove 0 whiteFourBoard black white in
  r.1 = whiteFourBoard ∧
  (r.2 = None ↔
     ∀ row col, inBounds row col = true → cellEmpty whiteFourBoard row col = false) ∧
  (∀ pos, r.2 = Some pos →
     inBounds pos.1 pos.2 = true ∧ cellAt whiteFourBoard pos.1 pos.2 = Some None) ∧
  (∀ j, getBestMove j whiteFourBoard black white = r).
Proof.
  apply (getBestMove_returns_empty_cell 0 whiteFourBoard black white).
  split; [reflexivity|]. vm_compute. repeat constructor.
Defined.

(** X10.  The move that [getBestMove] returns is accepted by [makeMove] when
    it is the AI's turn in a game that is not over. *)
Theorem ai_move_is_accepted now randomIndex g aiPlayer humanPlayer pos :
  wfBoard (board g) → gameOver g = false → currentPlayer g = aiPlayer →
  (getBestMove randomIndex (board g) aiPlayer humanPlayer).2 = Some pos →
  success (makeMove now g pos.1 pos.2 aiPlayer).2 = true ∧
  cellAt (board (makeMove now g pos.1 pos.2 aiPlayer).1) pos.1 pos.2
    = Some (Some aiPlayer).
Proof.
  intros Hwf Hover Hturn Hpos.
  destruct (getBestMove_spec randomIndex (board g) aiPlayer humanPlayer) as (_ & Hr & _).
  rewrite Hpos in Hr. apply elem_of_getEmptyPositions in Hr as [Hin He].
  assert (Hv : isValidMove g pos.1 pos.2 aiPlayer = Valid).
  { unfold isValidMove. pose proof Hin as Hb%inBounds_spec.
    replace ((pos.1 <? 0) || (pos.1 >=? 19) || (pos.2 <? 0) || (pos.2 >=? 19))
      with false by (symmetry; rewrite !orb_false_iff; lia).
    rewrite He, Hover. simpl. by rewrite bool_decide_eq_true_2. }
  assert (Hs : success (makeMove now g pos.1 pos.2 aiPlayer).2 = true).
  { unfold makeMove. by rewrite Hv. }
  split; [done|].
  pose proof (makeMove_ok _ _ _ _ _ Hs) as (_ & -> & _).
  rewrite cellAt_setCell by done. by rewrite bool_decide_eq_true_2.
Qed.

Lemma ai_move_is_accepted_witness :
  let g := setCurrentPlayer white (setBoard whiteFourBoard freshGame) in
  success (makeMove 2 g 9 4 white).2 = true ∧
  cellAt (board (makeMove 2 g 9 4 white).1) 9 4 = Some (Some white).
Proof.
  intros g.
  apply (ai_move_is_accepted 2 0 g white black (9, 4)).
  - split; [reflexivity|]. vm_compute. repeat constructor.
  - reflexivity.
  - reflexivity.
  - vm_compute. reflexivity.
Defined.

(** ** The three win tests *)

Lemma localCountLoop_countLoop l cellOf idxs count :
  localCountLoop l cellOf idxs count
  = countLoop (lBoard l) (lCurrentPlayer l) cellOf idxs count.
Proof.
  revert count. induction idxs as [|i rest IH]; intros count; simpl; [done|].
  change (isValidPosition (cellOf i).1 (cellOf i).2
          && cellIs (lBoard l) (cellOf i).1 (cellOf i).2 (lCurrentPlayer l))
    with (holds (lBoard l) (lCurrentPlayer l) (cellOf i)).
  destruct (holds _ _ _); [apply IH|done].
Qed.

Lemma localCheckWin_checkWinAtPosition l row col :
  localCheckWin l row col
  = checkWinAtPosition (lBoard l) row col (lCurrentPlayer l).
Proof.
  unfold localCheckWin, checkWinAtPosition, directions, countDir. cbn [existsb fst snd].
  by rewrite !localCountLoop_countLoop.
Qed.

(** X11.  The win test of the game ([checkWin]), that of the AI player
    ([checkWinAtPosition]) and that of the client ([checkWin] of client.js,
    for the colour to move) give the same answer on every board, cell and
    colour. *)
Theorem win_tests_agree b row col player :
  checkWinAtPosition b row col player = won (checkWin b row col player) ∧
  ∀ l, lBoard l = b → lCurrentPlayer l = player →
    localCheckWin l row col = won (checkWin b row col player).
Proof.
  split; [apply checkWinAtPosition_checkWin|].
  intros l <- <-. by rewrite localCheckWin_checkWinAtPosition, checkWinAtPosition_checkWin.
Qed.

(** ** Threats of four *)

Lemma count_window4 (h : Z → bool) :
  (4 <=? 1 + Z.of_nat (runLength h [1; 2; 3])
           + Z.of_nat (runLength (λ i, h (- i)) [1; 2; 3]))
  = window4 h.
Proof.
  unfold window4. cbn [existsb forallb runLength].
  repeat match goal with
         | |- context [h ?e] =>
             progress (let v := eval vm_compute in e in change e with v)
         end.
  destruct (h 1), (h 2), (h 3), (h (-1)), (h (-2)), (h (-3)); vm_compute; reflexivity.
Qed.

Lemma elem_of_0_to_3 (k : Z) : k ∈ [0; 1; 2; 3] ↔ 0 ≤ k < 4.
Proof. rewrite !elem_of_cons, elem_of_nil. lia. Qed.

Lemma window4_spec (h : Z → bool) :
  window4 h = true ↔
  ∃ k, 0 ≤ k < 4 ∧ ∀ j, 0 ≤ j < 4 → j ≠ k → h (j - k) = true.
Proof.
  unfold window4. rewrite existsb_exists. split.
  - intros (k & Hk%list_elem_of_In%elem_of_0_to_3 & Hall). exists k. split; [done|].
    intros j Hj Hne. rewrite forallb_forall in Hall.
    specialize (Hall j). rewrite orb_true_iff in Hall.
    destruct Hall as [?%Z.eqb_eq|]; [by apply list_elem_of_In, elem_of_0_to_3|done|done].
  - intros (k & Hk & Hall). exists k. split; [by apply list_elem_of_In, elem_of_0_to_3|].
    apply forallb_forall. intros j Hj%list_elem_of_In%elem_of_0_to_3.
    apply orb_true_iff. destruct (decide (j = k)) as [->|Hne].
    + left. apply Z.eqb_refl.
    + right. auto.
Qed.

Lemma threat_test_spec b player pos :
  existsb (λ d, 4 <=? countDir b pos.1 pos.2 player [1; 2; 3] d) directions = true
  ↔ threatCell b player pos.
Proof.
  rewrite existsb_exists. unfold threatCell. split.
  - intros (d & Hd%list_elem_of_In & H4).
    rewrite countDir_count, count_window4 in H4.
    apply window4_spec in H4 as (k & Hk & Hall). exists d, k. done.
  - intros (d & k & Hd & Hk & Hall). exists d. split; [by apply list_elem_of_In|].
    rewrite countDir_count, count_window4. apply window4_spec. exists k. done.
Qed.

(** X12.  [findThreatMove] returns the first position of the list that
    completes four in a row for the player (three of the player's stones on
    the other cells of a line of four through it), and [null] exactly when
    no position of the list does. *)
Theorem findThreatMove_completes_four b player emptyPositions :
  (findThreatMove b player emptyPositions = None ↔
     ∀ pos, pos ∈ emptyPositions → ¬ threatCell b player pos) ∧
  ∀ pos, findThreatMove b player emptyPositions = Some pos →
    threatCell b player pos ∧
    ∃ l1 l2, emptyPositions = l1 ++ pos :: l2 ∧
             ∀ p, p ∈ l1 → ¬ threatCell b player p.
Proof.
  unfold findThreatMove.
  induction emptyPositions as [|p rest [IHnone IHsome]]; cbn [find].
  - split; [split; [by intros _ ? ?%elem_of_nil|done]|done].
  - destruct (existsb (λ d, 4 <=? countDir b p.1 p.2 player [1; 2; 3] d) directions)
      eqn:Ht.
    + apply threat_test_spec in Ht. split.
      * split; [done|]. intros Hno. destruct (Hno p); [by left|done].
      * intros pos [= <-]. split; [done|]. exists [], rest.
        split; [done|]. by intros ? ?%elem_of_nil.
    + assert (Hp : ¬ threatCell b player p).
      { intros Hc%threat_test_spec. congruence. }
      split.
      * rewrite IHnone. split.
        -- intros Hno pos [->|Hin]%elem_of_cons; auto.
        -- intros Hno pos Hin. apply Hno. by right.
      * intros pos Hpos. destruct (IHsome pos Hpos) as (Hc & l1 & l2 & -> & Hl1).
        split; [done|]. exists (p :: l1), l2. split; [done|].
        intros q [->|Hq]%elem_of_cons; auto.
Qed.

(** ** The local game of the client *)

Lemma localInitializeBoard_eq : localInitializeBoard = initializeBoard.
Proof. reflexivity. Qed.

(** X13.  The local game of client.js follows the server's game: from the
    same position a local move is accepted exactly when the server accepts
    the move for the colour to move, and both reach the same board; below 361
    moves they also agree on turn, end and winner.  At the 361st move without
    a win the server ends the game as a draw, and the local game goes on to
    the next turn.  A local reset gives the position of the server's reset. *)
Theorem local_game_follows_server now l g row col :
  sameGame l g →
  let lr := localMakeMove l row col in
  let sr := makeMove now g row col (currentPlayer g) in
  lr.2 = success sr.2 ∧
  lBoard lr.1 = board sr.1 ∧
  (moveCount g + 1 < 361 → sameGame lr.1 sr.1) ∧
  (361 ≤ moveCount g + 1 → lr.2 = true → lGameOver lr.1 = false →
     gameOver sr.1 = true ∧ winner sr.1 = Some "draw" ∧
     lCurrentPlayer lr.1 = otherColor (currentPlayer sr.1)) ∧
  sameGame (localResetGame l) (resetGame now g).
Proof.
  intros (Hb & Hc & Ho & Hw). cbn zeta.
  assert (Hreset : sameGame (localResetGame l) (resetGame now g)) by by repeat split.
  unfold localMakeMove, makeMove, localIsValidMove, isValidMove.
  rewrite Hb, Ho, (bool_decide_eq_true_2 (currentPlayer g = currentPlayer g)) by done.
  destruct ((row <? 0) || (row >=? 19) || (col <? 0) || (col >=? 19)); simpl;
    [repeat split; first [done | congruence]|].
  destruct (cellEmpty (board g) row col); simpl;
    [|repeat split; first [done | congruence]].
  destruct (gameOver g) eqn:Hover; simpl;
    [repeat split; first [done | congruence]|].
  rewrite localCheckWin_checkWinAtPosition, checkWinAtPosition_checkWin. simpl.
  rewrite Hc.
  destruct (won (checkWin _ row col (currentPlayer g))) eqn:Hwon; simpl.
  - repeat split; first [done | congruence].
  - destruct (moveCount g + 1 >=? 19 * 19) eqn:Hfull; simpl.
    + apply Z.geb_le in Hfull. repeat split; first [done | congruence | lia].
    + assert (moveCount g + 1 < 361).
      { rewrite Z.geb_leb in Hfull. apply Z.leb_gt in Hfull. lia. }
      repeat split; first [done | congruence | lia].
Qed.

Lemma local_game_follows_server_witness :
  let l := mkLocalGame initializeBoard black false None in
  let lr := localMakeMove l 9 9 in
  let sr := makeMove 1 freshGame 9 9 (currentPlayer freshGame) in
  lr.2 = success sr.2 ∧
  lBoard lr.1 = board sr.1 ∧
  (moveCount freshGame + 1 < 361 → sameGame lr.1 sr.1) ∧
  (361 ≤ moveCount freshGame + 1 → lr.2 = true → lGameOver lr.1 = false →
     gameOver sr.1 = true ∧ winner sr.1 = Some "draw" ∧
     lCurrentPlayer lr.1 = otherColor (currentPlayer sr.1)) ∧
  sameGame (localResetGame l) (resetGame 1 freshGame).
Proof.
  apply (local_game_follows_server 1 (mkLocalGame initializeBoard black false None)
           freshGame 9 9).
  repeat split.
Defined.

(** ** Handlers: unknown games and foreign sockets *)

Lemma bool_decide_seat_false (seat : option string) socket :
  seat ≠ Some socket → bool_decide (seat = Some socket) = false.
Proof. apply bool_decide_eq_false_2. Qed.

(** X14.  A request that names a game which does not exist, or in which the
    sender holds no seat, changes nothing on the server and is answered by a
    single event to the sender: for moves, restart votes, new-game proposals
    and answers, and AI resets. *)
Theorem no_such_game_or_seat now s socket req gameId :
  requestGameId req = Some gameId →
  games s !! gameId = None ∨
  (∃ game, games s !! gameId = Some game ∧
           player1 game ≠ Some socket ∧ player2 game ≠ Some socket) →
  (handle now s socket req).1 = s ∧
  ∃ event message, (handle now s socket req).2 = [Emit socket event message].
Proof.
  intros Hreq Hcase.
  destruct req; simpl in Hreq; try done; injection Hreq as ->; simpl;
    unfold onMakeMove, onRequestStartOver, onRequestNewGame, onRespondToNewGame,
      onResetAIGame, usernameRequired;
    (destruct Hcase as [Hnone|(game & Hgame & H1 & H2)];
     [rewrite Hnone
     |rewrite Hgame, ?(bool_decide_seat_false _ _ H1), ?(bool_decide_seat_false _ _ H2)]);
    simpl; repeat case_match; simpl; eauto.
Qed.

Lemma no_such_game_or_seat_witness :
  (handle 3 demoServer "s3" (ReqMakeMove "g1" 9 9)).1 = demoServer ∧
  ∃ event message,
    (handle 3 demoServer "s3" (ReqMakeMove "g1" 9 9)).2 = [Emit "s3" event message].
Proof.
  apply (no_such_game_or_seat 3 demoServer "s3" (ReqMakeMove "g1" 9 9) "g1").
  - reflexivity.
  - right. exists freshGame. split; [reflexivity|]. split; discriminate.
Defined.

(** ** Handlers: restart votes *)

(** X15.  In a game against the AI a single restart vote of the human resets
    the game at once and leaves no vote behind. *)
Theorem ai_game_restarts_on_one_vote now s socket gameId game :
  hasUsername s socket = true → falsy gameId = false →
  games s !! gameId = Some game → isAIGame game = true →
  player1 game = Some socket →
  let r := onRequestStartOver now s socket gameId in
  games r.1 = <[gameId := resetGame now game]> (games s) ∧
  startOverRequests r.1 !! gameId = None ∧
  r.2 = [Emit socket "gameRestarted" ""].
Proof.
  intros Hname Hgid Hgame Hai Hseat r. subst r.
  unfold onRequestStartOver. rewrite Hname, Hgid, Hgame, Hai. simpl.
  rewrite participant_guard by auto. rewrite orb_true_r. simpl.
  rewrite Hseat. simpl. split; [done|]. split; [apply lookup_delete_eq|done].
Qed.

Lemma ai_game_restarts_on_one_vote_witness :
  let game := (makeMove 1 (newGame "g2" 0 (Some "s3") None "carol" "AI Player" true)
                 9 9 black).1 in
  let s := setConnectedPlayers {[ "s3" := "carol" ]} (setGames {[ "g2" := game ]} demoServer) in
  let r := onRequestStartOver 5 s "s3" "g2" in
  games r.1 = <[ "g2" := resetGame 5 game]> (games s) ∧
  startOverRequests r.1 !! "g2" = None ∧
  r.2 = [Emit "s3" "gameRestarted" ""].
Proof.
  intros game s.
  apply (ai_game_restarts_on_one_vote 5 s "s3" "g2" game); reflexivity.
Defined.

(** X16.  In a two-player game the votes to restart are counted by socket,
    and a restart needs the votes of two different sockets.  While the vote
    set of the game holds no socket other than the sender's, the sender's
    vote is recorded, the other seat is asked, and the game is left as it is,
    however often the sender votes.  When the set holds one socket other than
    the sender's, whether or not that socket holds a seat of the game, the
    sender's vote resets the game and deletes the vote set. *)
Theorem restart_needs_two_sockets now s socket gameId game other :
  hasUsername s socket = true → falsy gameId = false →
  games s !! gameId = Some game → isAIGame game = false →
  (player1 game = Some socket ∧ player2 game = Some other ∨
   player1 game ≠ Some socket ∧ player2 game = Some socket ∧ player1 game = Some other) →
  let r := onRequestStartOver now s socket gameId in
  ((startOverRequests s !! gameId = None ∨
    startOverRequests s !! gameId = Some {[socket]}) →
     games r.1 = games s ∧
     startOverRequests r.1 !! gameId = Some {[socket]} ∧
     r.2 = [Emit other "startOverRequested" ""] ∧
     onRequestStartOver now r.1 socket gameId = r) ∧
  (∀ voter, voter ≠ socket → startOverRequests s !! gameId = Some {[voter]} →
     games r.1 = <[gameId := resetGame now game]> (games s) ∧
     startOverRequests r.1 !! gameId = None ∧
     r.2 = [Emit other "startOverRequested" ""; Broadcast gameId "gameRestarted"]).
Proof.
  intros Hname Hgid Hgame Hai Hseat.
  assert (Ho : otherPlayerOf (bool_decide (player1 game = Some socket)) game = Some other).
  { unfold otherPlayerOf. destruct Hseat as [[H1 H2]|(H1 & H2 & H3)].
    - by rewrite bool_decide_eq_true_2.
    - by rewrite bool_decide_eq_false_2. }
  assert (Hrun : ∀ s0, hasUsername s0 socket = true → games s0 !! gameId = Some game →
            (startOverRequests s0 !! gameId = None ∨
             startOverRequests s0 !! gameId = Some {[socket]}) →
            onRequestStartOver now s0 socket gameId =
              (setStartOverRequests (<[gameId := {[socket]}]> (startOverRequests s0)) s0,
               [Emit other "startOverRequested" ""])).
  { intros s0 Hn0 Hg0 Hv0. unfold onRequestStartOver. rewrite Hn0, Hgid, Hg0, Hai. simpl.
    rewrite participant_guard by tauto.
    assert (Hreq : default ∅ (startOverRequests s0 !! gameId) ∪ {[socket]}
                   = ({[socket]} : gset string)).
    { destruct Hv0 as [-> | ->]; cbn [from_option]; unfold Datatypes.id.
      - apply (left_id_L ∅ _).
      - apply (idemp_L _). }
    rewrite Hreq, size_singleton. simpl.
    rewrite Ho. done. }
  cbn zeta. split.
  - intros Hvotes. rewrite (Hrun s) by done. cbn [fst snd].
    split; [done|]. split; [apply lookup_insert_eq|]. split; [done|].
    rewrite Hrun; simpl; try done.
    + f_equal. destruct s; simpl. unfold setStartOverRequests. simpl.
      by rewrite insert_insert_eq.
    + right. apply lookup_insert_eq.
  - intros voter Hne Hvotes.
    assert (Hsize : size (default ∅ (startOverRequests s !! gameId) ∪ {[socket]})
                    = 2%nat).
    { rewrite Hvotes. cbn [from_option]. unfold Datatypes.id. rewrite size_union.
      - by rewrite !size_singleton.
      - apply disjoint_singleton_l. by intros ?%elem_of_singleton. }
    unfold onRequestStartOver. rewrite Hname, Hgid, Hgame, Hai. simpl.
    rewrite participant_guard by tauto. rewrite Ho.
    rewrite (bool_decide_eq_true_2 _ Hsize). simpl.
    split; [done|]. split; [apply lookup_delete_eq|done].
Qed.

Lemma restart_needs_two_sockets_witness :
  (let r := onRequestStartOver 5 demoServer "s1" "g1" in
   games r.1 = games demoServer ∧
   startOverRequests r.1 !! "g1" = Some {[ "s1" ]} ∧
   r.2 = [Emit "s2" "startOverRequested" ""] ∧
   onRequestStartOver 5 r.1 "s1" "g1" = r) ∧
  (let s := setStartOverRequests {[ "g1" := {[ "s3" ]} ]} demoServer in
   let r := onRequestStartOver 5 s "s1" "g1" in
   games r.1 = <["g1" := resetGame 5 freshGame]> (games s) ∧
   startOverRequests r.1 !! "g1" = None ∧
   r.2 = [Emit "s2" "startOverRequested" ""; Broadcast "g1" "gameRestarted"]).
Proof.
  split.
  - apply (restart_needs_two_sockets 5 demoServer "s1" "g1" freshGame "s2").
    + reflexivity.
    + reflexivity.
    + reflexivity.
    + reflexivity.
    + left. split; reflexivity.
    + left. reflexivity.
  - intros s.
    apply (restart_needs_two_sockets 5 s "s1" "g1" freshGame "s2") with (voter := "s3").
    + reflexivity.
    + reflexivity.
    + reflexivity.
    + reflexivity.
    + left. split; reflexivity.
    + discriminate.
    + reflexivity.
Defined.

(** ** Handlers: leaving, quitting and reconnecting *)

Lemma setPlayerGameMap_delete_absent s name :
  playerGameMap s !! name = None →
  setPlayerGameMap (delete name (playerGameMap s)) s = s.
Proof. intros H. rewrite delete_id by done. by destruct s. Qed.

(** X17.  [leaveGame] by a player whose name is mapped to a live game deletes
    the game and the mappings of both its players at once, takes the sender
    off the waiting list, and leaves the votes, the history and the names as
    they are.  Afterwards a reconnect under either player's name fails with
    "No active game found for this player". *)
Theorem leaveGame_ends_game s socket playerName gameId game :
  connectedPlayers s !! socket = Some playerName →
  playerGameMap s !! playerName = Some gameId → falsy gameId = false →
  games s !! gameId = Some game →
  let r := onLeaveGame s socket in
  games r.1 = delete gameId (games s) ∧
  playerGameMap r.1 =
    delete (player2Name game) (delete (player1Name game) (playerGameMap s)) ∧
  waitingPlayers r.1 = removeFirst socket (waitingPlayers s) ∧
  startOverRequests r.1 = startOverRequests s ∧
  gameHistory r.1 = gameHistory s ∧
  connectedPlayers r.1 = connectedPlayers s ∧
  ∀ socket' name',
    connectedPlayers s !! socket' = Some name' →
    name' = player1Name game ∨ name' = player2Name game →
    onReconnectToGame r.1 socket' =
      (r.1, [Emit socket' "reconnectError" "No active game found for this player"]).
Proof.
  intros Hname Hmap Hgid Hgame r. subst r.
  unfold onLeaveGame. rewrite Hname, Hmap, Hgid, Hgame. cbn [fst snd].
  repeat (split; [done|]).
  intros socket' name' Hname' Hor. unfold onReconnectToGame. simpl.
  rewrite Hname'.
  assert (Hnone : delete (player2Name game) (delete (player1Name game) (playerGameMap s))
                  !! name' = None).
  { destruct Hor as [-> | ->].
    - destruct (decide (player2Name game = player1Name game)) as [->|Hne].
      + apply lookup_delete_eq.
      + rewrite lookup_delete_ne by done. apply lookup_delete_eq.
    - apply lookup_delete_eq. }
  rewrite Hnone. f_equal.
  match goal with |- setPlayerGameMap _ ?s0 = _ =>
    apply (setPlayerGameMap_delete_absent s0 name') end.
  done.
Qed.

Lemma leaveGame_ends_game_witness :
  let r := onLeaveGame demoServer "s1" in
  games r.1 = delete "g1" (games demoServer) ∧
  playerGameMap r.1 =
    delete (player2Name freshGame)
      (delete (player1Name freshGame) (playerGameMap demoServer)) ∧
  waitingPlayers r.1 = removeFirst "s1" (waitingPlayers demoServer) ∧
  startOverRequests r.1 = startOverRequests demoServer ∧
  gameHistory r.1 = gameHistory demoServer ∧
  connectedPlayers r.1 = connectedPlayers demoServer ∧
  ∀ socket' name',
    connectedPlayers demoServer !! socket' = Some name' →
    name' = player1Name freshGame ∨ name' = player2Name freshGame →
    onReconnectToGame r.1 socket' =
      (r.1, [Emit socket' "reconnectError" "No active game found for this player"]).
Proof.
  apply (leaveGame_ends_game demoServer "s1" "alice" "g1" freshGame); reflexivity.
Defined.

(** X18.  A successful [reconnectToGame] changes nothing of the game but the
    socket of the seat that bears the sender's name and the grace timer,
    which it clears: board, turn, outcome, move count and move log are as
    before, and so are all other games. *)
Theorem reconnect_keeps_the_game s socket playerName gameId game :
  connectedPlayers s !! socket = Some playerName →
  playerGameMap s !! playerName = Some gameId → falsy gameId = false →
  games s !! gameId = Some game →
  player1Name game = playerName ∨ player2Name game = playerName →
  let r := onReconnectToGame s socket in
  r.2 = [Emit socket "reconnectedToGame" ""] ∧
  (∀ gameId', gameId' ≠ gameId → games r.1 !! gameId' = games s !! gameId') ∧
  ∃ game', games r.1 !! gameId = Some game' ∧
    board game' = board game ∧ currentPlayer game' = currentPlayer game ∧
    winner game' = winner game ∧ gameOver game' = gameOver game ∧
    moveCount game' = moveCount game ∧ moveHistory game' = moveHistory game ∧
    id game' = id game ∧
    player1Name game' = player1Name game ∧ player2Name game' = player2Name game ∧
    disconnectTimeout game' = None ∧
    (player1Name game = playerName →
       player1 game' = Some socket ∧ player2 game' = player2 game) ∧
    (player1Name game ≠ playerName →
       player2 game' = Some socket ∧ player1 game' = player1 game).
Proof.
  intros Hname Hmap Hgid Hgame Hseat r. subst r.
  unfold onReconnectToGame. rewrite Hname, Hmap, Hgid, Hgame.
  assert (Hpart : negb (bool_decide (player1Name game = playerName))
                  && negb (bool_decide (player2Name game = playerName)) = false).
  { destruct Hseat as [H1|H2].
    - by rewrite (bool_decide_eq_true_2 _ H1).
    - rewrite (bool_decide_eq_true_2 _ H2). apply andb_false_r. }
  rewrite Hpart. cbn [fst snd]. split; [done|]. split.
  - intros gameId' Hne. simpl. by rewrite lookup_insert_ne.
  - eexists. split; [simpl; apply lookup_insert_eq|].
    case_bool_decide; simpl; repeat split; try done.
Qed.

Lemma reconnect_keeps_the_game_witness :
  let s := setConnectedPlayers {[ "s1" := "alice"; "s2" := "bob"; "s3" := "alice" ]}
             demoServer in
  let r := onReconnectToGame s "s3" in
  r.2 = [Emit "s3" "reconnectedToGame" ""] ∧
  (∀ gameId', gameId' ≠ "g1" → games r.1 !! gameId' = games s !! gameId') ∧
  ∃ game', games r.1 !! "g1" = Some game' ∧
    board game' = board freshGame ∧ currentPlayer game' = currentPlayer freshGame ∧
    winner game' = winner freshGame ∧ gameOver game' = gameOver freshGame ∧
    moveCount game' = moveCount freshGame ∧ moveHistory game' = moveHistory freshGame ∧
    id game' = id freshGame ∧
    player1Name game' = player1Name freshGame ∧
    player2Name game' = player2Name freshGame ∧
    disconnectTimeout game' = None ∧
    (player1Name freshGame = "alice" →
       player1 game' = Some "s3" ∧ player2 game' = player2 freshGame) ∧
    (player1Name freshGame ≠ "alice" →
       player2 game' = Some "s3" ∧ player1 game' = player1 freshGame).
Proof.
  intros s.
  apply (reconnect_keeps_the_game s "s3" "alice" "g1" freshGame); try reflexivity.
  left. reflexivity.
Defined.

(** The [makeMove] handler applies [makeMove] for the colour of the sender's
    seat to the game. *)
Lemma onMakeMove_seat now s socket gameId row col game player :
  hasUsername s socket = true → falsy gameId = false →
  inBounds row col = true → games s !! gameId = Some game →
  (player = black ∧ player1 game = Some socket ∨
   player = white ∧ player1 game ≠ Some socket ∧ player2 game = Some socket) →
  games (onMakeMove now s socket gameId row col).1
    = <[gameId := (makeMove now game row col player).1]> (games s) ∧
  (success (makeMove now game row col player).2 = true →
   gameOver (makeMove now game row col player).1 = false →
   isAIGame game = true →
   (onMakeMove now s socket gameId row col).2
     = [Emit socket "gameUpdate" ""; Emit socket "moveConfirmed" "";
        SetTimeout "handleAIMove" gameId 500]).
Proof.
  intros Hname Hgid Hin Hgame Hseat. apply inBounds_spec in Hin.
  unfold onMakeMove. rewrite Hname, Hgid, Hgame. simpl.
  replace ((row <? 0) || (row >=? 19) || (col <? 0) || (col >=? 19)) with false
    by (symmetry; rewrite !orb_false_iff; lia).
  rewrite participant_guard by tauto.
  assert (Hpl : (if bool_decide (player1 game = Some socket) then black else white) = player).
  { destruct Hseat as [[-> H1]|(-> & H1 & H2)].
    - by rewrite bool_decide_eq_true_2.
    - by rewrite bool_decide_eq_false_2. }
  rewrite Hpl.
  assert (Hai : isAIGame (makeMove now game row col player).1 = isAIGame game).
  { unfold makeMove. destruct (isValidMove _ _ _ _); [|done].
    cbn zeta. repeat case_match; done. }
  destruct (makeMove now game row col player) as [g' res] eqn:Hm. cbn [fst snd] in *.
  destruct res as [over win turn|reason]; cbn [fst snd].
  - split.
    + by destruct (gameHistory _ !! gameId).
    + intros _ Hover Hgai. rewrite Hai, Hgai.
      assert (over = false) as ->.
      { revert Hm Hover. unfold makeMove. destruct (isValidMove _ _ _ _); [|done].
        intros [= <- <- _ _]. done. }
      done.
  - split; [done|]. done.
Qed.

Lemma reconnect_state s socket playerName gameId game :
  connectedPlayers s !! socket = Some playerName →
  playerGameMap s !! playerName = Some gameId → falsy gameId = false →
  games s !! gameId = Some game →
  player1Name game = playerName ∨ player2Name game = playerName →
  games (onReconnectToGame s socket).1
    = <[gameId := setDisconnectTimeout None
                    (if bool_decide (player1Name game = playerName)
                     then setPlayer1 (Some socket) game
                     else setPlayer2 (Some socket) game)]> (games s) ∧
  connectedPlayers (onReconnectToGame s socket).1 = connectedPlayers s.
Proof.
  intros Hname Hmap Hgid Hgame Hseat.
  unfold onReconnectToGame. rewrite Hname, Hmap, Hgid, Hgame.
  assert (Hpart : negb (bool_decide (player1Name game = playerName))
                  && negb (bool_decide (player2Name game = playerName)) = false).
  { destruct Hseat as [H1|H2].
    - by rewrite (bool_decide_eq_true_2 _ H1).
    - rewrite (bool_decide_eq_true_2 _ H2). apply andb_false_r. }
  by rewrite Hpart.
Qed.

(** X19.  After a reconnect under the name of the first seat the new socket
    holds that seat and moves for black, and the socket it replaced is no
    longer part of the game: its moves are refused and change nothing. *)
Theorem reconnect_transfers_the_seat now s socket playerName gameId game old row col :
  connectedPlayers s !! socket = Some playerName →
  playerGameMap s !! playerName = Some gameId → falsy gameId = false →
  games s !! gameId = Some game →
  player1Name game = playerName → player1 game = Some old →
  old ≠ socket → player2 game ≠ Some old →
  hasUsername s old = true → inBounds row col = true →
  let s' := (onReconnectToGame s socket).1 in
  ∃ game', games s' !! gameId = Some game' ∧
    player1 game' = Some socket ∧
    onMakeMove now s' old gameId row col
      = (s', [Emit old "moveError" "You are not part of this game"]) ∧
    games (onMakeMove now s' socket gameId row col).1
      = <[gameId := (makeMove now game' row col black).1]> (games s').
Proof.
  intros Hname Hmap Hgid Hgame Hseat Hold Hne H2 Holdname Hin s'.
  destruct (reconnect_state s socket playerName gameId game) as [Hgames Hcp]; auto.
  fold s' in Hgames, Hcp. rewrite bool_decide_eq_true_2 in Hgames by done.
  set (game' := setDisconnectTimeout None (setPlayer1 (Some socket) game)) in *.
  assert (Hg' : games s' !! gameId = Some game').
  { rewrite Hgames. apply lookup_insert_eq. }
  exists game'. split; [done|]. split; [done|]. split.
  - pose proof Hin as Hb%inBounds_spec.
    unfold onMakeMove, hasUsername. rewrite Hcp. fold (hasUsername s old).
    rewrite Holdname, Hgid, Hg'. simpl.
    replace ((row <? 0) || (row >=? 19) || (col <? 0) || (col >=? 19)) with false
      by (symmetry; rewrite !orb_false_iff; lia).
    rewrite (bool_decide_eq_false_2 (Some socket = Some old)) by congruence.
    rewrite (bool_decide_eq_false_2 (player2 game = Some old)) by done.
    done.
  - apply onMakeMove_seat; try done.
    + unfold hasUsername. rewrite Hcp, Hname. by apply bool_decide_eq_true_2.
    + left. done.
Qed.

Lemma reconnect_transfers_the_seat_witness :
  let s := setConnectedPlayers {[ "s1" := "alice"; "s2" := "bob"; "s3" := "alice" ]}
             demoServer in
  let s' := (onReconnectToGame s "s3").1 in
  ∃ game', games s' !! "g1" = Some game' ∧
    player1 game' = Some "s3" ∧
    onMakeMove 4 s' "s1" "g1" 9 9
      = (s', [Emit "s1" "moveError" "You are not part of this game"]) ∧
    games (onMakeMove 4 s' "s3" "g1" 9 9).1
      = <[ "g1" := (makeMove 4 game' 9 9 black).1]> (games s').
Proof.
  intros s.
  apply (reconnect_transfers_the_seat 4 s "s3" "alice" "g1" freshGame "s1" 9 9);
    try reflexivity; discriminate.
Defined.

(** X20.  [playerDisconnect] from any socket that names a game and one of its
    players deletes the game and the mappings of both players at once,
    whatever the state of the game; the other games, the waiting list, the
    votes and the names are left as they are, and the history of the game is
    closed with the reason "Player explicitly disconnected". *)
Theorem playerDisconnect_ends_game now s socket gameId playerName game :
  falsy gameId = false → falsy playerName = false →
  games s !! gameId = Some game →
  player1Name game = playerName ∨ player2Name game = playerName →
  let r := onPlayerDisconnect now s socket gameId playerName in
  games r.1 = delete gameId (games s) ∧
  playerGameMap r.1 =
    delete (player2Name game) (delete (player1Name game) (playerGameMap s)) ∧
  waitingPlayers r.1 = waitingPlayers s ∧
  startOverRequests r.1 = startOverRequests s ∧
  connectedPlayers r.1 = connectedPlayers s ∧
  playerNames r.1 = playerNames s ∧
  (∀ h, gameHistory s !! gameId = Some h →
     ∃ h', gameHistory r.1 !! gameId = Some h' ∧ hMoves h' = hMoves h ∧
           hEndedAt h' = Some now ∧
           hReason h' = Some "Player explicitly disconnected") ∧
  (∀ gameId', gameId' ≠ gameId → gameHistory r.1 !! gameId' = gameHistory s !! gameId').
Proof.
  intros Hgid Hname Hgame Hseat r. subst r.
  unfold onPlayerDisconnect. rewrite Hgid, Hname, Hgame. simpl.
  assert (Hpart : negb (bool_decide (player1Name game = playerName))
                  && negb (bool_decide (player2Name game = playerName)) = false).
  { destruct Hseat as [H1|H2].
    - by rewrite (bool_decide_eq_true_2 _ H1).
    - rewrite (bool_decide_eq_true_2 _ H2). apply andb_false_r. }
  rewrite Hpart. cbn [fst snd].
  destruct (gameHistory s !! gameId) as [h|] eqn:Hh; simpl.
  - repeat (split; [done|]). split.
    + intros ? [= <-]. eexists. split; [apply lookup_insert_eq|done].
    + intros gameId' Hne. by rewrite lookup_insert_ne.
  - repeat (split; [done|]). done.
Qed.

Lemma playerDisconnect_ends_game_witness :
  let r := onPlayerDisconnect 8 demoServer "s2" "g1" "bob" in
  games r.1 = delete "g1" (games demoServer) ∧
  playerGameMap r.1 =
    delete (player2Name freshGame)
      (delete (player1Name freshGame) (playerGameMap demoServer)) ∧
  waitingPlayers r.1 = waitingPlayers demoServer ∧
  startOverRequests r.1 = startOverRequests demoServer ∧
  connectedPlayers r.1 = connectedPlayers demoServer ∧
  playerNames r.1 = playerNames demoServer ∧
  (∀ h, gameHistory demoServer !! "g1" = Some h →
     ∃ h', gameHistory r.1 !! "g1" = Some h' ∧ hMoves h' = hMoves h ∧
           hEndedAt h' = Some 8 ∧
           hReason h' = Some "Player explicitly disconnected") ∧
  (∀ gameId', gameId' ≠ "g1" →
     gameHistory r.1 !! gameId' = gameHistory demoServer !! gameId').
Proof.
  apply (playerDisconnect_ends_game 8 demoServer "s2" "g1" "bob" freshGame);
    try reflexivity.
  right. reflexivity.
Defined.

(** ** Joining *)

Lemma holds_initializeBoard player p : holds initializeBoard player p = false.
Proof.
  unfold holds, cellIs. destruct (inBounds p.1 p.2) eqn:Hin; [simpl|done].
  rewrite initializeBoard_empty by done. by apply bool_decide_eq_false_2.
Qed.

(** The first stone on an empty board does not win. *)
Lemma single_stone_no_win row col player :
  inBounds row col = true →
  won (checkWin (setCell initializeBoard row col (Some player)) row col player) = false.
Proof.
  intros Hin. pose proof wfBoard_initializeBoard as Hwf.
  destruct (won _) eqn:Hwon; [|done].
  rewrite checkWin_window in Hwon by by apply holds_setCell_pivot.
  apply existsb_exists in Hwon as (d & Hd%list_elem_of_In & (k & Hk & Hall)%window5_spec).
  set (j := if decide (k = 0) then 1 else 0).
  assert (Hj : 0 ≤ j < 5 ∧ j - k ≠ 0) by (unfold j; case_decide; lia).
  destruct Hj as [Hj Hjk]. specialize (Hall j Hj). unfold along in Hall.
  rewrite holds_setCell_other, holds_initializeBoard in Hall; try done.
  intros [= H1 H2]. apply (directions_step d (j - k) Hd Hjk). f_equal; lia.
Qed.

(** The first move of a new game. *)
Lemma makeMove_first now gid now0 p1 p2 n1 n2 ai row col :
  inBounds row col = true →
  let g := newGame gid now0 p1 p2 n1 n2 ai in
  (makeMove now g row col black).2 = MoveOk false None white ∧
  board (makeMove now g row col black).1
    = setCell initializeBoard row col (Some black) ∧
  currentPlayer (makeMove now g row col black).1 = white ∧
  gameOver (makeMove now g row col black).1 = false.
Proof.
  intros Hin g. pose proof Hin as Hb%inBounds_spec.
  unfold makeMove, isValidMove. simpl.
  replace ((row <? 0) || (row >=? 19) || (col <? 0) || (col >=? 19)) with false
    by (symmetry; rewrite !orb_false_iff; lia).
  unfold cellEmpty. rewrite initializeBoard_empty by done. simpl.
  by rewrite single_stone_no_win.
Qed.

Lemma inLiveGame_true s playerName gameId :
  playerGameMap s !! playerName = Some gameId → falsy gameId = false →
  is_Some (games s !! gameId) → inLiveGame s playerName = true.
Proof.
  intros Hmap Hgid Hgame. unfold inLiveGame. rewrite Hmap, Hgid. simpl.
  by apply bool_decide_eq_true_2.
Qed.

(** X21.  [joinAIGame] by a named player who is in no live game creates a
    fresh game with the player on the black seat, no socket on the white
    seat and the name "AI Player" for it, and maps the player to it; the
    waiting list is not touched.  From then on further join requests of the
    player are ignored, and the player's first move, anywhere on the board,
    is accepted and arms the AI's reply. *)
Theorem joinAIGame_starts_game gid now s socket playerName :
  connectedPlayers s !! socket = Some playerName →
  inLiveGame s playerName = false → falsy gid = false →
  let r := onJoinAIGame gid now s socket in
  games r.1 !! gid
    = Some (newGame gid now (Some socket) None playerName "AI Player" true) ∧
  playerGameMap r.1 !! playerName = Some gid ∧
  waitingPlayers r.1 = waitingPlayers s ∧
  (∀ gid' now', onJoinAIGame gid' now' r.1 socket = (r.1, [])) ∧
  (∀ gid' now', onJoinGame gid' now' r.1 socket = Some (r.1, [])) ∧
  (∀ now' row col, inBounds row col = true →
     (onMakeMove now' r.1 socket gid row col).2
       = [Emit socket "gameUpdate" ""; Emit socket "moveConfirmed" "";
          SetTimeout "handleAIMove" gid 500] ∧
     ∃ g', games (onMakeMove now' r.1 socket gid row col).1 !! gid = Some g' ∧
           board g' = setCell initializeBoard row col (Some black) ∧
           currentPlayer g' = white).
Proof.
  intros Hname Hlive Hgid r. subst r.
  unfold onJoinAIGame. rewrite Hname, Hlive. cbn [fst snd].
  set (game := newGame gid now (Some socket) None playerName "AI Player" true).
  set (s' := setPlayerGameMap _ _).
  assert (Hg : games s' !! gid = Some game) by apply lookup_insert_eq.
  assert (Hm : playerGameMap s' !! playerName = Some gid) by apply lookup_insert_eq.
  assert (Hn : connectedPlayers s' !! socket = Some playerName) by done.
  assert (Hl : inLiveGame s' playerName = true) by by eapply inLiveGame_true.
  split; [done|]. split; [done|]. split; [done|]. split; [|split].
  - intros gid' now'. unfold onJoinAIGame. by rewrite Hn, Hl.
  - intros gid' now'. unfold onJoinGame. by rewrite Hn, Hl.
  - intros now' row col Hin.
    destruct (makeMove_first now' gid now (Some socket) None playerName "AI Player"
                true row col Hin) as (Hres & Hboard & Hturn & Hover).
    fold game in Hres, Hboard, Hturn, Hover.
    destruct (onMakeMove_seat now' s' socket gid row col game black) as [Hgames Hev];
      try done.
    + unfold hasUsername. rewrite Hn. by apply bool_decide_eq_true_2.
    + by left.
    + split.
      * apply Hev; try done. by rewrite Hres.
      * eexists. split; [rewrite Hgames; apply lookup_insert_eq|done].
Qed.

Lemma joinAIGame_starts_game_witness :
  let s := setConnectedPlayers {[ "s1" := "alice"; "s2" := "bob"; "s3" := "carol" ]}
             demoServer in
  let r := onJoinAIGame "g2" 3 s "s3" in
  games r.1 !! "g2"
    = Some (newGame "g2" 3 (Some "s3") None "carol" "AI Player" true) ∧
  playerGameMap r.1 !! "carol" = Some "g2" ∧
  waitingPlayers r.1 = waitingPlayers s ∧
  (∀ gid' now', onJoinAIGame gid' now' r.1 "s3" = (r.1, [])) ∧
  (∀ gid' now', onJoinGame gid' now' r.1 "s3" = Some (r.1, [])) ∧
  (∀ now' row col, inBounds row col = true →
     (onMakeMove now' r.1 "s3" "g2" row col).2
       = [Emit "s3" "gameUpdate" ""; Emit "s3" "moveConfirmed" "";
          SetTimeout "handleAIMove" "g2" 500] ∧
     ∃ g', games (onMakeMove now' r.1 "s3" "g2" row col).1 !! "g2" = Some g' ∧
           board g' = setCell initializeBoard row col (Some black) ∧
           currentPlayer g' = white).
Proof.
  intros s.
  apply (joinAIGame_starts_game "g2" 3 s "s3" "carol"); reflexivity.
Defined.

(** X22.  [joinGame] by a named player who is in no live game: on an empty
    waiting list the sender is put on the list and told to wait; otherwise
    the head of the list is taken off and paired with the sender in a fresh
    game, the waiting socket on the black seat and the sender on the white
    one, and both names are mapped to the game.  The list never grows beyond
    one socket. *)
Theorem joinGame_pairs_head_of_queue gid now s socket playerName :
  connectedPlayers s !! socket = Some playerName →
  inLiveGame s playerName = false →
  (waitingPlayers s = [] →
     onJoinGame gid now s socket
       = Some (setWaitingPlayers [socket] s, [Emit socket "waitingForOpponent" ""])) ∧
  (∀ player1 rest player1Name,
     waitingPlayers s = player1 :: rest →
     connectedPlayers s !! player1 = Some player1Name →
     ∃ r, onJoinGame gid now s socket = Some r ∧
       games r.1 !! gid
         = Some (newGame gid now (Some player1) (Some socket)
                   player1Name playerName false) ∧
       (∀ gid', gid' ≠ gid → games r.1 !! gid' = games s !! gid') ∧
       waitingPlayers r.1 = rest ∧
       playerGameMap r.1 !! player1Name = Some gid ∧
       playerGameMap r.1 !! playerName = Some gid ∧
       r.2 = [Emit player1 "gameStarted" "black"; Emit socket "gameStarted" "white";
              Broadcast gid "gameUpdate"]) ∧
  (∀ r, onJoinGame gid now s socket = Some r →
     (length (waitingPlayers s) ≤ 1)%nat → (length (waitingPlayers r.1) ≤ 1)%nat).
Proof.
  intros Hname Hlive. unfold onJoinGame. rewrite Hname, Hlive. split; [|split].
  - by intros ->.
  - intros player1 rest player1Name -> Hp1. rewrite Hp1. eexists. split; [done|].
    cbn [fst snd]. split; [apply lookup_insert_eq|]. split.
    { intros gid' Hne. simpl. by rewrite lookup_insert_ne. }
    split; [done|]. split; [|split; [apply lookup_insert_eq|done]].
    simpl. destruct (decide (playerName = player1Name)) as [->|Hne].
    + apply lookup_insert_eq.
    + rewrite lookup_insert_ne by done. apply lookup_insert_eq.
  - intros r. destruct (waitingPlayers s) as [|p1 rest]; simpl.
    + by intros [= <-].
    + destruct (connectedPlayers s !! p1); [|done]. intros [= <-]. simpl. lia.
Qed.

Lemma joinGame_pairs_head_of_queue_witness :
  let s := setWaitingPlayers ["s4"]
             (setConnectedPlayers
                {[ "s1" := "alice"; "s2" := "bob"; "s3" := "carol"; "s4" := "dave" ]}
                demoServer) in
  (waitingPlayers s = [] →
     onJoinGame "g2" 3 s "s3"
       = Some (setWaitingPlayers ["s3"] s, [Emit "s3" "waitingForOpponent" ""])) ∧
  (∀ player1 rest player1Name,
     waitingPlayers s = player1 :: rest →
     connectedPlayers s !! player1 = Some player1Name →
     ∃ r, onJoinGame "g2" 3 s "s3" = Some r ∧
       games r.1 !! "g2"
         = Some (newGame "g2" 3 (Some player1) (Some "s3") player1Name "carol" false) ∧
       (∀ gid', gid' ≠ "g2" → games r.1 !! gid' = games s !! gid') ∧
       waitingPlayers r.1 = rest ∧
       playerGameMap r.1 !! player1Name = Some "g2" ∧
       playerGameMap r.1 !! "carol" = Some "g2" ∧
       r.2 = [Emit player1 "gameStarted" "black"; Emit "s3" "gameStarted" "white";
              Broadcast "g2" "gameUpdate"]) ∧
  (∀ r, onJoinGame "g2" 3 s "s3" = Some r →
     (length (waitingPlayers s) ≤ 1)%nat → (length (waitingPlayers r.1) ≤ 1)%nat).
Proof.
  intros s.
  apply (joinGame_pairs_head_of_queue "g2" 3 s "s3" "carol"); reflexivity.
Defined.

Lemma makeMove_wrong_turn now g row col player :
  currentPlayer g ≠ player → (makeMove now g row col player).1 = g.
Proof.
  intros Hturn. unfold makeMove.
  destruct (isValidMove g row col player) eqn:Hv; [|done].
  by apply isValidMove_turn in Hv as [? _].
Qed.

(** X23.  [joinGame] does not check whether the sender is already waiting: a
    player who sends it twice while alone on the list is paired with itself,
    on both seats of the new game.  In such a game the socket always moves
    for black, so once it is white's turn no move of any socket changes the
    game. *)
Theorem joinGame_twice_pairs_socket_with_itself gid1 gid2 now s socket playerName :
  connectedPlayers s !! socket = Some playerName →
  inLiveGame s playerName = false → waitingPlayers s = [] →
  ∃ s1 r,
    onJoinGame gid1 now s socket = Some (s1, [Emit socket "waitingForOpponent" ""]) ∧
    onJoinGame gid2 now s1 socket = Some r ∧
    games r.1 !! gid2
      = Some (newGame gid2 now (Some socket) (Some socket) playerName playerName false) ∧
    waitingPlayers r.1 = [] ∧
    ∀ s' g', games s' !! gid2 = Some g' →
      player1 g' = Some socket → player2 g' = Some socket →
      currentPlayer g' = white →
      ∀ now' socket' row col,
        games (onMakeMove now' s' socket' gid2 row col).1 !! gid2 = Some g'.
Proof.
  intros Hname Hlive Hwait.
  exists (setWaitingPlayers [socket] s). eexists. split; [|split; [|split; [|split]]].
  - unfold onJoinGame. by rewrite Hname, Hlive, Hwait.
  - unfold onJoinGame.
    change (connectedPlayers (setWaitingPlayers [socket] s)) with (connectedPlayers s).
    rewrite Hname.
    change (inLiveGame (setWaitingPlayers [socket] s) playerName)
      with (inLiveGame s playerName).
    rewrite Hlive. cbn [waitingPlayers setWaitingPlayers]. rewrite Hname. done.
  - apply lookup_insert_eq.
  - done.
  - intros s' g' Hg' Hp1 Hp2 Hturn now' socket' row col. unfold onMakeMove.
    destruct (negb (hasUsername s' socket')); [done|].
    destruct (falsy gid2); [done|].
    destruct ((row <? 0) || (row >=? 19) || (col <? 0) || (col >=? 19)); [done|].
    rewrite Hg'.
    destruct (bool_decide (player1 g' = Some socket')) eqn:H1; simpl.
    + assert (Hr : (makeMove now' g' row col black).1 = g').
      { apply makeMove_wrong_turn. by rewrite Hturn. }
      destruct (makeMove now' g' row col black) as [g2 res]. simpl in Hr. subst g2.
      destruct res; simpl; [destruct (gameHistory s' !! gid2)|]; simpl;
        apply lookup_insert_eq.
    + destruct (bool_decide (player2 g' = Some socket')) eqn:H2; simpl; [|done].
      apply bool_decide_eq_true in H2. apply bool_decide_eq_false in H1. congruence.
Qed.

Lemma joinGame_twice_pairs_socket_with_itself_witness :
  let s := setConnectedPlayers {[ "s1" := "alice"; "s2" := "bob"; "s3" := "carol" ]}
             demoServer in
  ∃ s1 r,
    onJoinGame "g2" 3 s "s3" = Some (s1, [Emit "s3" "waitingForOpponent" ""]) ∧
    onJoinGame "g3" 3 s1 "s3" = Some r ∧
    games r.1 !! "g3"
      = Some (newGame "g3" 3 (Some "s3") (Some "s3") "carol" "carol" false) ∧
    waitingPlayers r.1 = [] ∧
    ∀ s' g', games s' !! "g3" = Some g' →
      player1 g' = Some "s3" → player2 g' = Some "s3" →
      currentPlayer g' = white →
      ∀ now' socket' row col,
        games (onMakeMove now' s' socket' "g3" row col).1 !! "g3" = Some g'.
Proof.
  intros s.
  apply (joinGame_twice_pairs_socket_with_itself "g2" "g3" 3 s "s3" "carol");
    reflexivity.
Defined.

(** ** The AI's reply *)

Lemma setBoard_same g : setBoard (board g) g = g.
Proof. by destruct g. Qed.

Lemma getBestMove_valid randomIndex g aiPlayer humanPlayer pos :
  gameOver g = false → currentPlayer g = aiPlayer →
  (getBestMove randomIndex (board g) aiPlayer humanPlayer).2 = Some pos →
  inBounds pos.1 pos.2 = true ∧ cellAt (board g) pos.1 pos.2 = Some None ∧
  isValidMove g pos.1 pos.2 aiPlayer = Valid.
Proof.
  intros Hover Hturn Hpos.
  destruct (getBestMove_spec randomIndex (board g) aiPlayer humanPlayer) as (_ & Hr & _).
  rewrite Hpos in Hr. apply elem_of_getEmptyPositions in Hr as [Hin He].
  split; [done|]. split; [by apply cellEmpty_spec|].
  unfold isValidMove. pose proof Hin as Hb%inBounds_spec.
  replace ((pos.1 <? 0) || (pos.1 >=? 19) || (pos.2 <? 0) || (pos.2 >=? 19))
    with false by (symmetry; rewrite !orb_false_iff; lia).
  rewrite He, Hover. simpl. by rewrite bool_decide_eq_true_2.
Qed.

(** X24.  When [handleAIMove] resumes after thinking, on a game that is
    still in [games]: if it is not the AI's turn (the game was reset or has
    ended meanwhile) or the board is full, nothing changes and nothing is
    sent; if it is the AI's turn in a game that is not over, the AI's stone is
    placed on the empty cell that [getBestMove] chose, the move is counted,
    the turn passes to the human unless the game ended, and the human is sent
    the update. *)
Theorem handleAIMove_moves_only_in_turn now randomIndex s gameId game human :
  games s !! gameId = Some game → wfBoard (board game) →
  player1 game = Some human →
  let ai := aiPlayerColor game in
  let choice := (getBestMove randomIndex (board game) ai (humanPlayerColor game)).2 in
  (currentPlayer game ≠ ai ∨ gameOver game = true ∨ choice = None →
     handleAIMoveResume now randomIndex s gameId = Some (s, [])) ∧
  (currentPlayer game = ai → gameOver game = false →
     ∀ pos, choice = Some pos →
       ∃ r g', handleAIMoveResume now randomIndex s gameId = Some r ∧
         games r.1 !! gameId = Some g' ∧
         g' = (makeMove now game pos.1 pos.2 ai).1 ∧
         cellAt (board game) pos.1 pos.2 = Some None ∧
         cellAt (board g') pos.1 pos.2 = Some (Some ai) ∧
         moveCount g' = moveCount game + 1 ∧
         (gameOver g' = false → currentPlayer g' = otherColor ai) ∧
         ∃ more, r.2 = Emit human "gameUpdate" "" :: Emit human "moveConfirmed" "" :: more).
Proof.
  intros Hgame Hwf Hhuman ai choice.
  destruct (getBestMove_spec randomIndex (board game) ai (humanPlayerColor game))
    as (Hboard & Hchoice & _).
  fold choice in Hchoice. split.
  - intros Hcase. unfold handleAIMoveResume. rewrite Hgame.
    fold ai. rewrite Hboard, setBoard_same. fold choice.
    destruct choice as [pos|].
    + assert (Hsame : (makeMove now game pos.1 pos.2 ai).1 = game
                      ∧ success (makeMove now game pos.1 pos.2 ai).2 = false).
      { unfold makeMove. destruct (isValidMove game pos.1 pos.2 ai) eqn:Hv; [|done].
        apply isValidMove_turn in Hv as [Hturn Hover].
        destruct Hcase as [?|[?|?]]; congruence. }
      destruct Hsame as [Hsame Hfail].
      destruct (makeMove now game pos.1 pos.2 ai) as [g' res]. simpl in *. subst g'.
      destruct res; [done|]. by rewrite setGames_same.
    + by rewrite setGames_same.
  - intros Hturn Hover pos Hpos.
    destruct (getBestMove_valid randomIndex game ai (humanPlayerColor game) pos)
      as (Hin & Hcell & Hv); try done.
    assert (Hs : success (makeMove now game pos.1 pos.2 ai).2 = true).
    { unfold makeMove. by rewrite Hv. }
    pose proof (makeMove_ok _ _ _ _ _ Hs) as (_ & Hb & Hc & _ & Hend).
    assert (Hp1 : player1 (makeMove now game pos.1 pos.2 ai).1 = Some human).
    { rewrite <- Hhuman. unfold makeMove. rewrite Hv. cbn zeta.
      repeat case_match; done. }
    unfold handleAIMoveResume. rewrite Hgame. fold ai.
    rewrite Hboard, setBoard_same. fold choice. rewrite Hpos.
    destruct (makeMove now game pos.1 pos.2 ai) as [g' res] eqn:Hm.
    cbn [fst snd] in *. destruct res as [over win turn|]; [|done].
    rewrite Hp1. eexists. exists g'. split; [done|]. cbn [fst snd].
    split; [by destruct (gameHistory _ !! gameId); simpl; apply lookup_insert_eq|].
    split; [done|]. split; [done|]. split.
    { rewrite Hb, cellAt_setCell by done. by rewrite bool_decide_eq_true_2. }
    split; [done|]. split; [|by eexists].
    intros Hnot. destruct (won _); [destruct Hend; congruence|].
    destruct (_ >=? _); [destruct Hend; congruence|].
    destruct Hend as (_ & _ & ->). by rewrite Hturn.
Qed.

Lemma handleAIMove_moves_only_in_turn_witness :
  let game := (makeMove 1 (newGame "g2" 0 (Some "s3") None "carol" "AI Player" true)
                 9 9 black).1 in
  let s := setGames {[ "g2" := game ]} demoServer in
  let ai := aiPlayerColor game in
  let choice := (getBestMove 0 (board game) ai (humanPlayerColor game)).2 in
  (currentPlayer game ≠ ai ∨ gameOver game = true ∨ choice = None →
     handleAIMoveResume 2 0 s "g2" = Some (s, [])) ∧
  (currentPlayer game = ai → gameOver game = false →
     ∀ pos, choice = Some pos →
       ∃ r g', handleAIMoveResume 2 0 s "g2" = Some r ∧
         games r.1 !! "g2" = Some g' ∧
         g' = (makeMove 2 game pos.1 pos.2 ai).1 ∧
         cellAt (board game) pos.1 pos.2 = Some None ∧
         cellAt (board g') pos.1 pos.2 = Some (Some ai) ∧
         moveCount g' = moveCount game + 1 ∧
         (gameOver g' = false → currentPlayer g' = otherColor ai) ∧
         ∃ more, r.2 = Emit "s3" "gameUpdate" "" :: Emit "s3" "moveConfirmed" "" :: more).
Proof.
  intros game s.
  apply (handleAIMove_moves_only_in_turn 2 0 s "g2" game "s3").
  - reflexivity.
  - split; [reflexivity|]. vm_compute. repeat constructor.
  - reflexivity.
Defined.

(** ** Transport disconnects and the grace period *)

Section DisconnectProperties.
Context (handleOf : string → Z) `{!Inj (=) (=) handleOf}.

Lemma onDisconnect_games w socket gameId :
  games (server (onDisconnect handleOf w socket)) !! gameId
  = (λ game, if seatedIn socket game
             then setDisconnectTimeout (Some (handleOf gameId)) game
             else game) <$> games (server w) !! gameId.
Proof.
  unfold onDisconnect. cbn [server games setWaitingPlayers setGames].
  rewrite map_lookup_imap. by destruct (games (server w) !! gameId).
Qed.

Lemma onDisconnect_timer w socket gameId game :
  games (server w) !! gameId = Some game → seatedIn socket game = true →
  ∃ t, timers (onDisconnect handleOf w socket) !! handleOf gameId = Some t ∧
       gtSocket t = socket ∧ gtGameId t = gameId ∧
       gtOtherPlayer t = otherPlayerOf (bool_decide (player1 game = Some socket)) game ∧
       gtPlayer1Name t = player1Name game ∧ gtPlayer2Name t = player2Name game ∧
       gtPlayerName t = match connectedPlayers (server w) !! socket with
                        | Some name => if falsy name then "Unknown" else name
                        | None => "Unknown"
                        end.
Proof.
  intros Hgame Hseat. unfold onDisconnect. cbn [timers].
  eexists. split.
  - apply lookup_union_Some_raw. left.
    rewrite lookup_kmap by done. rewrite map_lookup_imap.
    rewrite (map_lookup_filter_Some_2 _ _ gameId game) by done. simpl. done.
  - done.
Qed.

(** The [disconnect] handler keeps the names and the player-to-game index. *)
Lemma onDisconnect_frame w socket :
  connectedPlayers (server (onDisconnect handleOf w socket))
    = connectedPlayers (server w) ∧
  playerNames (server (onDisconnect handleOf w socket)) = playerNames (server w) ∧
  playerGameMap (server (onDisconnect handleOf w socket))
    = playerGameMap (server w) ∧
  gameHistory (server (onDisconnect handleOf w socket)) = gameHistory (server w).
Proof. done. Qed.
End DisconnectProperties.

Lemma graceTimerExpires_state now w handle t :
  timers w !! handle = Some t →
  let r := graceTimerExpires now w handle in
  games (server r.1) = delete (gtGameId t) (games (server w)) ∧
  playerGameMap (server r.1)
    = delete (gtPlayer2Name t) (delete (gtPlayer1Name t) (playerGameMap (server w))) ∧
  connectedPlayers (server r.1) = delete (gtSocket t) (connectedPlayers (server w)) ∧
  timers r.1 = delete handle (timers w) ∧
  r.2 = match gtOtherPlayer t with
        | Some other =>
            if bool_decide (other ∈ liveSockets (server w))
            then [Emit other "opponentDisconnected" (gtPlayerName t)]
            else []
        | None => []
        end.
Proof.
  intros Ht. unfold graceTimerExpires. rewrite Ht. cbn [fst snd server timers].
  destruct (connectedPlayers (server w) !! gtSocket t) as [username|] eqn:Hold.
  - destruct (bool_decide (username ∈ _));
      destruct (gameHistory _ !! gtGameId t); done.
  - rewrite (delete_id (connectedPlayers (server w)) (gtSocket t)) by done. destruct (gameHistory _ !! gtGameId t); done.
Qed.

Section GracePeriod.
Context (handleOf : string → Z) `{!Inj (=) (=) handleOf}.

(** X25.  A transport disconnect by itself ends nothing: every game stays in
    [games] with its board, turn, outcome, move count, log and sockets as
    they were (the games of the socket only get the handle of a new grace
    timer), and the names and the player-to-game index are kept.  The socket
    is taken out of every restart vote set and every other vote stays where
    it was; a set that this empties is dropped, and no other set is.  The
    socket is taken off the waiting list. *)
Theorem disconnect_keeps_games w socket :
  let w' := onDisconnect handleOf w socket in
  (∀ gameId game, games (server w) !! gameId = Some game →
     ∃ game', games (server w') !! gameId = Some game' ∧
       board game' = board game ∧ currentPlayer game' = currentPlayer game ∧
       winner game' = winner game ∧ gameOver game' = gameOver game ∧
       moveCount game' = moveCount game ∧ moveHistory game' = moveHistory game ∧
       player1 game' = player1 game ∧ player2 game' = player2 game ∧
       disconnectTimeout game' =
         (if seatedIn socket game then Some (handleOf gameId)
          else disconnectTimeout game)) ∧
  (∀ gameId, games (server w) !! gameId = None → games (server w') !! gameId = None) ∧
  connectedPlayers (server w') = connectedPlayers (server w) ∧
  playerGameMap (server w') = playerGameMap (server w) ∧
  (∀ gameId requests, startOverRequests (server w') !! gameId = Some requests →
     (socket ∉ requests) ∧ requests ≠ ∅) ∧
  (∀ gameId voter,
     (∃ requests', startOverRequests (server w') !! gameId = Some requests' ∧
                   voter ∈ requests') ↔
     voter ≠ socket ∧
     ∃ requests, startOverRequests (server w) !! gameId = Some requests ∧
                 voter ∈ requests) ∧
  (∀ gameId, startOverRequests (server w') !! gameId = None ↔
     ∀ requests, startOverRequests (server w) !! gameId = Some requests →
       requests ⊆ {[socket]}) ∧
  waitingPlayers (server w') = removeFirst socket (waitingPlayers (server w)).
Proof.
  assert (Hvotes : ∀ gameId,
    startOverRequests (server (onDisconnect handleOf w socket)) !! gameId
    = match startOverRequests (server w) !! gameId with
      | Some requests =>
          if decide (requests ∖ {[socket]} = ∅) then None
          else Some (requests ∖ {[socket]})
      | None => None
      end).
  { intros gameId. unfold onDisconnect. cbn [server startOverRequests
      setWaitingPlayers setGames setStartOverRequests].
    destruct (startOverRequests (server w) !! gameId) as [R|] eqn:HR.
    - destruct (decide (R ∖ {[socket]} = ∅)) as [He|He].
      + apply map_lookup_filter_None. right. intros x Hx.
        rewrite lookup_fmap, HR in Hx. injection Hx as <-. simpl. by intros [].
      + apply map_lookup_filter_Some. split; [|done].
        by rewrite lookup_fmap, HR.
    - apply map_lookup_filter_None. left. by rewrite lookup_fmap, HR. }
  cbn zeta. split; [|split; [|split; [|split; [|split; [|split; [|split]]]]]];
    try done.
  - intros gameId game Hgame. rewrite onDisconnect_games, Hgame. simpl.
    eexists. split; [done|]. by destruct (seatedIn socket game).
  - intros gameId Hnone. by rewrite onDisconnect_games, Hnone.
  - intros gameId requests. unfold onDisconnect. cbn [server startOverRequests
      setWaitingPlayers setGames setStartOverRequests].
    intros [Hl Hne]%map_lookup_filter_Some. simpl in Hne.
    rewrite lookup_fmap in Hl.
    destruct (startOverRequests (server w) !! gameId) as [R|]; [|done].
    injection Hl as <-. split; [|done].
    intros [_ Hn]%elem_of_difference. apply Hn. by apply elem_of_singleton.
  - intros gameId voter. rewrite Hvotes.
    destruct (startOverRequests (server w) !! gameId) as [R|].
    + destruct (decide (R ∖ {[socket]} = ∅)) as [He|He].
      * split; [by intros (? & ? & _)|].
        intros (Hne & R' & [= <-] & Hin). exfalso.
        assert (Hv : voter ∈ R ∖ {[socket]}).
        { apply elem_of_difference. split; [done|]. by intros ?%elem_of_singleton. }
        rewrite He in Hv. by apply elem_of_empty in Hv.
      * split.
        -- intros (R' & [= <-] & [Hin Hn]%elem_of_difference). split.
           ++ intros ->. apply Hn. by apply elem_of_singleton.
           ++ by exists R.
        -- intros (Hne & R' & [= <-] & Hin). eexists. split; [done|].
           apply elem_of_difference. split; [done|]. by intros ?%elem_of_singleton.
    + split; [by intros (? & ? & _)|by intros (_ & ? & ? & _)].
  - intros gameId. rewrite Hvotes.
    destruct (startOverRequests (server w) !! gameId) as [R|].
    + destruct (decide (R ∖ {[socket]} = ∅)) as [He|He].
      * split; [|done]. intros _ R' [= <-] x Hx.
        destruct (decide (x = socket)) as [->|Hne]; [by apply elem_of_singleton|].
        exfalso. assert (Hv : x ∈ R ∖ {[socket]}).
        { apply elem_of_difference. split; [done|]. by intros ?%elem_of_singleton. }
        rewrite He in Hv. by apply elem_of_empty in Hv.
      * split; [done|]. intros Hsub. exfalso. apply He.
        apply leibniz_equiv. apply elem_of_equiv_empty. intros x [Hx Hn]%elem_of_difference.
        apply Hn. by apply (Hsub R).
    + split; [|done]. by intros _ R' ?.
Qed.

(** X26.  A reconnect within the grace period keeps the game: after the
    disconnect of a participant's socket, a [reconnectToGame] from a socket
    that bears the participant's name clears the grace timer, so that its
    expiry runs nothing, and the game goes on with its board, turn, outcome,
    move count and log as they were before the disconnect. *)
Theorem reconnect_within_grace_keeps_game now w old socket playerName gameId game :
  games (server w) !! gameId = Some game → seatedIn old game = true →
  connectedPlayers (server w) !! socket = Some playerName →
  playerGameMap (server w) !! playerName = Some gameId → falsy gameId = false →
  player1Name game = playerName ∨ player2Name game = playerName →
  let w1 := onDisconnect handleOf w old in
  let w2 := (onReconnectToGameW w1 socket).1 in
  is_Some (timers w1 !! handleOf gameId) ∧
  timers w2 !! handleOf gameId = None ∧
  graceTimerExpires now w2 (handleOf gameId) = (w2, []) ∧
  ∃ game', games (server w2) !! gameId = Some game' ∧
    board game' = board game ∧ currentPlayer game' = currentPlayer game ∧
    winner game' = winner game ∧ gameOver game' = gameOver game ∧
    moveCount game' = moveCount game ∧ moveHistory game' = moveHistory game ∧
    disconnectTimeout game' = None ∧
    (player1 game' = Some socket ∨ player2 game' = Some socket).
Proof.
  intros Hgame Hseat Hname Hmap Hgid Hnames w1 w2.
  set (game1 := setDisconnectTimeout (Some (handleOf gameId)) game).
  assert (Hg1 : games (server w1) !! gameId = Some game1).
  { unfold w1. rewrite onDisconnect_games, Hgame. simpl. by rewrite Hseat. }
  destruct (onDisconnect_timer handleOf w old gameId game Hgame Hseat) as (t & Ht & _).
  fold w1 in Ht.
  assert (Hrec : reconnectedGame (server w1) socket = Some game1).
  { unfold reconnectedGame.
    change (connectedPlayers (server w1)) with (connectedPlayers (server w)).
    change (playerGameMap (server w1)) with (playerGameMap (server w)).
    rewrite Hname, Hmap, Hgid, Hg1.
    destruct Hnames as [H1|H2].
    - by rewrite (bool_decide_eq_true_2 (player1Name game1 = playerName)).
    - rewrite (bool_decide_eq_true_2 (player2Name game1 = playerName)) by done.
      by rewrite andb_false_r. }
  assert (Hnone : timers w2 !! handleOf gameId = None).
  { unfold w2, onReconnectToGameW. cbn [fst timers]. rewrite Hrec. simpl.
    apply lookup_delete_eq. }
  split; [by eexists|]. split; [done|]. split.
  { unfold graceTimerExpires. by rewrite Hnone. }
  destruct (reconnect_state (server w1) socket playerName gameId game1)
    as [Hgames _]; try done.
  exists (setDisconnectTimeout None
            (if bool_decide (player1Name game1 = playerName)
             then setPlayer1 (Some socket) game1 else setPlayer2 (Some socket) game1)).
  split.
  { unfold w2, onReconnectToGameW. cbn [fst server]. rewrite Hgames.
    apply lookup_insert_eq. }
  case_bool_decide; simpl; repeat split; auto.
Qed.

(** X27.  When the grace timer of a disconnected participant expires, the
    game is deleted together with the mappings of both its players and the
    name entry of the disconnected socket, the other participant is told if
    its socket is still connected, and a later reconnect under either
    player's name fails with "No active game found for this player". *)
Theorem grace_expiry_ends_game now w old gameId game :
  games (server w) !! gameId = Some game → seatedIn old game = true →
  let w1 := onDisconnect handleOf w old in
  let r := graceTimerExpires now w1 (handleOf gameId) in
  games (server r.1) !! gameId = None ∧
  playerGameMap (server r.1)
    = delete (player2Name game) (delete (player1Name game) (playerGameMap (server w))) ∧
  connectedPlayers (server r.1) = delete old (connectedPlayers (server w)) ∧
  timers r.1 !! handleOf gameId = None ∧
  r.2 = match otherPlayerOf (bool_decide (player1 game = Some old)) game with
        | Some other =>
            if bool_decide (other ∈ liveSockets (server w) ∧ other ≠ old)
            then [Emit other "opponentDisconnected"
                    match connectedPlayers (server w) !! old with
                    | Some name => if falsy name then "Unknown" else name
                    | None => "Unknown"
                    end]
            else []
        | None => []
        end ∧
  ∀ socket name,
    connectedPlayers (server r.1) !! socket = Some name →
    name = player1Name game ∨ name = player2Name game →
    (onReconnectToGameW r.1 socket).2
      = [Emit socket "reconnectError" "No active game found for this player"].
Proof.
  intros Hgame Hseat w1 r.
  destruct (onDisconnect_timer handleOf w old gameId game Hgame Hseat)
    as (t & Ht & Hsock & Hgid & Hother & Hn1 & Hn2 & Hpn).
  fold w1 in Ht.
  destruct (graceTimerExpires_state now w1 (handleOf gameId) t Ht)
    as (Hgames & Hpg & Hcp & Htimers & Hevs).
  fold r in Hgames, Hpg, Hcp, Htimers, Hevs.
  rewrite Hn1, Hn2 in Hpg. rewrite Hsock in Hcp. rewrite Hgid in Hgames.
  split; [|split; [done|split; [done|split; [|split]]]].
  - rewrite Hgames. apply lookup_delete_eq.
  - rewrite Htimers. apply lookup_delete_eq.
  - rewrite Hevs, Hother, Hpn.
    destruct (otherPlayerOf _ game) as [other|]; [|done].
    rewrite (bool_decide_ext (other ∈ liveSockets (server w1))
               (other ∈ liveSockets (server w) ∧ other ≠ old)); [done|].
    change (liveSockets (server w1)) with (liveSockets (server w) ∖ {[old]}).
    by rewrite elem_of_difference, elem_of_singleton.
  - intros socket name Hname Hor.
    assert (Hnone : playerGameMap (server r.1) !! name = None).
    { rewrite Hpg. destruct Hor as [->| ->].
      - destruct (decide (player2Name game = player1Name game)) as [->|Hne].
        + apply lookup_delete_eq.
        + rewrite lookup_delete_ne by done. apply lookup_delete_eq.
      - apply lookup_delete_eq. }
    unfold onReconnectToGameW, onReconnectToGame. cbn [snd].
    by rewrite Hname, Hnone.
Qed.
End GracePeriod.

Lemma demoHandle_inj : Inj (=) (=) demoHandle.
Proof. intros x y Heq. injection Heq as Heq. by apply (inj encode). Qed.

Lemma reconnect_within_grace_keeps_game_witness :
  let w := mkWorld
             (setConnectedPlayers {[ "s1" := "alice"; "s2" := "bob"; "s3" := "alice" ]}
                demoServer) ∅ in
  let w1 := onDisconnect demoHandle w "s1" in
  let w2 := (onReconnectToGameW w1 "s3").1 in
  is_Some (timers w1 !! demoHandle "g1") ∧
  timers w2 !! demoHandle "g1" = None ∧
  graceTimerExpires 7 w2 (demoHandle "g1") = (w2, []) ∧
  ∃ game', games (server w2) !! "g1" = Some game' ∧
    board game' = board freshGame ∧ currentPlayer game' = currentPlayer freshGame ∧
    winner game' = winner freshGame ∧ gameOver game' = gameOver freshGame ∧
    moveCount game' = moveCount freshGame ∧ moveHistory game' = moveHistory freshGame ∧
    disconnectTimeout game' = None ∧
    (player1 game' = Some "s3" ∨ player2 game' = Some "s3").
Proof.
  intros w.
  apply (@reconnect_within_grace_keeps_game demoHandle demoHandle_inj 7 w
           "s1" "s3" "alice" "g1" freshGame); try reflexivity.
  left. reflexivity.
Defined.

Lemma grace_expiry_ends_game_witness :
  let w := mkWorld demoServer ∅ in
  let w1 := onDisconnect demoHandle w "s1" in
  let r := graceTimerExpires 7 w1 (demoHandle "g1") in
  games (server r.1) !! "g1" = None ∧
  playerGameMap (server r.1)
    = delete (player2Name freshGame)
        (delete (player1Name freshGame) (playerGameMap (server w))) ∧
  connectedPlayers (server r.1) = delete "s1" (connectedPlayers (server w)) ∧
  timers r.1 !! demoHandle "g1" = None ∧
  r.2 = match otherPlayerOf (bool_decide (player1 freshGame = Some "s1")) freshGame with
        | Some other =>
            if bool_decide (other ∈ liveSockets (server w) ∧ other ≠ "s1")
            then [Emit other "opponentDisconnected"
                    match connectedPlayers (server w) !! "s1" with
                    | Some name => if falsy name then "Unknown" else name
                    | None => "Unknown"
                    end]
            else []
        | None => []
        end ∧
  ∀ socket name,
    connectedPlayers (server r.1) !! socket = Some name →
    name = player1Name freshGame ∨ name = player2Name freshGame →
    (onReconnectToGameW r.1 socket).2
      = [Emit socket "reconnectError" "No active game found for this player"].
Proof.
  intros w.
  apply (@grace_expiry_ends_game demoHandle demoHandle_inj 7 w "s1" "g1" freshGame);
    reflexivity.
Defined.

(** ** The games that the server holds *)

Lemma gamesReachable_insert s s' gameId game :
  gamesReachable s → reachable game → games s' = <[gameId := game]> (games s) →
  gamesReachable s'.
Proof.
  intros Hs Hg Heq k g. rewrite Heq. intros [[_ <-]|[_ Hk]]%lookup_insert_Some; [done|].
  by apply (Hs k).
Qed.

Lemma gamesReachable_delete s s' gameId :
  gamesReachable s → games s' = delete gameId (games s) → gamesReachable s'.
Proof.
  intros Hs Heq k g. rewrite Heq. intros [_ Hk]%lookup_delete_Some. by apply (Hs k).
Qed.

Lemma gamesReachable_handle now s socket req :
  gamesReachable s → gamesReachable (handle now s socket req).1.
Proof.
  intros Hs. destruct req as [gameId row col|gameId|gameId|gameId accept|gameId| |
                              |gameId playerName]; cbn [handle].
  - unfold onMakeMove.
    destruct (negb (hasUsername s socket)); [done|].
    destruct (falsy gameId); [done|].
    destruct ((row <? 0) || (row >=? 19) || (col <? 0) || (col >=? 19)); [done|].
    destruct (games s !! gameId) as [game|] eqn:Hgame; [|done].
    destruct (negb _ && negb _); [done|]. cbv zeta.
    match goal with
    | |- context [makeMove now game row col ?p] =>
        pose proof (reach_step _ _ (Hs _ _ Hgame) (step_makeMove now game row col p)) as Hr;
        destruct (makeMove now game row col p) as [g' res]
    end.
    cbn [fst snd] in *.
    destruct res; [destruct (gameHistory _ !! gameId)|];
      by apply (gamesReachable_insert s _ gameId g').
  - unfold onRequestStartOver.
    destruct (negb (hasUsername s socket)); [done|].
    destruct (falsy gameId); [done|].
    destruct (games s !! gameId) as [game|] eqn:Hgame; [|done].
    destruct (negb _ && negb _); [done|]. cbv zeta.
    pose proof (reach_step _ _ (Hs _ _ Hgame) (step_reset now game)) as Hr.
    destruct (isAIGame game); rewrite ?orb_true_r, ?orb_false_r.
    + destruct (_ <$> player1 game).
      * apply (gamesReachable_insert s _ gameId (resetGame now game)); done.
      * apply (gamesReachable_insert s _ gameId (resetGame now game)); done.
    + destruct (otherPlayerOf _ game); [|done].
      destruct (bool_decide (size _ = 2%nat)); [|done].
      by apply (gamesReachable_insert s _ gameId (resetGame now game)).
  - unfold onRequestNewGame.
    destruct (negb (hasUsername s socket)); [done|].
    destruct (falsy gameId); [done|].
    destruct (games s !! gameId) as [game|]; [|done].
    destruct (negb _ && negb _); [done|].
    by destruct (otherPlayerOf _ game).
  - unfold onRespondToNewGame.
    destruct (negb (hasUsername s socket)); [done|].
    destruct (falsy gameId); [done|].
    destruct (games s !! gameId) as [game|] eqn:Hgame; [|done].
    destruct (negb _ && negb _); [done|].
    destruct accept; [|by destruct (otherPlayerOf _ game)].
    apply (gamesReachable_insert s _ gameId (resetGame now game)); [done| |done].
    eapply reach_step; [by eapply Hs|apply step_reset].
  - unfold onResetAIGame.
    destruct (negb (hasUsername s socket)); [done|].
    destruct (falsy gameId); [done|].
    destruct (games s !! gameId) as [game|] eqn:Hgame; [|done].
    destruct (negb (isAIGame game)); [done|].
    destruct (negb (bool_decide _)); [done|].
    apply (gamesReachable_insert s _ gameId (resetGame now game)); [done| |done].
    eapply reach_step; [by eapply Hs|apply step_reset].
  - unfold onReconnectToGame.
    destruct (connectedPlayers s !! socket) as [playerName|]; [|done].
    destruct (playerGameMap s !! playerName) as [gameId|]; [|done].
    destruct (falsy gameId); [done|].
    destruct (games s !! gameId) as [game|] eqn:Hgame; [|done]. cbv zeta.
    destruct (negb _ && negb _); [done|].
    eapply (gamesReachable_insert s _ gameId); [done| |done].
    eapply reach_step; [by eapply Hs|].
    destruct (bool_decide (player1Name game = playerName));
      [apply step_reconnect1|apply step_reconnect2].
  - unfold onLeaveGame.
    destruct (connectedPlayers s !! socket) as [playerName|]; [|done]. cbv zeta.
    destruct (playerGameMap s !! playerName) as [gameId|]; [|done].
    destruct (falsy gameId); [done|].
    destruct (games s !! gameId) as [game|] eqn:Hgame; [|done].
    by apply (gamesReachable_delete s _ gameId).
  - unfold onPlayerDisconnect.
    destruct (falsy gameId || falsy playerName); [done|].
    destruct (games s !! gameId) as [game|]; [|done].
    destruct (negb _ && negb _); [done|]. cbv zeta.
    apply (gamesReachable_delete s _ gameId); [done|].
    by destruct (gameHistory s !! gameId).
Qed.

(** X28.  The handlers change the stored [Game] objects only through the
    class's own operations and the seat and timer bookkeeping: if every game
    that the server holds has come about from a constructor call by
    [makeMove], resets, the disconnect mark and that bookkeeping, the same
    is true after any inbound message, any pairing by [joinGame] or
    [joinAIGame], any reply of the AI, any transport disconnect and any
    expiry of a grace timer; [getGameState] changes nothing at all. *)
Theorem handlers_keep_games_reachable s :
  gamesReachable s →
  (∀ now socket req, gamesReachable (handle now s socket req).1) ∧
  (∀ gid now socket r, onJoinGame gid now s socket = Some r → gamesReachable r.1) ∧
  (∀ gid now socket, gamesReachable (onJoinAIGame gid now s socket).1) ∧
  (∀ socket gameId, (onGetGameState s socket gameId).1 = s) ∧
  (∀ now randomIndex gameId r,
     handleAIMoveResume now randomIndex s gameId = Some r → gamesReachable r.1) ∧
  (∀ handleOf pending socket,
     gamesReachable (server (onDisconnect handleOf (mkWorld s pending) socket))) ∧
  (∀ now pending handle,
     gamesReachable (server (graceTimerExpires now (mkWorld s pending) handle).1)).
Proof.
  intros Hs. split; [|split; [|split; [|split; [|split; [|split]]]]].
  - intros now socket req. by apply gamesReachable_handle.
  - intros gid now socket r. unfold onJoinGame.
    destruct (connectedPlayers s !! socket) as [playerName|];
      [|by intros [= <-]].
    destruct (inLiveGame s playerName); [by intros [= <-]|].
    destruct (waitingPlayers s) as [|first rest]; [by intros [= <-]|].
    destruct (connectedPlayers s !! first) as [firstName|]; [|done].
    cbv zeta. intros [= <-].
    eapply (gamesReachable_insert s _ gid); [done|apply reach_new|done].
  - intros gid now socket. unfold onJoinAIGame.
    destruct (connectedPlayers s !! socket) as [playerName|]; [|done].
    destruct (inLiveGame s playerName); [done|]. cbv zeta.
    eapply (gamesReachable_insert s _ gid); [done|apply reach_new|done].
  - intros socket gameId. unfold onGetGameState.
    destruct (negb (hasUsername s socket)); [done|].
    by destruct (games s !! gameId).
  - intros now randomIndex gameId r. unfold handleAIMoveResume.
    destruct (games s !! gameId) as [game|] eqn:Hgame; [|done]. cbv zeta.
    destruct (getBestMove_spec randomIndex (board game) (aiPlayerColor game)
                (humanPlayerColor game)) as (Hboard & _).
    rewrite Hboard, setBoard_same.
    destruct (getBestMove _ _ _ _).2 as [aiMove|].
    + pose proof (reach_step _ _ (Hs _ _ Hgame)
                    (step_makeMove now game aiMove.1 aiMove.2 (aiPlayerColor game)))
        as Hr.
      destruct (makeMove now game aiMove.1 aiMove.2 (aiPlayerColor game))
        as [g' res]. cbn [fst snd] in *.
      destruct res.
      * destruct (player1 g'); [|done]. intros [= <-].
        destruct (gameHistory _ !! gameId);
          by apply (gamesReachable_insert s _ gameId g').
      * intros [= <-]. by apply (gamesReachable_insert s _ gameId g').
    + intros [= <-]. apply (gamesReachable_insert s _ gameId game); [done| |done].
      by eapply Hs.
  - intros handleOf pending socket k g. rewrite onDisconnect_games. cbn [server].
    destruct (games s !! k) as [game|] eqn:Hgame; [|done].
    cbn [fmap option_fmap option_map]. intros [= <-].
    destruct (seatedIn socket game); [|by eapply Hs].
    eapply reach_step; [by eapply Hs|apply step_disconnect].
  - intros now pending handle.
    destruct (pending !! handle) as [t|] eqn:Ht.
    + destruct (graceTimerExpires_state now (mkWorld s pending) handle t Ht)
        as (Hgames & _).
      by apply (gamesReachable_delete s _ (gtGameId t)).
    + unfold graceTimerExpires. cbn [timers]. by rewrite Ht.
Qed.

Lemma handlers_keep_games_reachable_witness :
  (∀ now socket req, gamesReachable (handle now demoServer socket req).1) ∧
  (∀ gid now socket r,
     onJoinGame gid now demoServer socket = Some r → gamesReachable r.1) ∧
  (∀ gid now socket, gamesReachable (onJoinAIGame gid now demoServer socket).1) ∧
  (∀ socket gameId, (onGetGameState demoServer socket gameId).1 = demoServer) ∧
  (∀ now randomIndex gameId r,
     handleAIMoveResume now randomIndex demoServer gameId = Some r →
     gamesReachable r.1) ∧
  (∀ handleOf pending socket,
     gamesReachable
       (server (onDisconnect handleOf (mkWorld demoServer pending) socket))) ∧
  (∀ now pending handle,
     gamesReachable
       (server (graceTimerExpires now (mkWorld demoServer pending) handle).1)).
Proof.
  apply (handlers_keep_games_reachable demoServer).
  intros gameId game. unfold demoServer. cbn [games].
  intros [_ <-]%lookup_singleton_Some. apply reach_new.
Defined.

(** ** Votes and reconnects *)

(** X29.  One participant can restart a two-player game alone: the player of
    the first seat votes to restart, reconnects under the same name on
    another socket and votes again from it.  The vote of the replaced socket
    is still in the set, so the second vote makes two and the game is reset,
    though the socket of the other seat never voted. *)
Theorem revote_after_reconnect_restarts_alone now s old new playerName gameId game other :
  connectedPlayers s !! old = Some playerName →
  connectedPlayers s !! new = Some playerName → old ≠ new →
  playerGameMap s !! playerName = Some gameId → falsy gameId = false →
  games s !! gameId = Some game → isAIGame game = false →
  player1 game = Some old → player1Name game = playerName →
  player2 game = Some other →
  startOverRequests s !! gameId = None →
  let s1 := (onRequestStartOver now s old gameId).1 in
  let s2 := (onReconnectToGame s1 new).1 in
  let r := onRequestStartOver now s2 new gameId in
  let game2 := setDisconnectTimeout None (setPlayer1 (Some new) game) in
  games s1 = games s ∧
  games s2 !! gameId = Some game2 ∧
  startOverRequests s2 !! gameId = Some {[old]} ∧
  games r.1 !! gameId = Some (resetGame now game2) ∧
  startOverRequests r.1 !! gameId = None ∧
  r.2 = [Emit other "startOverRequested" ""; Broadcast gameId "gameRestarted"].
Proof.
  intros Hold Hnew Hne Hmap Hgid Hgame Hai Hp1 Hn1 Hp2 Hvotes s1 s2 r game2.
  assert (Hs1 : s1 = setStartOverRequests
                       (<[gameId := {[old]}]> (startOverRequests s)) s).
  { unfold s1, onRequestStartOver.
    assert (Hu : hasUsername s old = true).
    { apply bool_decide_eq_true. by eexists. }
    assert (Hreq : default ∅ (startOverRequests s !! gameId) ∪ {[old]}
                   = ({[old]} : gset string)).
    { rewrite Hvotes. cbn [from_option]. apply (left_id_L ∅ _). }
    rewrite Hu, Hgid, Hgame, Hai. simpl.
    rewrite (bool_decide_eq_true_2 _ Hp1). simpl.
    rewrite Hp2, Hreq, size_singleton. done. }
  assert (Hs2 : games s2 = <[gameId := game2]> (games s) ∧
                startOverRequests s2 = <[gameId := {[old]}]> (startOverRequests s) ∧
                connectedPlayers s2 = connectedPlayers s).
  { unfold s2, onReconnectToGame. rewrite Hs1.
    cbn [connectedPlayers playerGameMap games setStartOverRequests].
    rewrite Hnew, Hmap, Hgid, Hgame.
    rewrite (bool_decide_eq_true_2 _ Hn1). simpl. done. }
  destruct Hs2 as (Hg2 & Hv2 & Hc2).
  assert (Hgame2 : games s2 !! gameId = Some game2).
  { rewrite Hg2. apply lookup_insert_eq. }
  assert (Hvotes2 : startOverRequests s2 !! gameId = Some {[old]}).
  { rewrite Hv2. apply lookup_insert_eq. }
  split; [by rewrite Hs1|]. split; [done|]. split; [done|].
  assert (Hu : hasUsername s2 new = true).
  { apply bool_decide_eq_true. rewrite Hc2. by eexists. }
  assert (Hsize : size (({[old]} : gset string) ∪ {[new]}) = 2%nat).
  { rewrite size_union.
    - by rewrite !size_singleton.
    - apply disjoint_singleton_l. by intros ?%elem_of_singleton. }
  unfold r, onRequestStartOver.
  rewrite Hu, Hgid, Hgame2, Hvotes2. cbn [negb from_option]. unfold Datatypes.id.
  change (isAIGame game2) with (isAIGame game). rewrite Hai.
  change (player1 game2) with (Some new).
  rewrite (bool_decide_eq_true_2 (Some new = Some new)) by done. cbn [negb andb].
  unfold otherPlayerOf. change (player2 game2) with (player2 game). rewrite Hp2.
  cbv zeta. rewrite (bool_decide_eq_true_2 _ Hsize). cbn [orb fst snd app].
  split; [apply lookup_insert_eq|]. split; [apply lookup_delete_eq|done].
Qed.

Lemma revote_after_reconnect_restarts_alone_witness :
  let s := setConnectedPlayers {[ "s1" := "alice"; "s2" := "bob"; "s3" := "alice" ]}
             demoServer in
  let s1 := (onRequestStartOver 5 s "s1" "g1").1 in
  let s2 := (onReconnectToGame s1 "s3").1 in
  let r := onRequestStartOver 5 s2 "s3" "g1" in
  let game2 := setDisconnectTimeout None (setPlayer1 (Some "s3") freshGame) in
  games s1 = games s ∧
  games s2 !! "g1" = Some game2 ∧
  startOverRequests s2 !! "g1" = Some {[ "s1" ]} ∧
  games r.1 !! "g1" = Some (resetGame 5 game2) ∧
  startOverRequests r.1 !! "g1" = None ∧
  r.2 = [Emit "s2" "startOverRequested" ""; Broadcast "g1" "gameRestarted"].
Proof.
  intros s.
  apply (revote_after_reconnect_restarts_alone 5 s "s1" "s3" "alice" "g1" freshGame "s2");
    try reflexivity.
  discriminate.
Defined.
